(** * DeDupeLab: a shallow embedding of the scan / plan / apply / rollback core

    The development follows the Python sources:
    - [src/scanner.py]            context classifier and indexer,
    - [src/db.py]                 the duplicate query of the store,
    - [src/dedupelab/planner.py]  [ensure_unique] and the plan CSV writer,
    - [src/cli.py]                [cmd_plan],
    - [src/applier.py]            the strict three-phase applier,
    - [src/dedupelab/applier.py]  the older applier with the rename shortcut,
    - [src/dedupelab/rollback.py] [rollback_from_checkpoint].

    Strings are byte strings ([string] of the Standard Library), a
    [pathlib.Path] is its tuple of [parts], the file system is a finite map
    from paths to nodes, and Python exceptions are an explicit error result. *)

From Stdlib Require Import String Ascii List Arith Lia Bool.
From stdpp Require Import base option list strings gmap pretty sorting.

Open Scope string_scope.
Open Scope list_scope.
Open Scope nat_scope.

(** ** Python results: a value or a raised exception *)

Inductive exn :=
| ValueError
| FileNotFoundError
| FileExistsError
| IsADirectoryError
| NotADirectoryError
| InjectedOSError
| RuntimeError (msg : string).

Inductive result (A : Type) :=
| Ok (a : A)
| Raise (e : exn).
Arguments Ok {A} a.
Arguments Raise {A} e.

Definition rbind {A B} (r : result A) (k : A -> result B) : result B :=
  match r with
  | Ok a => k a
  | Raise e => Raise e
  end.

Notation "'do' x <- r ; k" := (rbind r (fun x => k))
  (at level 10, x name, r at level 100, k at level 200).
Notation "'do' ' p <- r ; k" := (rbind r (fun p => k))
  (at level 10, p pattern, r at level 100, k at level 200).

Definition is_ok {A} (r : result A) : bool :=
  match r with Ok _ => true | Raise _ => false end.

(** ** Python string operations used by the sources *)

Module Py.

Definition is_upper (c : ascii) : bool :=
  (65 <=? nat_of_ascii c)%nat && (nat_of_ascii c <=? 90)%nat.

Definition lower_char (c : ascii) : ascii :=
  if is_upper c then ascii_of_nat (nat_of_ascii c + 32)%nat else c.

(** [str.lower] on ASCII text.  A character outside the ASCII range is
    left as it is, where [str.lower] also maps the other cased characters
    of Unicode (U+212A, the Kelvin sign, becomes [k]). *)
Fixpoint lower (s : string) : string :=
  match s with
  | EmptyString => EmptyString
  | String c t => String (lower_char c) (lower t)
  end.

(** [needle in hay] *)
Fixpoint contains (needle hay : string) : bool :=
  if String.prefix needle hay then true
  else match hay with
       | EmptyString => false
       | String _ t => contains needle t
       end.

(** [s.replace(c, r)] for a one-character pattern [c]. *)
Fixpoint replace_char (c : ascii) (r : string) (s : string) : string :=
  match s with
  | EmptyString => EmptyString
  | String a t =>
      if Ascii.eqb a c then r +:+ replace_char c r t
      else String a (replace_char c r t)
  end.

(** [s.rfind(c)]; [None] stands for [-1]. *)
Fixpoint rfind (c : ascii) (s : string) : option nat :=
  match s with
  | EmptyString => None
  | String a t =>
      match rfind c t with
      | Some i => Some (S i)
      | None => if Ascii.eqb a c then Some 0 else None
      end
  end.

(** [s[:n]] and [s[n:]] *)
Fixpoint take (n : nat) (s : string) : string :=
  match n, s with
  | S n', String a t => String a (take n' t)
  | _, _ => EmptyString
  end.

Fixpoint drop (n : nat) (s : string) : string :=
  match n, s with
  | S n', String _ t => drop n' t
  | _, _ => s
  end.

(** [s.split(sep)] for a one-character separator: never returns []. *)
Fixpoint split_go (sep : ascii) (cur : string) (s : string) : list string :=
  match s with
  | EmptyString => [String.rev cur]
  | String a t =>
      if Ascii.eqb a sep then String.rev cur :: split_go sep EmptyString t
      else split_go sep (String a cur) t
  end.

Definition split (sep : ascii) (s : string) : list string :=
  split_go sep EmptyString s.

(** [sep.join(l)] *)
Fixpoint join (sep : string) (l : list string) : string :=
  match l with
  | [] => EmptyString
  | [x] => x
  | x :: rest => x +:+ sep +:+ join sep rest
  end.

(** [s.endswith(t)] *)
Definition endswith (s t : string) : bool :=
  String.prefix (String.rev t) (String.rev s).

(** [f"{n:06d}"] for a natural number. *)
Fixpoint zeros (n : nat) : string :=
  match n with
  | O => EmptyString
  | S n' => String "0"%char (zeros n')
  end.

Definition pad06 (n : nat) : string :=
  let d := pretty n in
  zeros (6 - String.length d)%nat +:+ d.

End Py.

(** ** pathlib.PurePosixPath, as the tuple [parts] *)

Module PathLib.

(** An absolute path starts with the component ["/"]; [[]] is [Path(".")]. *)
Definition Path := list string.

Definition is_anchor (p : Path) : bool :=
  match p with
  | [] => true
  | [r] => String.eqb r "/"
  | _ => false
  end.

(** [Path(s)]: split at [/], drop empty and [.] components. *)
Definition Path_of_string (s : string) : Path :=
  let comps :=
    List.filter (fun c => negb (String.eqb c "" || String.eqb c "."))
                (Py.split "/"%char s) in
  if String.prefix "/" s then "/" :: comps else comps.

(** [str(p)] *)
Definition str (p : Path) : string :=
  match p with
  | [] => "."
  | r :: rest =>
      if String.eqb r "/" then "/" +:+ Py.join "/" rest
      else Py.join "/" p
  end.

(** [p.name] *)
Definition name (p : Path) : string :=
  if is_anchor p then "" else List.last p "".

(** [p.parent] *)
Definition parent (p : Path) : Path :=
  if is_anchor p then p else List.removelast p.

(** [p.parents], nearest first *)
Fixpoint parents_aux (fuel : nat) (p : Path) : list Path :=
  match fuel with
  | O => []
  | S fuel' =>
      if is_anchor p then []
      else parent p :: parents_aux fuel' (parent p)
  end.

Definition parents (p : Path) : list Path := parents_aux (length p) p.

(** [p.suffix] and [p.stem], from the position of the last dot of the name *)
Definition dot_index (nm : string) : option nat :=
  match Py.rfind "."%char nm with
  | Some i =>
      if (0 <? i)%nat && (i <? String.length nm - 1)%nat then Some i else None
  | None => None
  end.

Definition suffix_of_name (nm : string) : string :=
  match dot_index nm with
  | Some i => Py.drop i nm
  | None => ""
  end.

Definition stem_of_name (nm : string) : string :=
  match dot_index nm with
  | Some i => Py.take i nm
  | None => nm
  end.

Definition suffix (p : Path) : string := suffix_of_name (name p).
Definition stem (p : Path) : string := stem_of_name (name p).

(** [p / c] for a single component [c]; joining the empty string changes
    nothing. *)
Definition joinpath (p : Path) (c : string) : Path :=
  if String.eqb c "" then p else p ++ [c].

Definition is_absolute (p : Path) : bool :=
  match p with
  | r :: _ => String.eqb r "/"
  | [] => false
  end.

(** [p.with_name(n)]: raises [ValueError] on a path with an empty name. *)
Definition with_name (p : Path) (n : string) : result Path :=
  if String.eqb (name p) "" then Raise ValueError
  else if String.eqb n "" || Py.contains "/" n then Raise ValueError
  else Ok (List.removelast p ++ [n]).

(** [p.with_suffix(s)] *)
Definition with_suffix (p : Path) (s : string) : result Path :=
  if String.eqb (name p) "" then Raise ValueError
  else if Py.contains "/" s then Raise ValueError
  else if (negb (String.eqb s "") && negb (String.prefix "." s))
          || String.eqb s "." then Raise ValueError
  else Ok (List.removelast p ++ [stem p +:+ s]).

End PathLib.

Import PathLib.

(** ** The file system: a finite map from paths to nodes

    The map stands for a POSIX file system on one device, without symbolic
    or hard links: a path is the only name of the node it leads to.  Two
    things that the kernel does are left out of the operations, and are
    stated instead, where a statement depends on them, as the predicates
    [resolved] and [fits] at the end of the module:
    - the operations look a path up by its parts as they are spelled.  The
      kernel resolves a [..] component against the directory it is reached
      in and a relative path against the working directory, so that such
      a path can name a file that the map holds under another key;
    - the kernel refuses a component of more than [NAME_MAX] bytes and a
      path of [PATH_MAX] bytes or more: every system call on such a path
      raises [OSError], [Path.exists()] included, and Python refuses a
      path that holds a NUL byte.  The operations have no such limits.
    The nodes have no owner and no permission bits: the process may read
    and write every one of them. *)

Module Fs.

Inductive node :=
| File (content : string)
| Dir.

Abbreviation FS := (gmap Path node).

(** The anchors ([/] and the working directory) always exist as directories. *)
Definition node_at (fs : FS) (p : Path) : option node :=
  if is_anchor p then Some Dir else fs !! p.

(** [p.exists()], [p.is_file()], [p.is_dir()], for a path that is
    [resolved] and [fits]. *)
Definition exists_ (fs : FS) (p : Path) : bool :=
  match node_at fs p with Some _ => true | None => false end.

Definition is_file (fs : FS) (p : Path) : bool :=
  match node_at fs p with Some (File _) => true | _ => false end.

Definition is_dir (fs : FS) (p : Path) : bool :=
  match node_at fs p with Some Dir => true | _ => false end.

(** [p.mkdir(parents=True, exist_ok=True)]: an existing directory is kept,
    an existing regular file on the way raises, missing ancestors are
    created first. *)
Fixpoint mkdir_go (fuel : nat) (fs : FS) (p : Path) : result FS :=
  match node_at fs p with
  | Some Dir => Ok fs
  | Some (File _) => Raise FileExistsError
  | None =>
      match fuel with
      | O => Raise FileNotFoundError
      | S fuel' =>
          do fs' <- mkdir_go fuel' fs (parent p);
          Ok (<[p := Dir]> fs')
      end
  end.

Definition mkdir_parents (fs : FS) (p : Path) : result FS :=
  mkdir_go (length p) fs p.

(** [p.stat().st_size]; the size reported for a directory is never used
    by a caller that goes on (opening it for reading raises). *)
Definition stat_size (fs : FS) (p : Path) : result nat :=
  match node_at fs p with
  | Some (File c) => Ok (String.length c)
  | Some Dir => Ok 0
  | None => Raise FileNotFoundError
  end.

(** Reading a whole regular file ([open("rb")] and [read] to the end). *)
Definition read_file (fs : FS) (p : Path) : result string :=
  match node_at fs p with
  | Some (File c) => Ok c
  | Some Dir => Raise IsADirectoryError
  | None => Raise FileNotFoundError
  end.

(** [p.open("wb")]: creates the file or truncates it. *)
Definition open_wb (fs : FS) (p : Path) : result FS :=
  match node_at fs p with
  | Some Dir => Raise IsADirectoryError
  | _ =>
      match node_at fs (parent p) with
      | Some Dir => Ok (<[p := File ""]> fs)
      | Some (File _) => Raise NotADirectoryError
      | None => Raise FileNotFoundError
      end
  end.

(** [p.unlink()] and [p.unlink(missing_ok=True)] *)
Definition unlink (fs : FS) (p : Path) : result FS :=
  match node_at fs p with
  | Some (File _) => Ok (delete p fs)
  | Some Dir => Raise IsADirectoryError
  | None => Raise FileNotFoundError
  end.

Definition unlink_missing_ok (fs : FS) (p : Path) : result FS :=
  match node_at fs p with
  | Some (File _) => Ok (delete p fs)
  | Some Dir => Raise IsADirectoryError
  | None => Ok fs
  end.

(** Moving a directory re-keys every path below it. *)
Definition is_prefix (a k : Path) : bool :=
  bool_decide (take (length a) k = a).

Definition rekey (a b k : Path) : Path :=
  if is_prefix a k then b ++ drop (length a) k else k.

Definition has_child (fs : FS) (d : Path) : bool :=
  bool_decide (Exists (fun kv => is_prefix d kv.1 && negb (bool_decide (kv.1 = d)) = true)
                      (map_to_list fs)).

(** [os.rename(a, b)] *)
Definition rename (fs : FS) (a b : Path) : result FS :=
  if is_anchor a then Raise InjectedOSError
  else
    match node_at fs a with
    | None => Raise FileNotFoundError
    | Some (File c) =>
        match node_at fs b with
        | Some Dir => Raise IsADirectoryError
        | _ =>
            match node_at fs (parent b) with
            | Some Dir => Ok (<[b := File c]> (delete a fs))
            | Some (File _) => Raise NotADirectoryError
            | None => Raise FileNotFoundError
            end
        end
    | Some Dir =>
        if is_prefix a b && negb (bool_decide (a = b)) then Raise InjectedOSError
        else
          match node_at fs b with
          | Some (File _) => Raise NotADirectoryError
          | Some Dir =>
              if bool_decide (a = b) then Ok fs
              else if has_child fs b then Raise FileExistsError
              else Ok (list_to_map
                         (map (fun kv => (rekey a b kv.1, kv.2)) (map_to_list (delete b fs))))
          | None =>
              match node_at fs (parent b) with
              | Some Dir =>
                  Ok (list_to_map
                        (map (fun kv => (rekey a b kv.1, kv.2)) (map_to_list fs)))
              | Some (File _) => Raise NotADirectoryError
              | None => Raise FileNotFoundError
              end
          end
    end.

(** [shutil.move(src, dst)] on one device: into [dst] when [dst] is a
    directory, otherwise a rename onto [dst]. *)
Definition move (fs : FS) (src dst : Path) : result FS :=
  if is_dir fs dst then
    if bool_decide (src = dst) then rename fs src dst
    else
      let real_dst := joinpath dst (name src) in
      if exists_ fs real_dst then Raise FileExistsError
      else rename fs src real_dst
  else rename fs src dst.

(** The limits of Linux on the length of a name and of a path, in bytes. *)
Definition NAME_MAX : nat := 255.
Definition PATH_MAX : nat := 4096.

(** [p] is spelled the way the kernel resolves it: it is absolute and has
    no [..] component ([Path(s)] has already dropped the empty and the [.]
    components).  Two such paths name the same node only when they are
    equal. *)
Definition resolved (p : Path) : bool :=
  is_absolute p && forallb (fun c => negb (String.eqb c "..")) p.

(** No system call refuses [p] for its length or for a NUL byte, also
    when [slack] more bytes are appended to its name. *)
Definition fits (slack : nat) (p : Path) : bool :=
  forallb (fun c => (String.length c + slack <=? NAME_MAX)
                    && negb (Py.contains (String Ascii.zero EmptyString) c)) p
  && (String.length (str p) + slack <? PATH_MAX).

End Fs.

Import Fs.

(** ** State and exceptions together: [FS -> result A * FS] *)

Definition M (A : Type) : Type := FS -> result A * FS.

Definition ret {A} (a : A) : M A := fun fs => (Ok a, fs).

Definition raise {A} (e : exn) : M A := fun fs => (Raise e, fs).

Definition bind {A B} (m : M A) (k : A -> M B) : M B :=
  fun fs =>
    match m fs with
    | (Ok a, fs') => k a fs'
    | (Raise e, fs') => (Raise e, fs')
    end.

(** [try: m  except Exception as e: h e] *)
Definition try_except {A} (m : M A) (h : exn -> M A) : M A :=
  fun fs =>
    match m fs with
    | (Ok a, fs') => (Ok a, fs')
    | (Raise e, fs') => h e fs'
    end.

(** A file-system query, and an update that leaves the state alone when it raises. *)
Definition query {A} (f : FS -> result A) : M A := fun fs => (f fs, fs).

Definition gets {A} (f : FS -> A) : M A := fun fs => (Ok (f fs), fs).

Definition update (f : FS -> result FS) : M unit :=
  fun fs =>
    match f fs with
    | Ok fs' => (Ok tt, fs')
    | Raise e => (Raise e, fs)
    end.

Declare Scope fsm_scope.
Delimit Scope fsm_scope with fsm.
Notation "x <- m ;; k" := (bind m (fun x => k))
  (at level 100, m at next level, right associativity) : fsm_scope.
Notation "m ;;; k" := (bind m (fun _ => k))
  (at level 100, right associativity) : fsm_scope.

(** ** src/dedupelab/planner.py *)

Record PlanRow := {
  status : string;
  op : string;
  src_path : string;
  dst_path : string;
  content_id : string;
  reason : string;
  rollback_key : string;
  ts : string
}.

Module Planner.

(** The candidate [parent / f"{stem} ({i}){suf}"]. *)
Definition candidate (dst : Path) (i : nat) : Path :=
  joinpath (parent dst) (stem dst +:+ " (" +:+ pretty i +:+ ")" +:+ suffix dst).

(** The [while True] loop, counting up from [i]; [None] when the fuel runs out. *)
Fixpoint ensure_unique_loop (fuel : nat) (fs : FS) (dst : Path) (i : nat)
  : option Path :=
  match fuel with
  | O => None
  | S fuel' =>
      let cand := candidate dst i in
      if negb (exists_ fs cand) then Some cand
      else ensure_unique_loop fuel' fs dst (S i)
  end.

Definition ensure_unique_fuel (fuel : nat) (fs : FS) (dst : Path) : option Path :=
  if negb (exists_ fs dst) then Some dst
  else ensure_unique_loop fuel fs dst 1.

(** One more iteration than the file system has entries is always enough
    (see [ensure_unique_fuel_enough]).  This is the path that the call
    returns; where a probed candidate does not fit ([Fs.fits]) the call
    raises instead, in [cand.exists()]. *)
Definition ensure_unique (fs : FS) (dst : Path) : Path :=
  default dst (ensure_unique_fuel (S (size fs)) fs dst).

(** [csv.DictWriter] with the default dialect: a field is quoted when it
    holds the delimiter, the quote character or a line break; rows end
    in CR LF. *)
Definition dquote : ascii := ascii_of_nat 34.
Definition cr : ascii := ascii_of_nat 13.
Definition lf : ascii := ascii_of_nat 10.

Fixpoint has_char (c : ascii) (s : string) : bool :=
  match s with
  | EmptyString => false
  | String a t => Ascii.eqb a c || has_char c t
  end.

Definition needs_quote (s : string) : bool :=
  has_char ","%char s || has_char dquote s || has_char cr s || has_char lf s.

Definition csv_field (s : string) : string :=
  if needs_quote s then
    String dquote
      (Py.replace_char dquote (String dquote (String dquote EmptyString)) s
       +:+ String dquote EmptyString)
  else s.

Definition csv_line (fields : list string) : string :=
  Py.join "," (map csv_field fields) +:+ String cr (String lf EmptyString).

Definition fieldnames : list string :=
  ["status"; "op"; "src_path"; "dst_path"; "content_id"; "reason";
   "rollback_key"; "ts"].

Definition row_fields (r : PlanRow) : list string :=
  [status r; op r; src_path r; dst_path r; content_id r; reason r;
   rollback_key r; ts r].

(** The text that [write_plan_csv] writes. *)
Definition plan_csv (rows : list PlanRow) : string :=
  fold_left (fun acc r => acc +:+ csv_line (row_fields r)) rows
            (csv_line fieldnames).

Definition write_plan_csv (rows : list PlanRow) (out : Path) : M unit :=
  (update (fun fs => mkdir_parents fs (parent out)) ;;;
   update (fun fs => open_wb fs out) ;;;
   update (fun fs => Ok (<[out := File (plan_csv rows)]> fs)))%fsm.

End Planner.

(** ** Faults of the environment

    Besides the failures the file-system state itself determines (a missing
    file, a regular file where a directory is needed), a call of
    [copy_verify_delete] can be hit by one external fault at one of its
    system calls: the copy breaks off after writing some bytes, [fsync]
    fails, the bytes that reach the temporary file differ from the ones read
    (so that the re-hash can disagree), the rename fails, or removing the
    source fails.  Removing the temporary file is taken to work whenever the
    file is there.

    [apply_moves] reports each row with [print].  The two lines that go to
    [sys.stdout] (a simulated move and a move that was carried out) hold
    the character U+2192; [print] raises [UnicodeEncodeError] when the
    encoding of the stream has no such character, and [OSError] when the
    stream is a closed pipe.  This is the fault [StdoutFault]: the line that
    reports the row cannot be written.  [copy_verify_delete] itself does
    not write to [sys.stdout].  The lines for [sys.stderr] are taken to be
    written: the error handler of that stream is [backslashreplace], so no
    text fails to encode. *)

Inductive fault :=
| NoFault
| CopyFault (written : string)
| FsyncFault
| CorruptFault (written : string)
| RenameFault
| UnlinkFault
| StdoutFault.

(** An entry of the checkpoint's [moves] list, and the statistics. *)
Record MoveEntry := {
  mv_src : string;
  mv_dst : string;
  mv_size : nat;
  mv_timestamp : N
}.

Record Stats := {
  attempted : nat;
  succeeded : nat;
  skipped : nat;
  errors : nat;
  bytes_moved : nat
}.

Record Manifest := {
  mf_timestamp : N;
  mf_dry_run : bool;
  mf_statistics : Stats;
  mf_moves : list MoveEntry
}.

(** ** src/applier.py: the strict three-phase applier *)

Module Applier.
Section Applier.

(** SHA-256 of a byte string, as a hexadecimal digest. *)
Variable sha256 : string -> string.
(** [time.time()] at the [k]-th row, and after the last one. *)
Variable clock : nat -> N.
(** [json.dumps(manifest, indent=2, ensure_ascii=False)] *)
Variable json_dumps : Manifest -> string.

Definition _sha256_file (p : Path) : M string :=
  (c <- query (fun fs => read_file fs p) ;; ret (sha256 c))%fsm.

(** [with src.open("rb") as s, dst_tmp.open("wb") as d: copyfileobj(s, d)]:
    the source is opened, the temporary file is created or truncated, and
    only then are the source's bytes read and written. *)
Definition copy_to_tmp (flt : fault) (src dst_tmp : Path) : M unit :=
  (_ <- query (fun fs => read_file fs src) ;;
   update (fun fs => open_wb fs dst_tmp) ;;;
   c <- query (fun fs => read_file fs src) ;;
   match flt with
   | CopyFault w =>
       update (fun fs => Ok (<[dst_tmp := File w]> fs)) ;;;
       raise InjectedOSError
   | CorruptFault w => update (fun fs => Ok (<[dst_tmp := File w]> fs))
   | _ => update (fun fs => Ok (<[dst_tmp := File c]> fs))
   end)%fsm.

(** [with dst_tmp.open("rb+") as f: f.flush(); os.fsync(f.fileno())] *)
Definition fsync_tmp (flt : fault) (dst_tmp : Path) : M unit :=
  (_ <- query (fun fs => read_file fs dst_tmp) ;;
   match flt with
   | FsyncFault => raise InjectedOSError
   | _ => ret tt
   end)%fsm.

Definition rename_tmp (flt : fault) (dst_tmp dst : Path) : M unit :=
  match flt with
  | RenameFault => raise InjectedOSError
  | _ => update (fun fs => rename fs dst_tmp dst)
  end.

Definition unlink_src (flt : fault) (src : Path) : M unit :=
  match flt with
  | UnlinkFault => raise InjectedOSError
  | _ => update (fun fs => unlink fs src)
  end.

Definition cleanup_tmp (dst_tmp : Path) : M unit :=
  update (fun fs => unlink_missing_ok fs dst_tmp).

(** The body of the outer [try] of [copy_verify_delete]. *)
Definition three_phase (flt : fault) (src dst dst_tmp : Path) : M nat :=
  (update (fun fs => mkdir_parents fs (parent dst)) ;;;
   size <- query (fun fs => stat_size fs src) ;;
   (* PHASE 1: copy to the temporary file *)
   try_except (copy_to_tmp flt src dst_tmp)
              (fun _ => raise (RuntimeError "Copy failed")) ;;;
   try_except (fsync_tmp flt dst_tmp)
              (fun _ => cleanup_tmp dst_tmp ;;;
                        raise (RuntimeError "Fsync failed")) ;;;
   (* PHASE 2: verify *)
   src_hash <- _sha256_file src ;;
   dst_hash <- _sha256_file dst_tmp ;;
   (if negb (String.eqb src_hash dst_hash) then
      cleanup_tmp dst_tmp ;;; raise (RuntimeError "Hash mismatch after copy")
    else ret tt) ;;;
   (* PHASE 3: commit, then delete the source *)
   try_except (rename_tmp flt dst_tmp dst)
              (fun _ => cleanup_tmp dst_tmp ;;;
                        raise (RuntimeError "Atomic rename failed")) ;;;
   try_except (unlink_src flt src) (fun _ => ret tt) ;;;
   ret size)%fsm.

Definition copy_verify_delete (flt : fault) (src dst : Path) : M nat :=
  match with_suffix dst (suffix dst +:+ ".tmp") with
  | Raise e => raise e
  | Ok dst_tmp =>
      try_except (three_phase flt src dst dst_tmp)
        (fun e =>
           (ex <- gets (fun fs => exists_ fs dst_tmp) ;;
            (if ex then
               try_except (update (fun fs => unlink fs dst_tmp))
                          (fun _ => ret tt)
             else ret tt) ;;;
            raise e)%fsm)
  end.

(** What one planned row did. *)
Inductive outcome :=
| Skipped
| Simulated
| Moved (e : MoveEntry).

(** The body of the [try] of one iteration of [apply_moves]. *)
Definition apply_one (dry_run : bool) (flt : fault) (now : N)
           (src dst : Path) : M outcome :=
  (ex <- gets (fun fs => exists_ fs src) ;;
   if negb ex then ret Skipped
   else
     update (fun fs => mkdir_parents fs (parent dst)) ;;;
     dst_ex <- gets (fun fs => exists_ fs dst) ;;
     dst' <- (if dst_ex then gets (fun fs => Planner.ensure_unique fs dst)
              else ret dst) ;;
     if dry_run then
       _ <- query (fun fs => stat_size fs src) ;;
       ret Simulated
     else
       size <- copy_verify_delete flt src dst' ;;
       ret (Moved {| mv_src := str src; mv_dst := str dst';
                     mv_size := size; mv_timestamp := now |}))%fsm.

(** The counters of the loop. *)
Record Acc := {
  acc_applied : list MoveEntry;
  acc_attempted : nat;
  acc_skipped : nat;
  acc_errors : nat;
  acc_bytes_moved : nat
}.

Definition acc0 : Acc :=
  {| acc_applied := []; acc_attempted := 0; acc_skipped := 0;
     acc_errors := 0; acc_bytes_moved := 0 |}.

Definition is_planned_move (row : PlanRow) : bool :=
  String.eqb (op row) "move" && String.eqb (status row) "planned".

(** The [print] that ends the [try] of a row that was simulated or moved
    ([print(f"[applier][DRY-RUN] Would move: ...")] and
    [print(f"[applier][OK] Moved: ...")], both to [sys.stdout]).  It comes
    after [bytes_moved] and [applied] have been updated; when it raises,
    the [except] branch adds the row to [errors] as well. *)
Definition report (flt : fault) (a : Acc) : Acc :=
  match flt with
  | StdoutFault =>
      {| acc_applied := acc_applied a;
         acc_attempted := acc_attempted a;
         acc_skipped := acc_skipped a;
         acc_errors := S (acc_errors a);
         acc_bytes_moved := acc_bytes_moved a |}
  | _ => a
  end.

(** One iteration of [for row in rows]. *)
Definition apply_row (dry_run : bool) (flt : fault) (now : N)
           (row : PlanRow) (a : Acc) (fs : FS) : Acc * FS :=
  if negb (is_planned_move row) then (a, fs)
  else
    let src := Path_of_string (src_path row) in
    let dst := Path_of_string (dst_path row) in
    let a := {| acc_applied := acc_applied a;
                acc_attempted := S (acc_attempted a);
                acc_skipped := acc_skipped a;
                acc_errors := acc_errors a;
                acc_bytes_moved := acc_bytes_moved a |} in
    match apply_one dry_run flt now src dst fs with
    | (Ok Skipped, fs') =>
        ({| acc_applied := acc_applied a;
            acc_attempted := acc_attempted a;
            acc_skipped := S (acc_skipped a);
            acc_errors := acc_errors a;
            acc_bytes_moved := acc_bytes_moved a |}, fs')
    | (Ok Simulated, fs') => (report flt a, fs')
    | (Ok (Moved e), fs') =>
        (report flt
           {| acc_applied := acc_applied a ++ [e];
              acc_attempted := acc_attempted a;
              acc_skipped := acc_skipped a;
              acc_errors := acc_errors a;
              acc_bytes_moved := acc_bytes_moved a + mv_size e |}, fs')
    | (Raise _, fs') =>
        ({| acc_applied := acc_applied a;
            acc_attempted := acc_attempted a;
            acc_skipped := acc_skipped a;
            acc_errors := S (acc_errors a);
            acc_bytes_moved := acc_bytes_moved a |}, fs')
    end.

(** The loop over the rows; [faults k] is the fault that hits row [k]. *)
Fixpoint apply_loop (dry_run : bool) (faults : nat -> fault) (k : nat)
         (rows : list PlanRow) (a : Acc) (fs : FS) : Acc * FS :=
  match rows with
  | [] => (a, fs)
  | row :: rest =>
      let '(a', fs') := apply_row dry_run (faults k) (clock k) row a fs in
      apply_loop dry_run faults (S k) rest a' fs'
  end.

Definition stats_of (a : Acc) : Stats :=
  {| attempted := acc_attempted a;
     succeeded := length (acc_applied a);
     skipped := acc_skipped a;
     errors := acc_errors a;
     bytes_moved := acc_bytes_moved a |}.

Record ApplyResult := {
  res_stats : Stats;
  res_dry_run : bool;
  res_manifest : Manifest
}.

(** [apply_moves(rows, checkpoint, dry_run)]: the returned dictionary,
    together with the manifest that was written to [checkpoint]. *)
Definition apply_moves (rows : list PlanRow) (checkpoint : Path)
           (dry_run : bool) (faults : nat -> fault) : M ApplyResult :=
  fun fs =>
    let '(a, fs1) := apply_loop dry_run faults 0 rows acc0 fs in
    let manifest :=
      {| mf_timestamp := clock (length rows);
         mf_dry_run := dry_run;
         mf_statistics := stats_of a;
         mf_moves := acc_applied a |} in
    (update (fun fs => mkdir_parents fs (parent checkpoint)) ;;;
     update (fun fs => open_wb fs checkpoint) ;;;
     update (fun fs => Ok (<[checkpoint := File (json_dumps manifest)]> fs)) ;;;
     ret {| res_stats := stats_of a; res_dry_run := dry_run;
            res_manifest := manifest |})%fsm fs1.

End Applier.
End Applier.

(** ** src/dedupelab/applier.py: the older applier with the rename shortcut *)

Record LegacyEntry := {
  lg_src : string;
  lg_dst : string
}.

Record LegacyManifest := {
  lg_ts : N;
  lg_moves : list LegacyEntry
}.

Module Legacy.
Section Legacy.

Variable sha256 : string -> string.
Variable clock : nat -> N.
Variable json_dumps : LegacyManifest -> string.
(** [p.resolve().anchor]: drive and root of the resolved path. *)
Variable resolve_anchor : Path -> string.

Definition _sha256_file (p : Path) : M string :=
  (c <- query (fun fs => read_file fs p) ;; ret (sha256 c))%fsm.

Definition copy_direct (flt : fault) (src dst : Path) : M unit :=
  (_ <- query (fun fs => read_file fs src) ;;
   update (fun fs => open_wb fs dst) ;;;
   c <- query (fun fs => read_file fs src) ;;
   match flt with
   | CopyFault w =>
       update (fun fs => Ok (<[dst := File w]> fs)) ;;;
       raise InjectedOSError
   | CorruptFault w => update (fun fs => Ok (<[dst := File w]> fs))
   | _ => update (fun fs => Ok (<[dst := File c]> fs))
   end)%fsm.

Definition fsync_dst (flt : fault) (dst : Path) : M unit :=
  (_ <- query (fun fs => read_file fs dst) ;;
   match flt with
   | FsyncFault => raise InjectedOSError
   | _ => ret tt
   end)%fsm.

Definition shutil_move (flt : fault) (src dst : Path) : M unit :=
  match flt with
  | RenameFault => raise InjectedOSError
  | _ => update (fun fs => move fs src dst)
  end.

Definition copy_verify_delete (flt : fault) (src dst : Path) : M nat :=
  if negb (String.eqb (resolve_anchor src) (resolve_anchor dst)) then
    (size <- query (fun fs => stat_size fs src) ;;
     copy_direct flt src dst ;;;
     fsync_dst flt dst ;;;
     src_hash <- _sha256_file src ;;
     dst_hash <- _sha256_file dst ;;
     (if negb (String.eqb src_hash dst_hash) then
        update (fun fs => unlink_missing_ok fs dst) ;;;
        raise (RuntimeError "hash mismatch after copy")
      else ret tt) ;;;
     match flt with
     | UnlinkFault => raise InjectedOSError
     | _ => update (fun fs => unlink fs src)
     end ;;;
     ret size)%fsm
  else
    (shutil_move flt src dst ;;;
     ex <- gets (fun fs => exists_ fs src) ;;
     if ex then query (fun fs => stat_size fs src) else ret 0)%fsm.

Inductive outcome :=
| Skipped
| Simulated
| Moved (size : nat) (e : LegacyEntry).

Definition apply_one (dry_run : bool) (flt : fault) (src dst : Path)
  : M outcome :=
  (ex <- gets (fun fs => exists_ fs src) ;;
   if negb ex then ret Skipped
   else
     update (fun fs => mkdir_parents fs (parent dst)) ;;;
     dst_ex <- gets (fun fs => exists_ fs dst) ;;
     dst' <- (if dst_ex then gets (fun fs => Planner.ensure_unique fs dst)
              else ret dst) ;;
     if dry_run then ret Simulated
     else
       size <- copy_verify_delete flt src dst' ;;
       ret (Moved size {| lg_src := str src; lg_dst := str dst' |}))%fsm.

Record Acc := {
  acc_applied : list LegacyEntry;
  acc_attempted : nat;
  acc_skipped : nat;
  acc_errors : nat;
  acc_bytes_moved : nat
}.

Definition acc0 : Acc :=
  {| acc_applied := []; acc_attempted := 0; acc_skipped := 0;
     acc_errors := 0; acc_bytes_moved := 0 |}.

Definition apply_row (dry_run : bool) (flt : fault) (row : PlanRow)
           (a : Acc) (fs : FS) : Acc * FS :=
  if negb (Applier.is_planned_move row) then (a, fs)
  else
    let src := Path_of_string (src_path row) in
    let dst := Path_of_string (dst_path row) in
    let a := {| acc_applied := acc_applied a;
                acc_attempted := S (acc_attempted a);
                acc_skipped := acc_skipped a;
                acc_errors := acc_errors a;
                acc_bytes_moved := acc_bytes_moved a |} in
    match apply_one dry_run flt src dst fs with
    | (Ok Skipped, fs') =>
        ({| acc_applied := acc_applied a;
            acc_attempted := acc_attempted a;
            acc_skipped := S (acc_skipped a);
            acc_errors := acc_errors a;
            acc_bytes_moved := acc_bytes_moved a |}, fs')
    | (Ok Simulated, fs') => (a, fs')
    | (Ok (Moved size e), fs') =>
        ({| acc_applied := acc_applied a ++ [e];
            acc_attempted := acc_attempted a;
            acc_skipped := acc_skipped a;
            acc_errors := acc_errors a;
            acc_bytes_moved := acc_bytes_moved a + size |}, fs')
    | (Raise _, fs') =>
        ({| acc_applied := acc_applied a;
            acc_attempted := acc_attempted a;
            acc_skipped := acc_skipped a;
            acc_errors := S (acc_errors a);
            acc_bytes_moved := acc_bytes_moved a |}, fs')
    end.

Fixpoint apply_loop (dry_run : bool) (faults : nat -> fault) (k : nat)
         (rows : list PlanRow) (a : Acc) (fs : FS) : Acc * FS :=
  match rows with
  | [] => (a, fs)
  | row :: rest =>
      let '(a', fs') := apply_row dry_run (faults k) row a fs in
      apply_loop dry_run faults (S k) rest a' fs'
  end.

Definition stats_of (a : Acc) : Stats :=
  {| attempted := acc_attempted a;
     succeeded := length (acc_applied a);
     skipped := acc_skipped a;
     errors := acc_errors a;
     bytes_moved := acc_bytes_moved a |}.

(** [apply_moves]: the returned statistics and the manifest written. *)
Definition apply_moves (rows : list PlanRow) (checkpoint : Path)
           (dry_run : bool) (faults : nat -> fault)
  : M (Stats * LegacyManifest) :=
  fun fs =>
    let '(a, fs1) := apply_loop dry_run faults 0 rows acc0 fs in
    let manifest :=
      {| lg_ts := clock (length rows); lg_moves := acc_applied a |} in
    (update (fun fs => mkdir_parents fs (parent checkpoint)) ;;;
     update (fun fs => open_wb fs checkpoint) ;;;
     update (fun fs => Ok (<[checkpoint := File (json_dumps manifest)]> fs)) ;;;
     ret (stats_of a, manifest))%fsm fs1.

End Legacy.
End Legacy.

(** On POSIX [p.resolve()] is absolute, so its anchor is always ["/"]. *)
Definition posix_anchor (p : Path) : string := "/".

(** ** src/dedupelab/rollback.py *)

Module Rollback.

Record Counts := {
  restored : nat;
  rb_errors : nat
}.

(** The body of the [try] for one entry; [true] when the file was moved
    back.  [move_fails] is an external failure of [shutil.move]. *)
Definition restore_one (move_fails : bool) (mv : LegacyEntry) : M bool :=
  let src_now := Path_of_string (lg_dst mv) in
  let dst_restore := Path_of_string (lg_src mv) in
  (update (fun fs => mkdir_parents fs (parent dst_restore)) ;;;
   ex <- gets (fun fs => exists_ fs dst_restore) ;;
   dst_restore' <- (if ex then gets (fun fs => Planner.ensure_unique fs dst_restore)
                    else ret dst_restore) ;;
   now_ex <- gets (fun fs => exists_ fs src_now) ;;
   if now_ex then
     (if move_fails then raise InjectedOSError
      else update (fun fs => move fs src_now dst_restore')) ;;;
     ret true
   else ret false)%fsm.

Definition restore_entry (move_fails : bool) (mv : LegacyEntry)
           (c : Counts) (fs : FS) : Counts * FS :=
  match restore_one move_fails mv fs with
  | (Ok true, fs') =>
      ({| restored := S (restored c); rb_errors := rb_errors c |}, fs')
  | (Ok false, fs') => (c, fs')
  | (Raise _, fs') =>
      ({| restored := restored c; rb_errors := S (rb_errors c) |}, fs')
  end.

(** The loop over an already reversed list; [faults k] tells whether the
    move of the [k]-th visited entry is hit by an external failure. *)
Fixpoint rollback_loop (faults : nat -> bool) (k : nat)
         (mvs : list LegacyEntry) (c : Counts) (fs : FS) : Counts * FS :=
  match mvs with
  | [] => (c, fs)
  | mv :: rest =>
      let '(c', fs') := restore_entry (faults k) mv c fs in
      rollback_loop faults (S k) rest c' fs'
  end.

(** [rollback_from_checkpoint], given the [moves] of the decoded manifest. *)
Definition rollback_from_checkpoint (faults : nat -> bool)
           (moves : list LegacyEntry) (fs : FS) : Counts * FS :=
  rollback_loop faults 0 (rev moves)
                {| restored := 0; rb_errors := 0 |} fs.

End Rollback.

(** ** The store's records *)

Record FileRecord := {
  fr_path : string;
  fr_size : nat;
  fr_mtime : N;
  fr_sha256 : string;
  fr_mime : string;
  context_tag : string
}.

(** ** src/scanner.py *)

Module Scanner.
Section Scanner.

(** SHA-256 of a byte string. *)
Variable sha256_hex : string -> string.
(** [mimetypes.guess_type(s)[0]] with the registered types. *)
Variable guess_type : string -> option string.
(** [int(p.stat().st_mtime)] *)
Variable mtime_of : Path -> N.

Definition ARCHIVE_EXTENSIONS : list string :=
  [".zip"; ".7z"; ".tar"; ".gz"; ".bz2"; ".xz"; ".rar";
   ".tar.gz"; ".tar.bz2"; ".tar.xz"; ".tgz"; ".tbz2"].

Definition EXTRACTION_MARKERS : list string :=
  ["extracted"; "unzipped"; "unpacked"; "unarchived";
   "decompressed"; "unrar"; "untar"].

(** [any(ig in set(p.parts) for ig in ignore)] *)
Definition _should_skip (p : Path) (ignore : list string) : bool :=
  existsb (fun ig => bool_decide (ig ∈ p)) ignore.

Definition _sha256_file (fs : FS) (p : Path) : result string :=
  do c <- read_file fs p; Ok (sha256_hex c).

(** [any(str(path).lower().endswith(ext) for ext in ARCHIVE_EXTENSIONS)] *)
Definition _is_archive (p : Path) : bool :=
  existsb (fun ext => Py.endswith (Py.lower (str p)) ext) ARCHIVE_EXTENSIONS.

(** The first inner loop: an adjacent archive file named after the folder. *)
Fixpoint adjacent_archive (fs : FS) (parent : Path) (exts : list string)
  : result bool :=
  match exts with
  | [] => Ok false
  | ext :: rest =>
      do archive_candidate <- with_name parent (name parent +:+ ext);
      if exists_ fs archive_candidate && is_file fs archive_candidate
      then Ok true
      else adjacent_archive fs parent rest
  end.

(** The second inner loop: archive-like folder names. *)
Definition archive_like_name (parent_name : string) : bool :=
  existsb (fun ext =>
             Py.contains (Py.replace_char "."%char "_" ext) parent_name
             || Py.contains (Py.replace_char "."%char "" ext) parent_name)
          ARCHIVE_EXTENSIONS.

Definition has_marker (parent_name : string) : bool :=
  existsb (fun marker => Py.contains marker parent_name) EXTRACTION_MARKERS.

(** [for parent in path.parents: ...] *)
Fixpoint inside_archive_loop (fs : FS) (ps : list Path) : result bool :=
  match ps with
  | [] => Ok false
  | parent :: rest =>
      let parent_name := Py.lower (name parent) in
      if has_marker parent_name then Ok true
      else
        do adjacent <- adjacent_archive fs parent ARCHIVE_EXTENSIONS;
        if adjacent then Ok true
        else if archive_like_name parent_name then Ok true
        else inside_archive_loop fs rest
  end.

Definition _is_inside_archive (fs : FS) (p : Path) : result bool :=
  inside_archive_loop fs (parents p).

Definition _detect_context (fs : FS) (p : Path) : result string :=
  do inside <- _is_inside_archive fs p;
  if inside then Ok "archived" else Ok "unarchived".

Definition extension_map : list (string * string) :=
  [(".md", "text/markdown"); (".yaml", "text/yaml"); (".yml", "text/yaml");
   (".toml", "text/toml"); (".ini", "text/plain"); (".log", "text/plain");
   (".conf", "text/plain"); (".cfg", "text/plain");
   (".sh", "application/x-sh"); (".bash", "application/x-sh");
   (".zsh", "application/x-sh"); (".py", "text/x-python");
   (".js", "application/javascript"); (".ts", "application/typescript");
   (".jsx", "text/jsx"); (".tsx", "text/tsx"); (".rs", "text/x-rust");
   (".go", "text/x-go"); (".c", "text/x-c"); (".cpp", "text/x-c++");
   (".h", "text/x-c"); (".hpp", "text/x-c++")].

Fixpoint assoc (k : string) (l : list (string * string)) : option string :=
  match l with
  | [] => None
  | (k', v) :: rest => if String.eqb k k' then Some v else assoc k rest
  end.

Definition _get_mime_safe (p : Path) : string :=
  match guess_type (str p) with
  | Some m =>
      if negb (String.eqb m "") then m
      else default "application/octet-stream"
                   (assoc (Py.lower (suffix p)) extension_map)
  | None =>
      default "application/octet-stream"
              (assoc (Py.lower (suffix p)) extension_map)
  end.

(** [rp.rglob("*")]: every path strictly below [rp]. *)
Definition rglob_all (fs : FS) (rp : Path) : list Path :=
  List.filter (fun k => is_prefix rp k && negb (bool_decide (k = rp))
                        && Bool.eqb (is_absolute k) (is_absolute rp))
              (map fst (map_to_list fs)).

Definition iter_files (fs : FS) (roots : list string) (ignore : list string)
  : list Path :=
  flat_map (fun r =>
              let rp := Path_of_string r in
              if negb (exists_ fs rp) then []
              else List.filter (fun p => is_file fs p && negb (_should_skip p ignore))
                               (rglob_all fs rp))
           roots.

(** The body of the [try] that handles one completed future. *)
Definition process_file (fs : FS) (p : Path) : result FileRecord :=
  do sha <- _sha256_file fs p;
  do sz <- stat_size fs p;
  let mime := _get_mime_safe p in
  do context <- _detect_context fs p;
  Ok {| fr_path := str p; fr_size := sz; fr_mtime := mtime_of p;
        fr_sha256 := sha; fr_mime := mime; context_tag := context |}.

(** [threaded_hash]: the records and the number of files found.  The
    futures complete in an order the code does not fix; the records are
    listed here in submission order.  A file whose job raises is dropped. *)
Definition threaded_hash (fs : FS) (roots : list string) (ignore : list string)
  : list FileRecord * nat :=
  let files := iter_files fs roots ignore in
  (flat_map (fun p => match process_file fs p with
                      | Ok r => [r]
                      | Raise _ => []
                      end) files,
   length files).

End Scanner.
End Scanner.

(** ** src/db.py: the [files] table and the duplicate query *)

Module DB.

(** The rows of [files]; the path is the primary key. *)
Definition Store := list FileRecord.

(** [INSERT ... ON CONFLICT(path) DO UPDATE SET ...] for one record. *)
Fixpoint upsert (r : FileRecord) (st : Store) : Store :=
  match st with
  | [] => [r]
  | r' :: rest =>
      if String.eqb (fr_path r') (fr_path r) then r :: rest
      else r' :: upsert r rest
  end.

Definition upsert_files (records : list FileRecord) (st : Store) : Store :=
  fold_left (fun st r => upsert r st) records st.

(** The grouping key of [GROUP BY sha256, context_tag]. *)
Definition group_key (r : FileRecord) : string * string :=
  (fr_sha256 r, context_tag r).

Definition members (st : Store) (k : string * string) : list FileRecord :=
  List.filter (fun r => bool_decide (group_key r = k)) st.

(** [SELECT sha256, context_tag, (the paths) ... GROUP BY sha256,
    context_tag HAVING COUNT( * ) > 1], before the paths are concatenated.
    The groups are listed by the first row of each; SQLite lists them in
    the order of its query plan (the index on [sha256, context_tag]).  The
    statements about the groups do not depend on their order. *)
Definition duplicate_groups (st : Store)
  : list (string * string * list string) :=
  omap (fun k =>
          let ms := members st k in
          if 1 <? length ms then Some (k.1, k.2, map fr_path ms) else None)
       (remove_dups (map group_key st)).

(** [get_duplicates()]: [GROUP_CONCAT(path, '|')] *)
Definition get_duplicates (st : Store) : list (string * string * string) :=
  map (fun g => (g.1.1, g.1.2, Py.join "|" g.2)) (duplicate_groups st).

Definition get_all (st : Store) : list FileRecord := st.

(** The primary-key constraint of the schema: at most one row per path. *)
Definition pk_unique (st : Store) : Prop := NoDup (map fr_path st).

End DB.

(** ** src/cli.py: [cmd_plan] *)

Module Cli.

(** [sorted(l)] on strings: insertion into an ascending list. *)
Fixpoint insert_sorted (x : string) (l : list string) : list string :=
  match l with
  | [] => [x]
  | y :: rest =>
      if String.leb x y then x :: l else y :: insert_sorted x rest
  end.

Definition sorted (l : list string) : list string :=
  fold_right insert_sorted [] l.

(** The inner loop [for src in paths[1:]]; [rbk] is the running ordinal. *)
Fixpoint plan_sources (fs : FS) (ts sha ctx : string) (srcs : list string)
         (rbk : nat) : list PlanRow * nat :=
  match srcs with
  | [] => ([], rbk)
  | src :: rest =>
      let srcp := Path_of_string src in
      let dup_dir := joinpath (parent srcp) ".deduplab_duplicates" in
      let dst := Planner.ensure_unique fs (joinpath dup_dir (name srcp)) in
      let row :=
        {| status := "planned"; op := "move"; src_path := src;
           dst_path := str dst;
           content_id := "b3:sha256:" +:+ sha +:+ ":ctx:" +:+ ctx;
           reason := "dedup";
           rollback_key := "rbk:" +:+ Py.pad06 rbk;
           ts := ts |} in
      let '(rows, rbk') := plan_sources fs ts sha ctx rest (S rbk) in
      (row :: rows, rbk')
  end.

(** The outer loop [for sha, context_tag, paths_csv in dups]. *)
Fixpoint plan_groups (fs : FS) (ts : string)
         (dups : list (string * string * string)) (rbk : nat)
  : list PlanRow :=
  match dups with
  | [] => []
  | (sha, ctx, paths_csv) :: rest =>
      let paths := sorted (Py.split "|"%char paths_csv) in
      let '(rows, rbk') := plan_sources fs ts sha ctx (tail paths) rbk in
      rows ++ plan_groups fs ts rest rbk'
  end.

(** The keeper of a group: [paths[0]]. *)
Definition keeper (paths_csv : string) : option string :=
  head (sorted (Py.split "|"%char paths_csv)).

Definition plan_rows (st : DB.Store) (fs : FS) (now : string) : list PlanRow :=
  plan_groups fs now (DB.get_duplicates st) 0.

(** A row with its [ts] field replaced (used to compare two plans). *)
Definition with_ts (t : string) (r : PlanRow) : PlanRow :=
  {| status := status r; op := op r; src_path := src_path r;
     dst_path := dst_path r; content_id := content_id r;
     reason := reason r; rollback_key := rollback_key r; ts := t |}.

(** [cmd_plan]: [now] is what [_iso_now()] returns when the command runs. *)
Definition cmd_plan (st : DB.Store) (now : string) (out : Path) : M (list PlanRow) :=
  (rows <- gets (fun fs => plan_rows st fs now) ;;
   Planner.write_plan_csv rows out ;;;
   ret rows)%fsm.


End Cli.

(** ** JSON values, as the metadata dictionaries use them *)

Module Json.

(** Numbers are the integers that the tool writes (sizes and times). *)
#[warnings="-register-all"] Inductive json :=
| JNull
| JBool (b : bool)
| JNum (n : N)
| JStr (s : string)
| JList (l : list json)
| JObj (kv : list (string * json)).

(** [d.get(k)] on a dictionary given as its items. *)
Fixpoint get (k : string) (kv : list (string * json)) : option json :=
  match kv with
  | [] => None
  | (k', v) :: rest => if String.eqb k' k then Some v else get k rest
  end.

(** [k in d] *)
Definition has_key (k : string) (kv : list (string * json)) : bool :=
  match get k kv with Some _ => true | None => false end.

(** [v == s] for a string [s] *)
Definition is_str (v : option json) (s : string) : bool :=
  match v with
  | Some (JStr t) => String.eqb t s
  | _ => false
  end.

(** [type(v).__name__] *)
Definition type_name (v : json) : string :=
  match v with
  | JNull => "NoneType"
  | JBool _ => "bool"
  | JNum _ => "int"
  | JStr _ => "str"
  | JList _ => "list"
  | JObj _ => "dict"
  end.

End Json.

Import Json.

(** ** src/dedupelab/categorizer.py *)

Module Categorizer.



End Categorizer.

(** ** src/validator.py: [validate_meta_dict] *)

Module Validator.

(** What escapes, or is caught inside, [validate_meta_dict]. *)
Inductive verr :=
| AttributeError (msg : string)
| AssertionError (msg : string)
| TypeError (msg : string)
| KeyError (key : string).

(** [str(e)] *)
Definition verr_str (e : verr) : string :=
  match e with
  | AttributeError msg => msg
  | AssertionError msg => msg
  | TypeError msg => msg
  | KeyError key => "'" +:+ key +:+ "'"
  end.

Definition HEX : string := "0123456789abcdefABCDEF".

(** [len(v)] *)
Definition len (v : json) : verr + nat :=
  match v with
  | JStr s => inr (String.length s)
  | JList l => inr (length l)
  | JObj kv => inr (length kv)
  | _ => inl (TypeError ("object of type '" +:+ type_name v
                         +:+ "' has no len()"))
  end.

(** The items that [for c in v] visits. *)
Fixpoint chars (s : string) : list json :=
  match s with
  | EmptyString => []
  | String a t => JStr (String a EmptyString) :: chars t
  end.

Definition iter (v : json) : verr + list json :=
  match v with
  | JStr s => inr (chars s)
  | JList l => inr l
  | JObj kv => inr (map (fun p => JStr p.1) kv)
  | _ => inl (TypeError ("'" +:+ type_name v +:+ "' object is not iterable"))
  end.

(** [all(c in HEX for c in items)]: stops at the first item that is not
    a substring of [HEX]; an item that is not a string raises. *)
Fixpoint all_hex (items : list json) : verr + bool :=
  match items with
  | [] => inr true
  | JStr c :: rest => if Py.contains c HEX then all_hex rest else inr false
  | v :: _ =>
      inl (TypeError ("'in <string>' requires string as left operand, not "
                      +:+ type_name v))
  end.

(** The first key of [keys] that [kv] lacks. *)
Fixpoint missing_key (keys : list string) (kv : list (string * json))
  : option string :=
  match keys with
  | [] => None
  | k :: rest => if has_key k kv then missing_key rest kv else Some k
  end.

(** The checks on one entry. *)
Definition check_entry (entry : json) : option verr :=
  match entry with
  | JObj kv =>
      match missing_key ["name"; "size"; "sha256"; "mime"; "category"] kv with
      | Some k => Some (AssertionError ("entry missing key: " +:+ k))
      | None =>
          match get "sha256" kv with
          | None => Some (KeyError "sha256")
          | Some sha =>
              match len sha with
              | inl e => Some e
              | inr n =>
                  if negb (n =? 64) then
                    Some (AssertionError "sha256 must be 64 chars")
                  else
                    match iter sha with
                    | inl e => Some e
                    | inr items =>
                        match all_hex items with
                        | inl e => Some e
                        | inr true => None
                        | inr false =>
                            Some (AssertionError "sha256 must be hex")
                        end
                    end
              end
          end
      end
  | _ => Some (AssertionError "entry must be object")
  end.

Fixpoint check_entries (entries : list json) : option verr :=
  match entries with
  | [] => None
  | entry :: rest =>
      match check_entry entry with
      | Some e => Some e
      | None => check_entries rest
      end
  end.

(** The body of the fallback [try]: [None] when every assertion holds. *)
Definition structural_checks (kv : list (string * json)) : option verr :=
  match missing_key ["spec"; "generated_at"; "folder_rel"; "summary"; "entries"]
                    kv with
  | Some k => Some (AssertionError ("missing key: " +:+ k))
  | None =>
      if is_str (get "spec" kv) "deduplab_meta_v3"
         || is_str (get "spec" kv) "deduplab_meta_v4"
      then
        match get "entries" kv with
        | Some (JList entries) => check_entries entries
        | _ => Some (AssertionError "entries must be list")
        end
      else Some (AssertionError "spec mismatch")
  end.

Section Validator.

(** [check_dep("jsonschema")] *)
Variable has_jsonschema : bool.
(** Whether [schemas/deduplab_meta_v4.schema.json] is there. *)
Variable v4_schema_exists : bool.
(** [Draft202012Validator(schema).validate(meta)] for the schema file of
    the given version (3 or 4): [None] when it passes, the text of the
    exception otherwise (a schema file that cannot be loaded included). *)
Variable schema_validate : nat -> json -> option string.

(** [get_schema(name)]: which schema file is loaded. *)
Definition get_schema (name : json) : nat :=
  match name with
  | JStr n =>
      if (String.eqb n "deduplab_meta_v4" || String.eqb n "v4")
         && v4_schema_exists then 4 else 3
  | _ => 3
  end.

(** [validate_meta_dict(meta)]: the pair it returns, or the exception
    that escapes. *)
Definition validate_meta_dict (meta : json)
  : verr + (bool * option string) :=
  match meta with
  | JObj kv =>
      let spec := default (JStr "deduplab_meta_v3") (get "spec" kv) in
      if has_jsonschema then
        match schema_validate (get_schema spec) meta with
        | None => inr (true, None)
        | Some msg => inr (false, Some msg)
        end
      else
        match structural_checks kv with
        | None => inr (true, None)
        | Some e2 =>
            inr (false,
                 Some ("Structural validation failed: " +:+ verr_str e2))
        end
  | _ =>
      inl (AttributeError ("'" +:+ type_name meta
                           +:+ "' object has no attribute 'get'"))
  end.

End Validator.

End Validator.

(** ** src/dedupelab/validator.py: the older [validate_meta_dict] *)

Module LegacyValidator.

(** The fallback checks; [None] when every assertion holds. *)
Definition structural_checks (meta : json) : option string :=
  match meta with
  | JObj kv =>
      match Validator.missing_key
              ["spec"; "generated_at"; "folder_rel"; "summary"; "entries"] kv
      with
      | Some k => Some ("missing key: " +:+ k)
      | None =>
          if is_str (get "spec" kv) "deduplab_meta_v3" then
            match get "entries" kv with
            | Some (JList _) => None
            | _ => Some "entries must be list"
            end
          else Some "spec mismatch"
      end
  | _ => Some "meta must be object"
  end.

(** [schema_validate meta] is [None] when [jsonschema] can be imported, the
    schema can be loaded and the validation passes, and the text of the
    exception otherwise. *)
Definition validate_meta_dict (schema_validate : json -> option string)
           (meta : json) : bool * option string :=
  match schema_validate meta with
  | None => (true, None)
  | Some e =>
      match structural_checks meta with
      | None => (true, None)
      | Some e2 => (false, Some (e +:+ "; fallback: " +:+ e2))
      end
  end.

End LegacyValidator.

(** ** src/dedupelab/meta_exporter.py *)


Module MetaExporter.






(** [s.isascii()] and [c.isalpha()] on an ASCII character *)
Fixpoint isascii (s : string) : bool :=
  match s with
  | EmptyString => true
  | String a t => (nat_of_ascii a <? 128) && isascii t
  end.








Section MetaExporter.

(** See [LegacyValidator.validate_meta_dict]. *)
Variable schema_validate : json -> option string.
(** [json.dump] with the options of the compact and of the pretty form *)
Variable json_dump : bool -> json -> string.


End MetaExporter.

End MetaExporter.

(** ** src/db.py: the schema and its migrations *)

Module DBSchema.

(** What the statements of [BASE_SCHEMA] and [MIGRATIONS] can see and
    change: the columns of [files] (if the table exists), the names of
    the indexes, and the [version] column of [schema_version] (if that
    table exists).  Every statement is committed when it has run:
    [executescript] does not run in a transaction. *)
Record Schema := {
  files_cols : option (list string);
  indexes : list string;
  versions : option (list nat)
}.

(** A new database file. *)
Definition empty : Schema :=
  {| files_cols := None; indexes := []; versions := None |}.

Definition add_index (name : string) (l : list string) : list string :=
  if bool_decide (name ∈ l) then l else l ++ [name].

(** [BASE_SCHEMA]: [CREATE TABLE IF NOT EXISTS files(...)] and
    [CREATE INDEX IF NOT EXISTS idx_sha ON files(sha256)]. *)
Definition base_schema (s : Schema) : string + Schema :=
  let cols := default ["path"; "size"; "mtime"; "sha256"] (files_cols s) in
  if bool_decide ("idx_sha" ∈ indexes s) then
    inr {| files_cols := Some cols; indexes := indexes s;
           versions := versions s |}
  else if bool_decide ("sha256" ∈ cols) then
    inr {| files_cols := Some cols; indexes := indexes s ++ ["idx_sha"];
           versions := versions s |}
  else inl "no such column: sha256".

(** [ALTER TABLE files ADD COLUMN c ...] *)
Definition add_column (c : string) (s : Schema) : string + Schema :=
  match files_cols s with
  | None => inl "no such table: files"
  | Some cols =>
      if bool_decide (c ∈ cols) then inl ("duplicate column name: " +:+ c)
      else inr {| files_cols := Some (cols ++ [c]); indexes := indexes s;
                  versions := versions s |}
  end.

(** The script [MIGRATIONS[version]]. *)
Definition migration (version : nat) (s : Schema) : string + Schema :=
  match version with
  | 1 => add_column "mime" s
  | 2 => add_column "context_tag" s
  | 3 =>
      if bool_decide ("idx_files_hash_ctx" ∈ indexes s) then inr s
      else
        match files_cols s with
        | None => inl "no such table: main.files"
        | Some cols =>
            if bool_decide ("sha256" ∈ cols) then
              if bool_decide ("context_tag" ∈ cols) then
                inr {| files_cols := files_cols s;
                       indexes := indexes s ++ ["idx_files_hash_ctx"];
                       versions := versions s |}
              else inl "no such column: context_tag"
            else inl "no such column: sha256"
        end
  | 4 =>
      inr {| files_cols := files_cols s; indexes := indexes s;
             versions := Some (default [] (versions s)) |}
  | _ => inl "KeyError"
  end.

(** [INSERT INTO schema_version (version, ...) VALUES (...)] *)
Definition record_version (version : nat) (s : Schema) : string + Schema :=
  match versions s with
  | None => inl "no such table: schema_version"
  | Some vs =>
      if bool_decide (version ∈ vs) then
        inl "UNIQUE constraint failed: schema_version.version"
      else inr {| files_cols := files_cols s; indexes := indexes s;
                  versions := Some (vs ++ [version]) |}
  end.

(** [_get_schema_version]: [SELECT MAX(version)], and 0 when the table is
    missing or empty. *)
Definition _get_schema_version (s : Schema) : nat :=
  match versions s with
  | None => 0
  | Some vs => fold_right Nat.max 0 vs
  end.

(** A failure of the environment while one migration is applied: none,
    the script fails before it changes anything, or the script runs and
    the [INSERT] that records it fails. *)
Inductive dbfault :=
| DbOk
| ScriptFails
| InsertFails.

(** [RuntimeError(f"Database migration failed at version {version}: {e}")] *)
Record MigrationError := {
  failed_version : nat;
  failed_reason : string
}.

(** One iteration of the loop of [_migrate]. *)
Definition migrate_one (flt : dbfault) (version : nat) (s : Schema)
  : option MigrationError * Schema :=
  let fail reason s' :=
    (Some {| failed_version := version; failed_reason := reason |}, s') in
  match flt with
  | ScriptFails => fail "disk I/O error" s
  | _ =>
      match migration version s with
      | inl e => fail e s
      | inr s1 =>
          if 4 <=? version then
            match flt with
            | InsertFails => fail "disk I/O error" s1
            | _ =>
                match record_version version s1 with
                | inl e => fail e s1
                | inr s2 => (None, s2)
                end
            end
          else (None, s1)
      end
  end.

(** [for version in sorted(MIGRATIONS.keys()): if version > current: ...] *)
Fixpoint migrate_loop (faults : nat -> dbfault) (current : nat)
         (todo : list nat) (s : Schema) : option MigrationError * Schema :=
  match todo with
  | [] => (None, s)
  | version :: rest =>
      if current <? version then
        match migrate_one (faults version) version s with
        | (None, s') => migrate_loop faults current rest s'
        | (Some e, s') => (Some e, s')
        end
      else migrate_loop faults current rest s
  end.

Definition _migrate (faults : nat -> dbfault) (s : Schema)
  : option MigrationError * Schema :=
  migrate_loop faults (_get_schema_version s) [1; 2; 3; 4] s.

(** [DB.__init__], on the schema of the database file it opens: the error
    of a failed migration ([None] when the object is constructed), and the
    schema the file is left with.  A failure of [BASE_SCHEMA] is
    re-raised as it is (version 0 here). *)
Definition init (faults : nat -> dbfault) (s : Schema)
  : option MigrationError * Schema :=
  match base_schema s with
  | inl e => (Some {| failed_version := 0; failed_reason := e |}, s)
  | inr s0 => _migrate faults s0
  end.

End DBSchema.

(** ** src/config.py: the defaults that the other modules rely on *)

Module Config.

(** [DEFAULTS["ignore_patterns"]] *)
Definition ignore_patterns : list string :=
  [".git"; "node_modules"; "__pycache__"; ".deduplab_duplicates"].

End Config.

(** * Facts *)

(** ** Strings *)

Lemma app_cons (a : ascii) (s t : string) :
  String a s +:+ t = String a (s +:+ t).
Proof. reflexivity. Qed.

Lemma app_nil_l_str (t : string) : "" +:+ t = t.
Proof. reflexivity. Qed.

Lemma str_length_app (s t : string) :
  String.length (s +:+ t) = String.length s + String.length t.
Proof.
  induction s as [|a s IH]; [done|].
  rewrite app_cons. cbn. by rewrite IH.
Qed.

Lemma app_inv_tail_str (s1 s2 r : string) : s1 +:+ r = s2 +:+ r -> s1 = s2.
Proof.
  revert s2. induction s1 as [|a s1 IH]; intros [|b s2] H;
    rewrite ?app_cons, ?app_nil_l_str in H.
  - done.
  - apply (f_equal String.length) in H. cbn in H. rewrite str_length_app in H. lia.
  - apply (f_equal String.length) in H. cbn in H. rewrite str_length_app in H. lia.
  - injection H as -> H. f_equal. by apply IH.
Qed.

Lemma take_drop_str (n : nat) (s : string) : Py.take n s +:+ Py.drop n s = s.
Proof.
  revert s. induction n as [|n IH]; intros [|a s]; cbn; try done.
  by rewrite app_cons, IH.
Qed.

Lemma stem_suffix_name (nm : string) :
  stem_of_name nm +:+ suffix_of_name nm = nm.
Proof.
  unfold stem_of_name, suffix_of_name. destruct (dot_index nm) as [i|].
  - apply take_drop_str.
  - clear. induction nm as [|a nm IH]; [done|]. by rewrite app_cons, IH.
Qed.

Lemma eqb_false_of_length (s t : string) :
  String.length s <> String.length t -> String.eqb s t = false.
Proof. intros H. apply String.eqb_neq. intros ->. done. Qed.

(** ** Paths *)

Lemma is_anchor_snoc (p : Path) (c : string) :
  c <> "/" -> is_anchor (p ++ [c]) = false.
Proof.
  intros Hc. destruct p as [|a [|b p]]; cbn; [|done..].
  by apply String.eqb_neq.
Qed.

Lemma candidate_name_length (dst : Path) (i : nat) :
  String.length (stem dst +:+ " (" +:+ pretty i +:+ ")" +:+ suffix dst)
  = String.length (stem dst) + String.length (suffix dst)
    + String.length (pretty i) + 3.
Proof. rewrite !str_length_app. cbn. lia. Qed.

Lemma candidate_snoc (dst : Path) (i : nat) :
  Planner.candidate dst i
  = parent dst ++ [stem dst +:+ " (" +:+ pretty i +:+ ")" +:+ suffix dst].
Proof.
  unfold Planner.candidate, joinpath.
  rewrite eqb_false_of_length; [done|].
  rewrite candidate_name_length. cbn. lia.
Qed.

Lemma candidate_not_anchor (dst : Path) (i : nat) :
  is_anchor (Planner.candidate dst i) = false.
Proof.
  rewrite candidate_snoc. apply is_anchor_snoc.
  intros H. apply (f_equal String.length) in H.
  rewrite candidate_name_length in H. cbn in H. lia.
Qed.

Lemma candidate_inj (dst : Path) : Inj (=) (=) (Planner.candidate dst).
Proof.
  intros i j H. rewrite !candidate_snoc in H.
  apply app_inv_head in H. injection H as H.
  apply String.app_inj in H.
  change (String " " (String "(" (pretty i +:+ ")" +:+ suffix dst))
          = String " " (String "(" (pretty j +:+ ")" +:+ suffix dst))) in H.
  injection H as H.
  apply app_inv_tail_str in H. by apply (inj pretty) in H.
Qed.

(** ** The file system *)

Lemma exists_dom (fs : FS) (p : Path) :
  is_anchor p = false -> exists_ fs p = true -> p ∈ dom fs.
Proof.
  unfold exists_, node_at. intros ->. intros H.
  apply elem_of_dom. by destruct (fs !! p).
Qed.

(** ** [ensure_unique] *)

Lemma ensure_unique_loop_None (fuel : nat) (fs : FS) (dst : Path) (i : nat) :
  Planner.ensure_unique_loop fuel fs dst i = None ->
  forall j, i <= j < i + fuel -> exists_ fs (Planner.candidate dst j) = true.
Proof.
  revert i. induction fuel as [|fuel IH]; intros i H j Hj; [lia|].
  cbn in H. destruct (exists_ fs (Planner.candidate dst i)) eqn:E; [|done].
  cbn in H. destruct (decide (j = i)) as [->|]; [done|].
  apply (IH (S i)); [done|lia].
Qed.

Lemma ensure_unique_loop_Some (fuel : nat) (fs : FS) (dst : Path) (i : nat) (q : Path) :
  Planner.ensure_unique_loop fuel fs dst i = Some q ->
  exists_ fs q = false /\
  exists j, i <= j /\ q = Planner.candidate dst j /\
            forall k, i <= k < j -> exists_ fs (Planner.candidate dst k) = true.
Proof.
  revert i. induction fuel as [|fuel IH]; intros i H; [done|].
  cbn in H. destruct (exists_ fs (Planner.candidate dst i)) eqn:E; cbn in H.
  - destruct (IH _ H) as (Hq & j & Hj & -> & Hk). split; [done|].
    exists j. split; [lia|]. split; [done|].
    intros k Hk'. destruct (decide (k = i)) as [->|]; [done|]. apply Hk. lia.
  - injection H as <-. split; [done|]. exists i. split; [lia|]. split; [done|].
    intros k ?. lia.
Qed.

(** More candidates than entries: one of them is free. *)
Lemma candidates_not_all_taken (fs : FS) (dst : Path) (i : nat) :
  ~ (forall j, i <= j < i + S (size fs) ->
               exists_ fs (Planner.candidate dst j) = true).
Proof.
  intros Hall.
  pose (l := Planner.candidate dst <$> seq i (S (size fs))).
  assert (NoDup l) as Hnd.
  { pose proof (candidate_inj dst) as Hinj.
    apply (NoDup_fmap_2 (Planner.candidate dst)), NoDup_seq. }
  assert (list_to_set (C := gset Path) l ⊆ dom fs) as Hsub.
  { intros q Hq. apply elem_of_list_to_set in Hq.
    apply list_elem_of_fmap in Hq as (j & -> & Hj).
    apply elem_of_seq in Hj.
    apply exists_dom; [apply candidate_not_anchor|]. apply Hall. lia. }
  apply subseteq_size in Hsub.
  rewrite size_list_to_set in Hsub by done.
  rewrite size_dom in Hsub.
  unfold l in Hsub. rewrite length_fmap, length_seq in Hsub. lia.
Qed.

Lemma ensure_unique_fuel_enough (fs : FS) (dst : Path) :
  Planner.ensure_unique_fuel (S (size fs)) fs dst
  = Some (Planner.ensure_unique fs dst).
Proof.
  unfold Planner.ensure_unique.
  destruct (Planner.ensure_unique_fuel (S (size fs)) fs dst) eqn:E; [done|].
  exfalso. unfold Planner.ensure_unique_fuel in E.
  destruct (exists_ fs dst); [|done]. cbn [negb] in E.
  eapply candidates_not_all_taken, ensure_unique_loop_None, E.
Qed.

Lemma ensure_unique_not_exists (fs : FS) (dst : Path) :
  exists_ fs (Planner.ensure_unique fs dst) = false.
Proof.
  pose proof (ensure_unique_fuel_enough fs dst) as H.
  unfold Planner.ensure_unique_fuel in H.
  destruct (exists_ fs dst) eqn:E; cbn [negb] in H.
  - by apply ensure_unique_loop_Some in H as [? _].
  - injection H as <-. done.
Qed.

Lemma ensure_unique_absent (fs : FS) (dst : Path) :
  exists_ fs dst = false -> Planner.ensure_unique fs dst = dst.
Proof.
  intros E. unfold Planner.ensure_unique, Planner.ensure_unique_fuel.
  by rewrite E.
Qed.

Lemma ensure_unique_present (fs : FS) (dst : Path) :
  exists_ fs dst = true ->
  exists j, 1 <= j /\ Planner.ensure_unique fs dst = Planner.candidate dst j /\
            forall k, 1 <= k < j -> exists_ fs (Planner.candidate dst k) = true.
Proof.
  intros E. pose proof (ensure_unique_fuel_enough fs dst) as H.
  unfold Planner.ensure_unique_fuel in H. rewrite E in H. cbn [negb] in H.
  apply ensure_unique_loop_Some in H as (_ & j & ? & ? & ?). eauto.
Qed.

(** C8. [ensure_unique] is idempotent on an unchanged file system: the
    loop always ends (one iteration more than the file system has entries
    is enough), its result names a path that does not exist, and so a
    second call returns it unchanged. *)
Theorem ensure_unique_idempotent (fs : FS) (P : Path) :
  Planner.ensure_unique_fuel (S (size fs)) fs P
    = Some (Planner.ensure_unique fs P)
  /\ exists_ fs (Planner.ensure_unique fs P) = false
  /\ Planner.ensure_unique fs (Planner.ensure_unique fs P)
     = Planner.ensure_unique fs P.
Proof.
  split; [apply ensure_unique_fuel_enough|].
  split; [apply ensure_unique_not_exists|].
  apply ensure_unique_absent, ensure_unique_not_exists.
Qed.

(** ** The context classifier *)

Lemma name_anchor (a : Path) : is_anchor a = true -> name a = "".
Proof. unfold name. by intros ->. Qed.

Lemma length_removelast_cons {A} (c : A) (p : list A) :
  length (removelast (c :: p)) = length p.
Proof.
  rewrite removelast_firstn_len, length_firstn. cbn [length Nat.pred]. lia.
Qed.

Lemma parents_aux_ends_in_anchor (n : nat) (p : Path) :
  length p <= n -> is_anchor p = false ->
  exists l a, parents_aux n p = l ++ [a] /\ is_anchor a = true.
Proof.
  revert p. induction n as [|n IH]; intros p Hlen Hp.
  - destruct p; [done|cbn in Hlen; lia].
  - cbn [parents_aux]. rewrite Hp.
    destruct (is_anchor (parent p)) eqn:Ha.
    + exists [], (parent p). split; [|done].
      destruct n; cbn [parents_aux]; [done|]. by rewrite Ha.
    + destruct (IH (parent p)) as (l & a & -> & Hanc); [|done|].
      * unfold parent. rewrite Hp.
        destruct p as [|c p]; [done|].
        rewrite length_removelast_cons. cbn in Hlen. lia.
      * by exists (parent p :: l), a.
Qed.

Lemma parents_ends_in_anchor (p : Path) :
  is_anchor p = false ->
  exists l a, parents p = l ++ [a] /\ is_anchor a = true.
Proof. intros. by apply parents_aux_ends_in_anchor. Qed.

(** On a path with an empty name the first [with_name] raises. *)
Lemma adjacent_archive_empty_name (fs : FS) (a : Path) :
  name a = "" ->
  Scanner.adjacent_archive fs a Scanner.ARCHIVE_EXTENSIONS = Raise ValueError.
Proof.
  intros Ha. unfold Scanner.ARCHIVE_EXTENSIONS. cbn [Scanner.adjacent_archive].
  unfold with_name. by rewrite Ha.
Qed.

Lemma inside_archive_loop_never_false (fs : FS) (l : list Path) (a : Path) :
  is_anchor a = true ->
  Scanner.inside_archive_loop fs (l ++ [a]) <> Ok false.
Proof.
  intros Ha. induction l as [|q l IH]; cbn [app Scanner.inside_archive_loop].
  - cbv zeta. rewrite (name_anchor a Ha).
    change (Scanner.has_marker (Py.lower "")) with false. cbv iota.
    by rewrite adjacent_archive_empty_name by by apply name_anchor.
  - cbv zeta.
    destruct (Scanner.has_marker (Py.lower (name q))); [done|].
    destruct (Scanner.adjacent_archive fs q Scanner.ARCHIVE_EXTENSIONS)
      as [[|]|]; cbn [rbind]; [done| |done].
    by destruct (Scanner.archive_like_name (Py.lower (name q))).
Qed.

(** The classifier returns ['unarchived'] for no path that has a parent:
    the walk over [path.parents] ends at the anchor, whose name is empty,
    and [with_name] raises there. *)
Lemma detect_context_never_unarchived (fs : FS) (p : Path) :
  is_anchor p = false ->
  Scanner._detect_context fs p <> Ok "unarchived".
Proof.
  intros Hp. destruct (parents_ends_in_anchor p Hp) as (l & a & Hl & Ha).
  unfold Scanner._detect_context, Scanner._is_inside_archive. rewrite Hl.
  pose proof (inside_archive_loop_never_false fs l a Ha) as H.
  destruct (Scanner.inside_archive_loop fs (l ++ [a])) as [[|]|]; cbn; done.
Qed.

(** The root of scenario A: two ordinary files below [/r]. *)
Definition scenario_A : FS :=
  list_to_map [(Path_of_string "/r", Dir);
               (Path_of_string "/r/a.txt", File "hello");
               (Path_of_string "/r/b.txt", File "hello")].

(** C2. On the files [/r/a.txt] and [/r/b.txt], whose ancestor [/r]
    satisfies none of the three rules, the classifier does not return
    ['unarchived']: it raises [ValueError] at the root ancestor, and the
    scan of [/r] finds two files but yields no record. *)
Theorem classifier_raises_on_ordinary_files
    (sha256_hex : string -> string) (guess_type : string -> option string)
    (mtime_of : Path -> N) :
  Scanner.has_marker (Py.lower (name (Path_of_string "/r"))) = false
  /\ Scanner.adjacent_archive scenario_A (Path_of_string "/r")
       Scanner.ARCHIVE_EXTENSIONS = Ok false
  /\ Scanner.archive_like_name (Py.lower (name (Path_of_string "/r"))) = false
  /\ Scanner._detect_context scenario_A (Path_of_string "/r/a.txt")
     = Raise ValueError
  /\ Scanner._detect_context scenario_A (Path_of_string "/r/b.txt")
     = Raise ValueError
  /\ Scanner.threaded_hash sha256_hex guess_type mtime_of scenario_A ["/r"] []
     = ([], 2).
Proof. repeat split; vm_compute; reflexivity. Qed.

(** ** The duplicate query *)

Lemma elem_of_members (st : DB.Store) (k : string * string) (r : FileRecord) :
  r ∈ DB.members st k <-> r ∈ st /\ DB.group_key r = k.
Proof.
  unfold DB.members. rewrite !list_elem_of_In, filter_In.
  by rewrite bool_decide_eq_true.
Qed.

Lemma NoDup_map_eq {A B} (f : A -> B) (l : list A) (x y : A) :
  NoDup (map f l) -> x ∈ l -> y ∈ l -> f x = f y -> x = y.
Proof.
  induction l as [|a l IH]; intros Hnd Hx Hy Hf; [by apply elem_of_nil in Hx|].
  cbn in Hnd. apply NoDup_cons in Hnd as [Hna Hnd].
  apply elem_of_cons in Hx as [->|Hx]; apply elem_of_cons in Hy as [->|Hy].
  - done.
  - exfalso. apply Hna. rewrite Hf. by apply (list_elem_of_fmap_2 f).
  - exfalso. apply Hna. rewrite <- Hf. by apply (list_elem_of_fmap_2 f).
  - by apply IH.
Qed.

Lemma elem_of_duplicate_groups (st : DB.Store) (sha ctx : string)
      (paths : list string) :
  (sha, ctx, paths) ∈ DB.duplicate_groups st <->
  2 <= length (DB.members st (sha, ctx))
  /\ paths = map fr_path (DB.members st (sha, ctx)).
Proof.
  unfold DB.duplicate_groups. rewrite list_elem_of_omap. split.
  - intros ([sha' ctx'] & _ & H).
    destruct (1 <? length (DB.members st (sha', ctx'))) eqn:E; [|done].
    cbn in H. injection H as <- <- <-. apply Nat.ltb_lt in E.
    split; [lia|done].
  - intros [Hlen ->]. exists (sha, ctx). split.
    + apply elem_of_remove_dups.
      destruct (DB.members st (sha, ctx)) as [|r ms] eqn:E; [cbn in Hlen; lia|].
      assert (r ∈ DB.members st (sha, ctx)) as Hr by (rewrite E; left).
      apply elem_of_members in Hr as [Hr <-].
      by apply (list_elem_of_fmap_2 DB.group_key).
    + assert ((1 <? length (DB.members st (sha, ctx))) = true) as E
        by (apply Nat.ltb_lt; lia).
      by rewrite E.
Qed.

Lemma duplicate_groups_keys (st : DB.Store) :
  map (fun g => (g.1.1, g.1.2)) (DB.duplicate_groups st)
  = List.filter (fun k => 1 <? length (DB.members st k))
                (remove_dups (map DB.group_key st)).
Proof.
  unfold DB.duplicate_groups.
  induction (remove_dups (map DB.group_key st)) as [|[sha ctx] ks IH]; [done|].
  cbn [omap list_omap List.filter].
  destruct (1 <? length (DB.members st (sha, ctx))); [|exact IH].
  cbn [map fst snd]. f_equal. exact IH.
Qed.

(** C3. [get_duplicates] returns exactly one row for every pair
    [(sha256, context_tag)] that at least two records share, with the
    paths of these records joined by ['|'], and nothing else; records of
    the store that are listed in the same group have the same [sha256]
    and the same [context_tag]. *)
Theorem get_duplicates_spec (st : DB.Store) :
  DB.pk_unique st ->
  (forall sha ctx s,
      (sha, ctx, s) ∈ DB.get_duplicates st <->
      2 <= length (DB.members st (sha, ctx))
      /\ s = Py.join "|" (map fr_path (DB.members st (sha, ctx))))
  /\ NoDup (map (fun g => (g.1.1, g.1.2)) (DB.duplicate_groups st))
  /\ (forall sha ctx paths r1 r2,
         (sha, ctx, paths) ∈ DB.duplicate_groups st ->
         r1 ∈ st -> r2 ∈ st -> fr_path r1 ∈ paths -> fr_path r2 ∈ paths ->
         fr_sha256 r1 = sha /\ fr_sha256 r2 = sha
         /\ context_tag r1 = ctx /\ context_tag r2 = ctx).
Proof.
  intros Hpk. split; [|split].
  - intros sha ctx s. unfold DB.get_duplicates. rewrite list_elem_of_fmap. split.
    + intros ([[sha' ctx'] paths] & Heq & Hg). cbn in Heq.
      injection Heq as -> -> ->.
      apply elem_of_duplicate_groups in Hg as [Hlen ->]. done.
    + intros [Hlen ->].
      exists (sha, ctx, map fr_path (DB.members st (sha, ctx))). split; [done|].
      by apply elem_of_duplicate_groups.
  - rewrite duplicate_groups_keys. apply NoDup_ListNoDup, List.NoDup_filter.
    apply NoDup_ListNoDup, NoDup_remove_dups.
  - intros sha ctx paths r1 r2 Hg H1 H2 Hp1 Hp2.
    apply elem_of_duplicate_groups in Hg as [_ ->].
    assert (forall r, r ∈ st -> fr_path r ∈ map fr_path (DB.members st (sha, ctx)) ->
                      DB.group_key r = (sha, ctx)) as Hkey.
    { intros r Hr Hp. apply list_elem_of_fmap in Hp as (r' & Hpath & Hr').
      apply elem_of_members in Hr' as [Hr' Hk].
      by rewrite (NoDup_map_eq fr_path st r r' Hpk Hr Hr' Hpath). }
    pose proof (Hkey r1 H1 Hp1) as K1. pose proof (Hkey r2 H2 Hp2) as K2.
    unfold DB.group_key in K1, K2. by simplify_eq.
Qed.

Definition witness_record (p ctx : string) : FileRecord :=
  {| fr_path := p; fr_size := 5; fr_mtime := 0; fr_sha256 := "2cf24dba";
     fr_mime := "text/plain"; context_tag := ctx |}.

Definition witness_store : DB.Store :=
  DB.upsert_files
    [witness_record "/r/b.txt" "unarchived";
     witness_record "/r/a.txt" "unarchived";
     witness_record "/r/backup_zip/a.txt" "archived"] [].

Lemma get_duplicates_spec_witness :
  DB.pk_unique witness_store
  /\ DB.get_duplicates witness_store
     = [("2cf24dba", "unarchived", "/r/b.txt|/r/a.txt")]
  /\ NoDup (map (fun g => (g.1.1, g.1.2)) (DB.duplicate_groups witness_store)).
Proof.
  assert (DB.pk_unique witness_store) as Hpk.
  { unfold DB.pk_unique. apply (bool_decide_unpack _). vm_compute. exact I. }
  split; [exact Hpk|]. split; [vm_compute; reflexivity|].
  exact (proj1 (proj2 (get_duplicates_spec witness_store Hpk))).
Defined.

(** ** The planner *)

Lemma leb_refl (x : string) : String.leb x x = true.
Proof. apply Is_true_true. change (String.le x x). reflexivity. Qed.

Lemma leb_trans (x y z : string) :
  String.leb x y = true -> String.leb y z = true -> String.leb x z = true.
Proof.
  intros H1%Is_true_true H2%Is_true_true. apply Is_true_true.
  change (String.le x z). by transitivity y.
Qed.

Lemma leb_false_flip (x y : string) :
  String.leb x y = false -> String.leb y x = true.
Proof.
  intros H. destruct (String.leb_total x y) as [E|E]; [congruence|done].
Qed.

Lemma head_insert_sorted_le (x : string) (l : list string) (k : string) :
  (forall h, head l = Some h -> forall p, p ∈ l -> String.leb h p = true) ->
  head (Cli.insert_sorted x l) = Some k ->
  forall p, p ∈ x :: l -> String.leb k p = true.
Proof.
  intros Hl Hk p Hp. destruct l as [|y l]; cbn in Hk.
  - injection Hk as <-. apply list_elem_of_singleton in Hp as ->. apply leb_refl.
  - destruct (String.leb x y) eqn:E; cbn in Hk; injection Hk as <-.
    + apply elem_of_cons in Hp as [->|Hp]; [apply leb_refl|].
      eapply leb_trans; [exact E|]. by apply Hl.
    + apply elem_of_cons in Hp as [->|Hp]; [by apply leb_false_flip|].
      by apply Hl.
Qed.

Lemma head_sorted_le (l : list string) (k : string) :
  head (Cli.sorted l) = Some k -> forall p, p ∈ l -> String.leb k p = true.
Proof.
  revert k. induction l as [|x l IH]; intros k Hk p Hp.
  - by apply elem_of_nil in Hp.
  - cbn [Cli.sorted fold_right] in Hk. fold (Cli.sorted l) in Hk.
    assert (forall q, q ∈ Cli.sorted l <-> q ∈ l) as Hperm.
    { clear. induction l as [|y l IH]; intros q; [done|].
      cbn [Cli.sorted fold_right]. fold (Cli.sorted l).
      assert (forall z m, q ∈ Cli.insert_sorted z m <-> q = z \/ q ∈ m) as Hins.
      { clear. intros z m. induction m as [|w m IHm]; cbn.
        - rewrite list_elem_of_singleton, elem_of_nil. tauto.
        - destruct (String.leb z w); rewrite !elem_of_cons; [done|].
          rewrite IHm. tauto. }
      rewrite Hins, elem_of_cons, IH. done. }
    eapply (head_insert_sorted_le x (Cli.sorted l) k); [|exact Hk|].
    + intros h Hh q Hq. apply IH; [done|]. by apply Hperm.
    + apply elem_of_cons in Hp as [->|Hp]; [left|right]. by apply Hperm.
Qed.

Lemma plan_sources_with_ts (fs : FS) (t1 t2 sha ctx : string)
      (srcs : list string) (rbk : nat) :
  Cli.plan_sources fs t2 sha ctx srcs rbk
  = (map (Cli.with_ts t2) (Cli.plan_sources fs t1 sha ctx srcs rbk).1,
     (Cli.plan_sources fs t1 sha ctx srcs rbk).2).
Proof.
  revert rbk. induction srcs as [|src srcs IH]; intros rbk; [done|].
  cbn [Cli.plan_sources]. rewrite (IH (S rbk)).
  by destruct (Cli.plan_sources fs t1 sha ctx srcs (S rbk)).
Qed.

Lemma plan_groups_with_ts (fs : FS) (t1 t2 : string)
      (dups : list (string * string * string)) (rbk : nat) :
  Cli.plan_groups fs t2 dups rbk
  = map (Cli.with_ts t2) (Cli.plan_groups fs t1 dups rbk).
Proof.
  revert rbk. induction dups as [|[[sha ctx] csv] dups IH]; intros rbk; [done|].
  cbn [Cli.plan_groups]. rewrite (plan_sources_with_ts fs t1 t2).
  destruct (Cli.plan_sources fs t1 sha ctx _ rbk) as [rows rbk'].
  cbn [fst snd]. by rewrite map_app, IH.
Qed.

Lemma plan_sources_rows (fs : FS) (t sha ctx : string) (srcs : list string)
      (rbk : nat) :
  (Cli.plan_sources fs t sha ctx srcs rbk).2
  = rbk + length (Cli.plan_sources fs t sha ctx srcs rbk).1
  /\ forall i r, (Cli.plan_sources fs t sha ctx srcs rbk).1 !! i = Some r ->
                 ts r = t /\ rollback_key r = "rbk:" +:+ Py.pad06 (rbk + i).
Proof.
  revert rbk. induction srcs as [|src srcs IH]; intros rbk.
  - split; [cbn; lia|]. intros i r H. by destruct i.
  - cbn [Cli.plan_sources]. destruct (IH (S rbk)) as [Hn Hrows].
    destruct (Cli.plan_sources fs t sha ctx srcs (S rbk)) as [rows rbk'].
    cbn [fst snd] in *. split; [cbn; lia|].
    intros [|i] r H; cbn in H.
    + injection H as <-. cbn. by rewrite Nat.add_0_r.
    + destruct (Hrows i r H) as [? ->]. split; [done|].
      do 2 f_equal. lia.
Qed.

Lemma plan_groups_rows (fs : FS) (t : string)
      (dups : list (string * string * string)) (rbk : nat) :
  forall i r, Cli.plan_groups fs t dups rbk !! i = Some r ->
              ts r = t /\ rollback_key r = "rbk:" +:+ Py.pad06 (rbk + i).
Proof.
  revert rbk. induction dups as [|[[sha ctx] csv] dups IH]; intros rbk i r H.
  - by destruct i.
  - cbn [Cli.plan_groups] in H.
    pose proof (plan_sources_rows fs t sha ctx
                  (tail (Cli.sorted (Py.split "|" csv))) rbk) as [Hn Hrows].
    destruct (Cli.plan_sources fs t sha ctx _ rbk) as [rows rbk'].
    cbn [fst snd] in *. apply lookup_app_Some in H as [H|[Hge H]].
    + by apply Hrows.
    + destruct (IH _ _ _ H) as [? ->]. split; [done|].
      do 2 f_equal. lia.
Qed.

(** C5, as stated, fails: the same store and the same file system planned
    at two different seconds give two different CSV texts. *)
Lemma plan_csv_depends_on_clock :
  Planner.plan_csv (Cli.plan_rows witness_store scenario_A "2025-01-01T00:00:00Z")
  <> Planner.plan_csv (Cli.plan_rows witness_store scenario_A "2025-01-01T00:00:01Z").
Proof. apply String.eqb_neq. vm_compute. reflexivity. Qed.

(** C5, amended. Two runs of the planner over the same store and the same
    file system produce the same rows up to the [ts] field: the second
    plan is the first with [ts] replaced by the second run's clock
    reading.  Every row carries the run's clock reading as [ts], the
    [i]-th row carries the rollback key [rbk:] followed by [i] padded to
    six digits, and the keeper of every group is lexicographically below
    or equal to every path of the group. *)
Theorem plan_deterministic_up_to_ts (st : DB.Store) (fs : FS)
        (now1 now2 : string) :
  Cli.plan_rows st fs now2
    = map (Cli.with_ts now2) (Cli.plan_rows st fs now1)
  /\ (forall i r, Cli.plan_rows st fs now1 !! i = Some r ->
                  ts r = now1 /\ rollback_key r = "rbk:" +:+ Py.pad06 i)
  /\ (forall paths_csv k, Cli.keeper paths_csv = Some k ->
        forall p, p ∈ Py.split "|" paths_csv -> String.leb k p = true)
  /\ Planner.plan_csv (map (Cli.with_ts now1) (Cli.plan_rows st fs now2))
     = Planner.plan_csv (Cli.plan_rows st fs now1).
Proof.
  split; [apply plan_groups_with_ts|].
  split; [intros i r H;
          by apply (plan_groups_rows fs now1 (DB.get_duplicates st) 0 i r)|].
  split; [intros csv k Hk; by apply head_sorted_le|].
  f_equal. unfold Cli.plan_rows.
  rewrite (plan_groups_with_ts fs now1 now2), map_map.
  rewrite <- (map_id (Cli.plan_groups fs now1 _ 0)) at 2.
  apply map_ext_in. intros r Hr. apply list_elem_of_In in Hr.
  apply list_elem_of_lookup in Hr as [i Hi].
  destruct (plan_groups_rows fs now1 (DB.get_duplicates st) 0 i r Hi)
    as [<- _].
  by destruct r.
Qed.

(** ** The loop of the strict applier *)

Section ApplierLoop.

Variable sha256 : string -> string.
Variable clock : nat -> N.
Variable json_dumps : Manifest -> string.

(** A dry run never moves, a real run never simulates, and a recorded
    move names the row's source. *)
Lemma apply_one_outcome (dry_run : bool) (flt : fault) (now : N)
      (src dst : Path) (fs fs' : FS) (o : Applier.outcome) :
  Applier.apply_one sha256 dry_run flt now src dst fs = (Ok o, fs') ->
  match o with
  | Applier.Skipped => True
  | Applier.Simulated => dry_run = true
  | Applier.Moved e =>
      dry_run = false /\ mv_src e = str src /\ mv_timestamp e = now
  end.
Proof.
  unfold Applier.apply_one, bind, gets, update, ret, query.
  destruct (exists_ fs src); cbn [negb]; [|by intros [= <- <-]].
  destruct (mkdir_parents fs (parent dst)) as [fs1|]; [|done].
  destruct (exists_ fs1 dst); cbv beta iota;
    (destruct dry_run;
     [ destruct (stat_size fs1 src); [|done]; by intros [= <- <-]
     | match goal with
       | |- context [Applier.copy_verify_delete ?h ?f ?x ?y ?z] =>
           destruct (Applier.copy_verify_delete h f x y z) as [[n|e] fs2]
       end; [|done]; by intros [= <- <-] ]).
Qed.

Definition planned_sources (rows : list PlanRow) : list string :=
  map (fun r => str (Path_of_string (src_path r)))
      (List.filter Applier.is_planned_move rows).

Fixpoint sum_sizes (ms : list MoveEntry) : nat :=
  match ms with
  | [] => 0
  | e :: rest => mv_size e + sum_sizes rest
  end.

Lemma sum_sizes_app (l1 l2 : list MoveEntry) :
  sum_sizes (l1 ++ l2) = sum_sizes l1 + sum_sizes l2.
Proof. induction l1 as [|e l1 IH]; cbn; [done|]. rewrite IH. lia. Qed.

(** The report line changes the error counter only, and only when it
    cannot be written. *)
Lemma report_fields (flt : fault) (a : Applier.Acc) :
  Applier.acc_applied (Applier.report flt a) = Applier.acc_applied a
  /\ Applier.acc_attempted (Applier.report flt a) = Applier.acc_attempted a
  /\ Applier.acc_skipped (Applier.report flt a) = Applier.acc_skipped a
  /\ Applier.acc_bytes_moved (Applier.report flt a) = Applier.acc_bytes_moved a
  /\ Applier.acc_errors a <= Applier.acc_errors (Applier.report flt a)
  /\ (flt <> StdoutFault -> Applier.report flt a = a)
  /\ (flt = StdoutFault ->
      Applier.acc_errors (Applier.report flt a) = S (Applier.acc_errors a)).
Proof. destruct flt; cbn; repeat split; try done; lia. Qed.

(** What one iteration does to the counters.  The outcomes add up to the
    rows attempted unless the report line of the row cannot be written. *)
Lemma apply_row_step (dry_run : bool) (flt : fault) (now : N)
      (row : PlanRow) (a a' : Applier.Acc) (fs fs' : FS) :
  Applier.apply_row sha256 dry_run flt now row a fs = (a', fs') ->
  exists new,
    Applier.acc_applied a' = Applier.acc_applied a ++ new
    /\ sublist (map mv_src new) (planned_sources [row])
    /\ (dry_run = true -> new = [])
    /\ Applier.acc_attempted a'
       = Applier.acc_attempted a + length (planned_sources [row])
    /\ Applier.acc_bytes_moved a'
       = Applier.acc_bytes_moved a + sum_sizes new
    /\ Applier.acc_skipped a <= Applier.acc_skipped a'
    /\ Applier.acc_errors a <= Applier.acc_errors a'
    /\ (dry_run = false -> flt <> StdoutFault ->
        length (planned_sources [row]) + Applier.acc_skipped a
        + Applier.acc_errors a
        = length new + Applier.acc_skipped a' + Applier.acc_errors a').
Proof.
  unfold Applier.apply_row, planned_sources. cbn [List.filter].
  destruct (Applier.is_planned_move row); cbn [negb map length].
  - destruct (Applier.apply_one sha256 dry_run flt now _ _ fs)
      as [[[| |e]|ex] fs1] eqn:E; intros [= <- <-].
    + cbn. exists []. rewrite app_nil_r. repeat split; try done; try lia.
      apply sublist_nil_l.
    + apply apply_one_outcome in E.
      match goal with
      | |- context [Applier.report flt ?x] =>
          destruct (report_fields flt x) as (R1 & R2 & R3 & R4 & R5 & R6 & _)
      end.
      exists []. rewrite app_nil_r, R1, R2, R3, R4. cbn in *.
      repeat split; try done; try lia; [apply sublist_nil_l|].
      intros ->. done.
    + apply apply_one_outcome in E as (-> & Hsrc & _).
      match goal with
      | |- context [Applier.report flt ?x] =>
          destruct (report_fields flt x) as (R1 & R2 & R3 & R4 & R5 & R6 & _)
      end.
      exists [e]. rewrite R1, R2, R3, R4. cbn in *. rewrite Hsrc.
      repeat split; try done; try lia.
      intros _ Hflt. rewrite (R6 Hflt). cbn. lia.
    + cbn. exists []. rewrite app_nil_r. repeat split; try done; try lia.
      apply sublist_nil_l.
  - intros [= <- <-]. exists []. rewrite app_nil_r.
    repeat split; try done; lia.
Qed.

Lemma planned_sources_cons (row : PlanRow) (rows : list PlanRow) :
  planned_sources (row :: rows) = planned_sources [row] ++ planned_sources rows.
Proof.
  unfold planned_sources. cbn [List.filter].
  by destruct (Applier.is_planned_move row).
Qed.

(** The same for the whole loop. *)
Lemma apply_loop_inv (dry_run : bool) (faults : nat -> fault) (k : nat)
      (rows : list PlanRow) (a a' : Applier.Acc) (fs fs' : FS) :
  Applier.apply_loop sha256 clock dry_run faults k rows a fs = (a', fs') ->
  exists new,
    Applier.acc_applied a' = Applier.acc_applied a ++ new
    /\ sublist (map mv_src new) (planned_sources rows)
    /\ (dry_run = true -> new = [])
    /\ Applier.acc_attempted a'
       = Applier.acc_attempted a + length (planned_sources rows)
    /\ Applier.acc_bytes_moved a'
       = Applier.acc_bytes_moved a + sum_sizes new
    /\ Applier.acc_skipped a <= Applier.acc_skipped a'
    /\ Applier.acc_errors a <= Applier.acc_errors a'
    /\ (dry_run = false -> (forall j, faults j <> StdoutFault) ->
        length (planned_sources rows) + Applier.acc_skipped a
        + Applier.acc_errors a
        = length new + Applier.acc_skipped a' + Applier.acc_errors a').
Proof.
  revert k a fs. induction rows as [|row rows IH]; intros k a fs H.
  - cbn in H. injection H as <- <-. exists []. rewrite app_nil_r.
    repeat split; try done; cbn; lia.
  - cbn [Applier.apply_loop] in H.
    destruct (Applier.apply_row sha256 dry_run (faults k) (clock k) row a fs)
      as [a1 fs1] eqn:E1.
    apply apply_row_step in E1
      as (n1 & Ha1 & Hs1 & Hd1 & Hat1 & Hb1 & Hsk1 & Her1 & Heq1).
    apply IH in H as (n2 & Ha2 & Hs2 & Hd2 & Hat2 & Hb2 & Hsk2 & Her2 & Heq2).
    exists (n1 ++ n2). rewrite planned_sources_cons, length_app.
    split; [by rewrite Ha2, Ha1, app_assoc|].
    split; [rewrite map_app; by apply sublist_app|].
    split; [intros Hd; by rewrite Hd1, Hd2|].
    split; [lia|]. split; [rewrite sum_sizes_app; lia|].
    split; [lia|]. split; [lia|].
    intros Hd Hflt. specialize (Heq1 Hd (Hflt k)). specialize (Heq2 Hd Hflt).
    rewrite length_app. lia.
Qed.

(** When [apply_moves] returns, it returns the counters of its loop, and
    the manifest it built is the content of the checkpoint file. *)
Lemma apply_moves_Ok_inv (rows : list PlanRow) (checkpoint : Path)
      (dry_run : bool) (faults : nat -> fault) (fs fs' : FS)
      (res : Applier.ApplyResult) :
  Applier.apply_moves sha256 clock json_dumps rows checkpoint dry_run faults fs
  = (Ok res, fs') ->
  exists a fs1,
    Applier.apply_loop sha256 clock dry_run faults 0 rows Applier.acc0 fs
    = (a, fs1)
    /\ Applier.res_stats res = Applier.stats_of a
    /\ Applier.res_dry_run res = dry_run
    /\ mf_statistics (Applier.res_manifest res) = Applier.stats_of a
    /\ mf_moves (Applier.res_manifest res) = Applier.acc_applied a
    /\ mf_dry_run (Applier.res_manifest res) = dry_run
    /\ fs' !! checkpoint = Some (File (json_dumps (Applier.res_manifest res))).
Proof.
  unfold Applier.apply_moves.
  destruct (Applier.apply_loop sha256 clock dry_run faults 0 rows
                               Applier.acc0 fs) as [a fs1].
  unfold bind, update, ret.
  destruct (mkdir_parents fs1 (parent checkpoint)) as [fs2|]; [|done].
  destruct (open_wb fs2 checkpoint) as [fs3|]; [|done].
  intros [= <- <-]. exists a, fs1. cbn. repeat split; try done.
  apply lookup_insert_eq.
Qed.

End ApplierLoop.

(** Rows for the concrete runs: a planned move from [src] to [dst]. *)
Definition move_row (src dst : string) : PlanRow :=
  {| status := "planned"; op := "move"; src_path := src; dst_path := dst;
     content_id := "b3:sha256:2cf24dba:ctx:unarchived"; reason := "dedup";
     rollback_key := "rbk:000000"; ts := "2025-01-01T00:00:00Z" |}.

(** A mixed plan on scenario A: one move that works, one whose source is
    missing, one row that is not planned, one move hit by a rename fault. *)
Definition mixed_rows : list PlanRow :=
  [move_row "/r/b.txt" "/r/.deduplab_duplicates/b.txt";
   move_row "/r/missing.txt" "/r/.deduplab_duplicates/missing.txt";
   {| status := "applied"; op := "move"; src_path := "/r/a.txt";
      dst_path := "/r/x"; content_id := ""; reason := "dedup";
      rollback_key := "rbk:000002"; ts := "" |};
   move_row "/r/a.txt" "/r/.deduplab_duplicates/a.txt"].

Definition mixed_faults (k : nat) : fault :=
  match k with
  | 3 => RenameFault
  | _ => NoFault
  end.

(** C6. For every apply run that returns, dry or not, the checkpoint file
    holds the manifest, the manifest's statistics are the returned ones,
    [len(moves)] equals [succeeded], the moves are entries for planned rows
    of the plan, in plan order, [bytes_moved] is the sum of their sizes, and
    in a dry run [moves] is empty and [succeeded] is 0. *)
Theorem checkpoint_completeness
    (sha256 : string -> string) (clock : nat -> N)
    (json_dumps : Manifest -> string)
    (rows : list PlanRow) (checkpoint : Path) (dry_run : bool)
    (faults : nat -> fault) (fs fs' : FS) (res : Applier.ApplyResult) :
  Applier.apply_moves sha256 clock json_dumps rows checkpoint dry_run faults fs
  = (Ok res, fs') ->
  let m := Applier.res_manifest res in
  fs' !! checkpoint = Some (File (json_dumps m))
  /\ mf_dry_run m = dry_run
  /\ mf_statistics m = Applier.res_stats res
  /\ length (mf_moves m) = succeeded (Applier.res_stats res)
  /\ sublist (map mv_src (mf_moves m)) (planned_sources rows)
  /\ bytes_moved (Applier.res_stats res) = sum_sizes (mf_moves m)
  /\ (dry_run = true ->
      mf_moves m = [] /\ succeeded (Applier.res_stats res) = 0).
Proof.
  intros H m.
  apply apply_moves_Ok_inv in H
    as (a & fs1 & Hloop & Hst & Hdr & Hms & Hmv & Hmd & Hcp).
  apply apply_loop_inv in Hloop
    as (new & Hnew & Hsub & Hdry & Hat & Hby & _ & _ & _).
  cbn in Hnew, Hat, Hby. subst m. rewrite Hst, Hms, Hmv, Hmd.
  unfold Applier.stats_of. cbn [succeeded bytes_moved]. rewrite Hnew.
  split; [done|]. split; [done|]. split; [done|]. split; [done|].
  split; [done|]. split; [done|].
  intros ->%Hdry. done.
Qed.

Definition mixed_result : Applier.ApplyResult :=
  let st := {| attempted := 3; succeeded := 1; skipped := 1; errors := 1;
               bytes_moved := 5 |} in
  {| Applier.res_stats := st;
     Applier.res_dry_run := false;
     Applier.res_manifest :=
       {| mf_timestamp := 4; mf_dry_run := false; mf_statistics := st;
          mf_moves := [{| mv_src := "/r/b.txt";
                          mv_dst := "/r/.deduplab_duplicates/b.txt";
                          mv_size := 5; mv_timestamp := 0 |}] |} |}.

Definition mixed_run : result Applier.ApplyResult * FS :=
  Applier.apply_moves (fun s => s) N.of_nat (fun _ => "{}") mixed_rows
    (Path_of_string "/r/.deduplab/checkpoint.json") false mixed_faults
    scenario_A.

Lemma pair_of_fst {A B} (r : A * B) (a : A) : r.1 = a -> r = (a, r.2).
Proof. destruct r. cbn. by intros ->. Qed.

Lemma checkpoint_completeness_witness :
  mixed_run = (Ok mixed_result, mixed_run.2)
  /\ length (mf_moves (Applier.res_manifest mixed_result))
     = succeeded (Applier.res_stats mixed_result).
Proof.
  assert (mixed_run = (Ok mixed_result, mixed_run.2)) as E
    by (apply pair_of_fst; vm_compute; reflexivity).
  split; [exact E|].
  exact (proj1 (proj2 (proj2 (proj2
           (checkpoint_completeness _ _ _ _ _ _ _ _ _ _ E))))).
Defined.

(** With [dry_run=False], when the call returns and the report line of
    every row can be written, every planned move row is counted exactly
    once: [attempted] is the number of such rows and equals
    [succeeded + skipped + errors].  (The older applier, which prints
    nothing inside its [try], has this for every run.) *)
Lemma outcomes_add_up_when_reports_print
    (sha256 : string -> string) (clock : nat -> N)
    (json_dumps : Manifest -> string)
    (rows : list PlanRow) (checkpoint : Path)
    (faults : nat -> fault) (fs fs' : FS) (res : Applier.ApplyResult) :
  (forall j, faults j <> StdoutFault) ->
  Applier.apply_moves sha256 clock json_dumps rows checkpoint false faults fs
  = (Ok res, fs') ->
  let s := Applier.res_stats res in
  attempted s = length (List.filter Applier.is_planned_move rows)
  /\ attempted s = succeeded s + skipped s + errors s.
Proof.
  intros Hflt H s.
  apply apply_moves_Ok_inv in H as (a & fs1 & Hloop & Hst & _).
  apply apply_loop_inv in Hloop
    as (new & Hnew & _ & _ & Hat & _ & _ & _ & Heq).
  specialize (Heq eq_refl Hflt). cbn in Hnew, Hat, Heq.
  subst s. rewrite Hst. cbn. rewrite Hnew, Hat.
  unfold planned_sources in *. rewrite length_map in *. split; lia.
Qed.

(** ** File-system facts *)

Lemma node_at_insert_eq (fs : FS) (p : Path) (n : node) :
  is_anchor p = false -> node_at (<[p := n]> fs) p = Some n.
Proof. unfold node_at. intros ->. apply lookup_insert_eq. Qed.

Lemma node_at_insert_ne (fs : FS) (p q : Path) (n : node) :
  p <> q -> node_at (<[p := n]> fs) q = node_at fs q.
Proof. unfold node_at. intros H. by rewrite lookup_insert_ne. Qed.

Lemma node_at_delete_eq (fs : FS) (p : Path) :
  is_anchor p = false -> node_at (delete p fs) p = None.
Proof. unfold node_at. intros ->. apply lookup_delete_eq. Qed.

Lemma node_at_delete_ne (fs : FS) (p q : Path) :
  p <> q -> node_at (delete p fs) q = node_at fs q.
Proof. unfold node_at. intros H. by rewrite lookup_delete_ne. Qed.

Lemma node_at_file_not_anchor (fs : FS) (p : Path) (c : string) :
  node_at fs p = Some (File c) -> is_anchor p = false.
Proof. unfold node_at. by destruct (is_anchor p). Qed.

Lemma node_at_None_not_anchor (fs : FS) (p : Path) :
  node_at fs p = None -> is_anchor p = false.
Proof. unfold node_at. by destruct (is_anchor p). Qed.

Lemma is_dir_node (fs : FS) (p : Path) :
  is_dir fs p = true <-> node_at fs p = Some Dir.
Proof.
  unfold is_dir. destruct (node_at fs p) as [[|]|]; split; done.
Qed.

(** [mkdir] only adds directories where nothing was. *)
Lemma mkdir_go_preserves (n : nat) (fs fs1 : FS) (p : Path) :
  mkdir_go n fs p = Ok fs1 ->
  forall q x, node_at fs q = Some x -> node_at fs1 q = Some x.
Proof.
  revert fs1 p. induction n as [|n IH]; intros fs1 p H q x Hq; cbn in H.
  - destruct (node_at fs p) as [[|]|]; by simplify_eq.
  - destruct (node_at fs p) as [[|]|] eqn:Ep; simplify_eq; [done|].
    destruct (mkdir_go n fs (parent p)) as [fs'|] eqn:E; [|done].
    cbn in H. injection H as <-.
    rewrite node_at_insert_ne; [by eapply IH|]. intros ->. congruence.
Qed.

Lemma mkdir_parents_preserves (fs fs1 : FS) (p : Path) :
  mkdir_parents fs p = Ok fs1 ->
  forall q x, node_at fs q = Some x -> node_at fs1 q = Some x.
Proof. apply mkdir_go_preserves. Qed.

Lemma mkdir_parents_existing_dir (fs : FS) (p : Path) :
  is_dir fs p = true -> mkdir_parents fs p = Ok fs.
Proof.
  unfold is_dir, mkdir_parents. intros H.
  destruct (length p); cbn; by destruct (node_at fs p) as [[|]|].
Qed.

Lemma open_wb_Ok (fs fs' : FS) (p : Path) :
  open_wb fs p = Ok fs' ->
  fs' = <[p := File ""]> fs /\ is_anchor p = false.
Proof.
  unfold open_wb. intros H.
  assert (is_anchor p = false) as Hp.
  { unfold node_at in H. by destruct (is_anchor p). }
  split; [|done].
  destruct (node_at fs p) as [[|]|];
    destruct (node_at fs (parent p)) as [[|]|]; by simplify_eq.
Qed.

(** ** The three-phase commit *)

Section ThreePhase.

Variable sha256 : string -> string.

(** The bytes that reach the temporary file. *)
Definition written (flt : fault) (c : string) : string :=
  match flt with
  | CorruptFault w => w
  | _ => c
  end.

(** What follows the copy in [three_phase]. *)
Definition after_copy (flt : fault) (src dst dst_tmp : Path) (size : nat)
  : M nat :=
  (try_except (Applier.fsync_tmp flt dst_tmp)
              (fun _ => Applier.cleanup_tmp dst_tmp ;;;
                        raise (RuntimeError "Fsync failed")) ;;;
   src_hash <- Applier._sha256_file sha256 src ;;
   dst_hash <- Applier._sha256_file sha256 dst_tmp ;;
   (if negb (String.eqb src_hash dst_hash) then
      Applier.cleanup_tmp dst_tmp ;;;
      raise (RuntimeError "Hash mismatch after copy")
    else ret tt) ;;;
   try_except (Applier.rename_tmp flt dst_tmp dst)
              (fun _ => Applier.cleanup_tmp dst_tmp ;;;
                        raise (RuntimeError "Atomic rename failed")) ;;;
   try_except (Applier.unlink_src flt src) (fun _ => ret tt) ;;;
   ret size)%fsm.

Lemma three_phase_unfold (flt : fault) (src dst dst_tmp : Path) :
  Applier.three_phase sha256 flt src dst dst_tmp
  = (update (fun fs => mkdir_parents fs (parent dst)) ;;;
     size <- query (fun fs => stat_size fs src) ;;
     try_except (Applier.copy_to_tmp flt src dst_tmp)
                (fun _ => raise (RuntimeError "Copy failed")) ;;;
     after_copy flt src dst dst_tmp size)%fsm.
Proof. reflexivity. Qed.

Lemma sha256_file_of_file (p : Path) (fs : FS) (c : string) :
  node_at fs p = Some (File c) ->
  Applier._sha256_file sha256 p fs = (Ok (sha256 c), fs).
Proof.
  intros H. unfold Applier._sha256_file, bind, query, ret, read_file.
  by rewrite H.
Qed.

Lemma cleanup_tmp_of_file (p : Path) (fs : FS) (w : string) :
  node_at fs p = Some (File w) ->
  Applier.cleanup_tmp p fs = (Ok tt, delete p fs).
Proof.
  intros H. unfold Applier.cleanup_tmp, update, unlink_missing_ok.
  by rewrite H.
Qed.

Lemma fsync_step (flt : fault) (p : Path) (msg : string) (fs fs1 : FS)
      (w : string) (r : result unit) :
  node_at fs p = Some (File w) ->
  try_except (Applier.fsync_tmp flt p)
             (fun _ => Applier.cleanup_tmp p ;;; raise (RuntimeError msg))%fsm
             fs = (r, fs1) ->
  (r = Ok tt /\ fs1 = fs) \/ (exists e, r = Raise e /\ fs1 = delete p fs).
Proof.
  intros H. unfold try_except, Applier.fsync_tmp, bind, query, read_file.
  rewrite H. destruct flt; unfold ret, raise;
    rewrite ?(cleanup_tmp_of_file p fs w H); intros [= <- <-]; eauto.
Qed.

Lemma verify_step (h1 h2 : string) (p : Path) (msg : string) (fs fs1 : FS)
      (w : string) (r : result unit) :
  node_at fs p = Some (File w) ->
  (if negb (String.eqb h1 h2)
   then (Applier.cleanup_tmp p ;;; raise (RuntimeError msg))%fsm
   else ret tt) fs = (r, fs1) ->
  (r = Ok tt /\ fs1 = fs /\ h1 = h2)
  \/ (exists e, r = Raise e /\ fs1 = delete p fs).
Proof.
  intros H. destruct (String.eqb h1 h2) eqn:E; cbn [negb].
  - apply String.eqb_eq in E. intros [= <- <-]. eauto.
  - unfold bind, raise. rewrite (cleanup_tmp_of_file p fs w H).
    intros [= <- <-]. eauto.
Qed.

Lemma rename_step (flt : fault) (p dst : Path) (msg : string)
      (fs fs1 : FS) (w : string) (r : result unit) :
  node_at fs p = Some (File w) ->
  try_except (Applier.rename_tmp flt p dst)
             (fun _ => Applier.cleanup_tmp p ;;; raise (RuntimeError msg))%fsm
             fs = (r, fs1) ->
  (r = Ok tt /\ fs1 = <[dst := File w]> (delete p fs)
   /\ is_anchor dst = false)
  \/ (exists e, r = Raise e /\ fs1 = delete p fs).
Proof.
  intros H.
  pose proof (node_at_file_not_anchor _ _ _ H) as Hp.
  assert (forall r' fs',
             match rename fs p dst with
             | Ok fs2 => (Ok tt, fs2)
             | Raise e => (Raise (RuntimeError msg), delete p fs)
             end = (r', fs') ->
             (r' = Ok tt /\ fs' = <[dst := File w]> (delete p fs)
              /\ is_anchor dst = false)
             \/ (exists e, r' = Raise e /\ fs' = delete p fs)) as Hren.
  { intros r' fs'. unfold rename. rewrite Hp, H.
    destruct (node_at fs dst) as [[|]|] eqn:Ed;
      destruct (node_at fs (parent dst)) as [[|]|];
      intros [= <- <-]; eauto.
    - left. split; [done|]. split; [done|].
      by eapply node_at_file_not_anchor.
    - left. split; [done|]. split; [done|].
      by eapply node_at_None_not_anchor. }
  unfold try_except, Applier.rename_tmp, bind, update, raise.
  destruct flt; rewrite ?(cleanup_tmp_of_file p fs w H);
    try (intros [= <- <-]; by eauto);
    intros E; apply Hren; rewrite <- E;
    destruct (rename fs p dst); try done;
    by rewrite ?(cleanup_tmp_of_file p fs w H).
Qed.

Lemma unlink_step (flt : fault) (src : Path) (fs : FS) (c : string) :
  node_at fs src = Some (File c) ->
  try_except (Applier.unlink_src flt src) (fun _ => ret tt) fs
  = (Ok tt, match flt with UnlinkFault => fs | _ => delete src fs end).
Proof.
  intros H. unfold try_except, Applier.unlink_src, update, unlink, ret, raise.
  by destruct flt; rewrite ?H.
Qed.

Lemma after_copy_safe (flt : fault) (src dst dst_tmp : Path) (size : nat)
      (fs : FS) (c w : string) :
  node_at fs src = Some (File c) ->
  node_at fs dst_tmp = Some (File w) ->
  src <> dst_tmp -> src <> dst ->
  match after_copy flt src dst dst_tmp size fs with
  | (Ok n, fs') =>
      n = size
      /\ node_at fs' dst = Some (File w)
      /\ sha256 w = sha256 c
      /\ match flt with
         | UnlinkFault => node_at fs' src = Some (File c)
         | _ => node_at fs' src = None
         end
  | (Raise _, fs') =>
      node_at fs' src = Some (File c) /\ node_at fs' dst_tmp = None
  end.
Proof.
  intros Hs Ht Hst Hsd.
  pose proof (node_at_file_not_anchor _ _ _ Hs) as Hsa.
  pose proof (node_at_file_not_anchor _ _ _ Ht) as Hta.
  assert (node_at (delete dst_tmp fs) src = Some (File c)
          /\ node_at (delete dst_tmp fs) dst_tmp = None) as Hfail.
  { by rewrite node_at_delete_ne, node_at_delete_eq. }
  unfold after_copy. unfold bind at 1.
  destruct (try_except (Applier.fsync_tmp flt dst_tmp) _ fs)
    as [r1 fs1] eqn:E1.
  apply (fsync_step _ _ _ _ _ w) in E1 as [[-> ->]|(e & -> & ->)];
    [|done..].
  unfold bind at 1. rewrite (sha256_file_of_file src fs c Hs).
  unfold bind at 1. rewrite (sha256_file_of_file dst_tmp fs w Ht).
  unfold bind at 1.
  match goal with
  | |- context [(if ?b then ?x else ?y) fs] =>
      destruct ((if b then x else y) fs) as [r2 fs2] eqn:E2
  end.
  apply (verify_step _ _ _ _ _ _ w) in E2
    as [(-> & -> & Hh)|(e & -> & ->)]; [|done..].
  unfold bind at 1.
  destruct (try_except (Applier.rename_tmp flt dst_tmp dst) _ fs)
    as [r3 fs3] eqn:E3.
  apply (rename_step _ _ _ _ _ _ w) in E3
    as [(-> & -> & Hda)|(e & -> & ->)]; [|done..].
  set (fs4 := <[dst := File w]> (delete dst_tmp fs)).
  assert (node_at fs4 src = Some (File c)) as H4s.
  { unfold fs4. by rewrite node_at_insert_ne, node_at_delete_ne. }
  assert (node_at fs4 dst = Some (File w)) as H4d.
  { unfold fs4. by rewrite node_at_insert_eq. }
  unfold bind at 1. rewrite (unlink_step flt src fs4 c H4s).
  unfold ret. split; [done|].
  destruct flt; (split; [|split; [done|]]);
    rewrite ?node_at_delete_ne, ?node_at_delete_eq by done; done.
Qed.

(** The invariant of the three-phase commit, for a source that is a
    regular file and differs from the destination and from the temporary
    path: when the call returns, the destination holds the bytes written,
    their SHA-256 is the source's, and the source is gone (or still there
    when only its removal failed); when the call raises, the source is
    untouched (and, below, the temporary file is gone). *)
Lemma three_phase_safe (flt : fault) (src dst dst_tmp : Path) (fs : FS)
      (c : string) :
  node_at fs src = Some (File c) -> src <> dst_tmp -> src <> dst ->
  match Applier.three_phase sha256 flt src dst dst_tmp fs with
  | (Ok n, fs') =>
      n = String.length c
      /\ node_at fs' dst = Some (File (written flt c))
      /\ sha256 (written flt c) = sha256 c
      /\ match flt with
         | UnlinkFault => node_at fs' src = Some (File c)
         | _ => node_at fs' src = None
         end
  | (Raise _, fs') => node_at fs' src = Some (File c)
  end.
Proof.
  intros Hsrc Hst Hsd.
  rewrite three_phase_unfold. unfold bind at 1, update.
  destruct (mkdir_parents fs (parent dst)) as [fs1|] eqn:Emk; [|done].
  pose proof (mkdir_parents_preserves _ _ _ Emk _ _ Hsrc) as H1.
  unfold bind at 1, query, stat_size. rewrite H1.
  unfold bind at 1.
  unfold try_except, Applier.copy_to_tmp, bind, query, update, raise.
  unfold read_file at 1. rewrite H1.
  destruct (open_wb fs1 dst_tmp) as [fs2|] eqn:Eow; [|done].
  apply open_wb_Ok in Eow as [-> Hta].
  unfold read_file. rewrite node_at_insert_ne, H1 by done.
  assert (forall x, node_at (<[dst_tmp := File x]>
                               (<[dst_tmp := File ""]> fs1)) src
                    = Some (File c)) as H3s.
  { intros x. by rewrite !node_at_insert_ne. }
  assert (forall x, node_at (<[dst_tmp := File x]>
                               (<[dst_tmp := File ""]> fs1)) dst_tmp
                    = Some (File x)) as H3t.
  { intros x. by rewrite node_at_insert_eq. }
  destruct flt as [|x| |x| | |]; cbv beta iota; try apply H3s.
  - pose proof (after_copy_safe NoFault src dst dst_tmp (String.length c)
                  _ c c (H3s c) (H3t c) Hst Hsd) as H.
    by destruct (after_copy NoFault _ _ _ _ _) as [[n|e] fs'];
      [|destruct H].
  - pose proof (after_copy_safe FsyncFault src dst dst_tmp (String.length c)
                  _ c c (H3s c) (H3t c) Hst Hsd) as H.
    by destruct (after_copy FsyncFault _ _ _ _ _) as [[n|e] fs'];
      [|destruct H].
  - pose proof (after_copy_safe (CorruptFault x) src dst dst_tmp
                  (String.length c) _ c x (H3s x) (H3t x) Hst Hsd) as H.
    by destruct (after_copy (CorruptFault x) _ _ _ _ _) as [[n|e] fs'];
      [|destruct H].
  - pose proof (after_copy_safe RenameFault src dst dst_tmp (String.length c)
                  _ c c (H3s c) (H3t c) Hst Hsd) as H.
    by destruct (after_copy RenameFault _ _ _ _ _) as [[n|e] fs'];
      [|destruct H].
  - pose proof (after_copy_safe UnlinkFault src dst dst_tmp (String.length c)
                  _ c c (H3s c) (H3t c) Hst Hsd) as H.
    by destruct (after_copy UnlinkFault _ _ _ _ _) as [[n|e] fs'];
      [|destruct H].
  - pose proof (after_copy_safe StdoutFault src dst dst_tmp (String.length c)
                  _ c c (H3s c) (H3t c) Hst Hsd) as H.
    by destruct (after_copy StdoutFault _ _ _ _ _) as [[n|e] fs'];
      [|destruct H].
Qed.

(** The same for [copy_verify_delete], with its final clean-up: after an
    exception no regular file is left at the temporary path. *)
Lemma copy_verify_delete_safe (flt : fault) (src dst dst_tmp : Path)
      (fs : FS) (c : string) :
  node_at fs src = Some (File c) ->
  with_suffix dst (suffix dst +:+ ".tmp") = Ok dst_tmp ->
  src <> dst_tmp -> src <> dst ->
  match Applier.copy_verify_delete sha256 flt src dst fs with
  | (Ok n, fs') =>
      n = String.length c
      /\ node_at fs' dst = Some (File (written flt c))
      /\ sha256 (written flt c) = sha256 c
      /\ match flt with
         | UnlinkFault => node_at fs' src = Some (File c)
         | _ => node_at fs' src = None
         end
  | (Raise _, fs') =>
      node_at fs' src = Some (File c) /\ is_file fs' dst_tmp = false
  end.
Proof.
  intros Hsrc Hws Hst Hsd. unfold Applier.copy_verify_delete. rewrite Hws.
  unfold try_except.
  pose proof (three_phase_safe flt src dst dst_tmp fs c Hsrc Hst Hsd) as H.
  destruct (Applier.three_phase sha256 flt src dst dst_tmp fs)
    as [[n|e] fs1]; [done|].
  unfold bind, gets, exists_, update, unlink, ret, raise, is_file.
  cbv beta iota zeta.
  destruct (node_at fs1 dst_tmp) as [[x|]|] eqn:Et; cbv beta iota zeta;
    rewrite ?Et; cbv beta iota zeta.
  - rewrite node_at_delete_ne by done.
    by rewrite node_at_delete_eq by by eapply node_at_file_not_anchor.
  - done.
  - done.
Qed.

(** When the temporary path cannot be formed, nothing is touched. *)
Lemma copy_verify_delete_no_tmp (flt : fault) (src dst : Path) (fs : FS)
      (e : exn) :
  with_suffix dst (suffix dst +:+ ".tmp") = Raise e ->
  Applier.copy_verify_delete sha256 flt src dst fs = (Raise e, fs).
Proof. intros H. unfold Applier.copy_verify_delete. by rewrite H. Qed.

End ThreePhase.

(** ** The commit, computed forwards *)

Lemma with_suffix_Ok (p q : Path) (s : string) :
  with_suffix p s = Ok q ->
  q = removelast p ++ [stem p +:+ s] /\ is_anchor p = false.
Proof.
  unfold with_suffix, name.
  destruct (is_anchor p); cbn; [done|].
  repeat case_match; by intros [= <-].
Qed.

Lemma path_parent_name (p : Path) :
  is_anchor p = false -> p = parent p ++ [name p].
Proof.
  intros H. unfold parent, name. rewrite H.
  apply app_removelast_last. by destruct p.
Qed.

Lemma name_snoc (l : Path) (x : string) :
  x <> "/" -> name (l ++ [x]) = x.
Proof.
  intros H. unfold name. rewrite is_anchor_snoc by done. apply last_last.
Qed.

Lemma parent_snoc (l : Path) (x : string) :
  x <> "/" -> parent (l ++ [x]) = l.
Proof.
  intros H. unfold parent. rewrite is_anchor_snoc by done.
  apply removelast_last.
Qed.

Lemma str_app_assoc (s t u : string) : (s +:+ t) +:+ u = s +:+ (t +:+ u).
Proof. induction s as [|a s IH]; [done|]. by rewrite !app_cons, IH. Qed.

(** The temporary path is a sibling of the destination with a longer name. *)
Lemma tmp_is_sibling (dst dst_tmp : Path) :
  with_suffix dst (suffix dst +:+ ".tmp") = Ok dst_tmp ->
  dst_tmp = parent dst ++ [name dst +:+ ".tmp"]
  /\ is_anchor dst = false /\ parent dst_tmp = parent dst /\ dst_tmp <> dst.
Proof.
  intros H. apply with_suffix_Ok in H as [-> Ha].
  assert (stem dst +:+ suffix dst +:+ ".tmp" = name dst +:+ ".tmp") as ->.
  { rewrite <- str_app_assoc. unfold stem, suffix.
    by rewrite stem_suffix_name. }
  assert (name dst +:+ ".tmp" <> "/") as Hne.
  { intros E. apply (f_equal String.length) in E.
    rewrite str_length_app in E. cbn in E. lia. }
  assert (removelast dst = parent dst) as -> by (unfold parent; by rewrite Ha).
  split; [done|]. split; [done|]. split; [by apply parent_snoc|].
  intros E. rewrite (path_parent_name dst Ha) in E at 3.
  apply app_inv_head in E. injection E as E.
  apply (f_equal String.length) in E. rewrite str_length_app in E.
  cbn in E. lia.
Qed.

Lemma mkdir_parents_is_dir (fs fs1 : FS) (p : Path) :
  mkdir_parents fs p = Ok fs1 -> is_dir fs1 p = true.
Proof.
  unfold mkdir_parents, is_dir. destruct (length p) as [|n]; cbn.
  - destruct (node_at fs p) as [[|]|] eqn:E; intros [= <-]. by rewrite E.
  - destruct (node_at fs p) as [[|]|] eqn:E.
    + done.
    + intros [= <-]. by rewrite E.
    + destruct (mkdir_go n fs (parent p)); [|done]. cbn. intros [= <-].
      by rewrite node_at_insert_eq by by eapply node_at_None_not_anchor.
Qed.

Lemma exists_false_None (fs : FS) (p : Path) :
  exists_ fs p = false -> node_at fs p = None.
Proof. unfold exists_. by destruct (node_at fs p). Qed.

Lemma node_at_None_lookup (fs : FS) (p : Path) :
  node_at fs p = None -> fs !! p = None.
Proof. unfold node_at. by destruct (is_anchor p). Qed.

Section Forwards.

Variable sha256 : string -> string.

(** A move without faults of a regular file to a free destination, no
    stale temporary file in the way, and the source not the temporary
    path: the call returns the size, the destination holds the source's
    bytes, the source is gone, the temporary file is gone, and nothing
    else has changed but the directories [mkdir] made. *)
Lemma copy_verify_delete_moves (src dst dst_tmp : Path) (fs fs1 : FS)
      (c : string) :
  node_at fs src = Some (File c) ->
  with_suffix dst (suffix dst +:+ ".tmp") = Ok dst_tmp ->
  mkdir_parents fs (parent dst) = Ok fs1 ->
  exists_ fs1 dst = false ->
  exists_ fs1 dst_tmp = false ->
  src <> dst_tmp ->
  Applier.copy_verify_delete sha256 NoFault src dst fs
  = (Ok (String.length c), delete src (<[dst := File c]> fs1)).
Proof.
  intros Hsrc Hws Hmk Hd Ht Hst.
  pose proof (tmp_is_sibling _ _ Hws) as (_ & Hda & Hpar & Htd).
  pose proof (mkdir_parents_preserves _ _ _ Hmk _ _ Hsrc) as H1.
  pose proof (mkdir_parents_is_dir _ _ _ Hmk) as Hdir.
  apply exists_false_None in Hd, Ht.
  pose proof (node_at_None_not_anchor _ _ Ht) as Hta.
  assert (src <> dst) as Hsd by (intros ->; congruence).
  assert (node_at fs1 (parent dst) = Some Dir) as Hp.
  { unfold is_dir in Hdir. by destruct (node_at fs1 (parent dst)) as [[|]|]. }
  assert (parent dst <> dst_tmp) as Hpt by (intros E; congruence).
  unfold Applier.copy_verify_delete. rewrite Hws.
  unfold try_except at 1. rewrite three_phase_unfold.
  unfold bind at 1, update. rewrite Hmk.
  unfold bind at 1, query, stat_size. rewrite H1.
  unfold bind at 1.
  unfold try_except at 1, Applier.copy_to_tmp, bind at 1, query.
  unfold read_file at 1. rewrite H1.
  unfold bind at 1, update, open_wb. rewrite Ht, Hpar, Hp.
  unfold bind at 1, query, read_file at 1.
  rewrite node_at_insert_ne, H1 by done.
  set (fs3 := <[dst_tmp := File c]> (<[dst_tmp := File ""]> fs1)).
  assert (node_at fs3 src = Some (File c)) as H3s
    by (unfold fs3; by rewrite !node_at_insert_ne).
  assert (node_at fs3 dst_tmp = Some (File c)) as H3t
    by (unfold fs3; by rewrite node_at_insert_eq).
  unfold after_copy. unfold bind at 1.
  unfold try_except at 1, Applier.fsync_tmp, bind at 1, query, read_file at 1.
  rewrite H3t. unfold ret at 1.
  unfold bind at 1. rewrite (sha256_file_of_file sha256 src fs3 c H3s).
  unfold bind at 1. rewrite (sha256_file_of_file sha256 dst_tmp fs3 c H3t).
  rewrite String.eqb_refl. cbn [negb]. unfold bind at 1, ret at 1.
  unfold bind at 1.
  unfold try_except at 1, Applier.rename_tmp, update, rename.
  rewrite Hta, H3t.
  assert (node_at fs3 dst = None) as ->
    by (unfold fs3; by rewrite !node_at_insert_ne).
  assert (node_at fs3 (parent dst) = Some Dir) as ->
    by (unfold fs3; by rewrite !node_at_insert_ne).
  set (fs4 := <[dst := File c]> (delete dst_tmp fs3)).
  assert (node_at fs4 src = Some (File c)) as H4s.
  { unfold fs4. by rewrite node_at_insert_ne, node_at_delete_ne. }
  unfold bind at 1. rewrite (unlink_step NoFault src fs4 c H4s).
  unfold ret. do 3 f_equal. unfold fs3.
  rewrite insert_insert_eq, delete_insert_eq. apply delete_id.
  by apply node_at_None_lookup.
Qed.

(** The source is the temporary path of the destination.  Opening the
    temporary file truncates the source, the two hashes are those of the
    empty file and agree, and the call returns the old size as moved:
    the destination is an empty file and the source is gone.  When the
    rename fails instead, the clean-up of the temporary file removes the
    source. *)
Lemma copy_verify_delete_alias (src dst : Path) (fs fs1 : FS) (c : string) :
  node_at fs src = Some (File c) ->
  with_suffix dst (suffix dst +:+ ".tmp") = Ok src ->
  mkdir_parents fs (parent dst) = Ok fs1 ->
  exists_ fs1 dst = false ->
  Applier.copy_verify_delete sha256 NoFault src dst fs
  = (Ok (String.length c), <[dst := File ""]> (delete src fs1))
  /\ Applier.copy_verify_delete sha256 RenameFault src dst fs
     = (Raise (RuntimeError "Atomic rename failed"), delete src fs1).
Proof.
  intros Hsrc Hws Hmk Hd.
  pose proof (tmp_is_sibling _ _ Hws) as (_ & Hda & Hpar & Htd).
  pose proof (mkdir_parents_preserves _ _ _ Hmk _ _ Hsrc) as H1.
  pose proof (mkdir_parents_is_dir _ _ _ Hmk) as Hdir.
  pose proof (node_at_file_not_anchor _ _ _ Hsrc) as Hsa.
  apply exists_false_None in Hd.
  assert (node_at fs1 (parent dst) = Some Dir) as Hp.
  { unfold is_dir in Hdir. by destruct (node_at fs1 (parent dst)) as [[|]|]. }
  assert (parent dst <> src) as Hps by (intros E; congruence).
  set (fs3 := <[src := File ""]> (<[src := File ""]> fs1)).
  assert (node_at fs3 src = Some (File "")) as H3s
    by (unfold fs3; by rewrite node_at_insert_eq).
  assert (forall flt,
             (flt = NoFault \/ flt = RenameFault) ->
             Applier.three_phase sha256 flt src dst src fs
             = (try_except (Applier.rename_tmp flt src dst)
                  (fun _ => Applier.cleanup_tmp src ;;;
                            raise (RuntimeError "Atomic rename failed")) ;;;
                try_except (Applier.unlink_src flt src) (fun _ => ret tt) ;;;
                ret (String.length c))%fsm fs3) as Hprefix.
  { intros flt [-> | ->]; rewrite three_phase_unfold;
      unfold bind at 1, update; rewrite Hmk;
      unfold bind at 1, query, stat_size; rewrite H1;
      unfold bind at 1;
      unfold try_except at 1, Applier.copy_to_tmp, bind at 1, query;
      unfold read_file at 1; rewrite H1;
      unfold bind at 1, update, open_wb; rewrite H1, Hpar, Hp;
      unfold bind at 1, query, read_file at 1;
      rewrite node_at_insert_eq by done;
      fold fs3; unfold after_copy; unfold bind at 1;
      unfold try_except at 1, Applier.fsync_tmp, bind at 1, query,
        read_file at 1;
      rewrite H3s; unfold ret at 1;
      unfold bind at 1; rewrite (sha256_file_of_file sha256 src fs3 "" H3s);
      unfold bind at 1; rewrite (sha256_file_of_file sha256 src fs3 "" H3s);
      rewrite String.eqb_refl; cbn [negb]; unfold bind at 1, ret at 1;
      reflexivity. }
  assert (delete src fs3 = delete src fs1) as Hdel.
  { unfold fs3. by rewrite insert_insert_eq, delete_insert_eq. }
  split.
  - unfold Applier.copy_verify_delete. rewrite Hws.
    unfold try_except at 1. rewrite (Hprefix NoFault) by by left.
    unfold bind at 1.
    unfold try_except at 1, Applier.rename_tmp, update, rename.
    rewrite Hsa, H3s.
    assert (node_at fs3 dst = None) as ->
      by (unfold fs3; by rewrite !node_at_insert_ne).
    assert (node_at fs3 (parent dst) = Some Dir) as ->
      by (unfold fs3; by rewrite !node_at_insert_ne by done).
    unfold bind at 1.
    unfold try_except at 1, Applier.unlink_src, update, unlink.
    rewrite node_at_insert_ne, node_at_delete_eq by done.
    unfold ret. by rewrite Hdel.
  - unfold Applier.copy_verify_delete. rewrite Hws.
    unfold try_except at 1. rewrite (Hprefix RenameFault) by by right.
    unfold bind at 1.
    unfold try_except at 1, Applier.rename_tmp, raise at 1.
    unfold bind at 1. rewrite (cleanup_tmp_of_file src fs3 "" H3s).
    unfold raise at 1.
    unfold bind, gets, exists_, ret, raise.
    rewrite node_at_delete_eq by done. by rewrite Hdel.
Qed.

End Forwards.

(** ** One row of the strict applier, computed forwards *)

Lemma candidate_parent_name (src : Path) (j : nat) :
  parent (Planner.candidate src j) = parent src
  /\ name (Planner.candidate src j)
     = stem src +:+ " (" +:+ pretty j +:+ ")" +:+ suffix src.
Proof.
  rewrite candidate_snoc.
  assert (stem src +:+ " (" +:+ pretty j +:+ ")" +:+ suffix src <> "/") as H.
  { intros E. apply (f_equal String.length) in E.
    rewrite candidate_name_length in E. cbn in E. lia. }
  split; [by apply parent_snoc|by apply name_snoc].
Qed.

Lemma name_length (src : Path) :
  String.length (name src)
  = String.length (stem src) + String.length (suffix src).
Proof.
  rewrite <- (stem_suffix_name (name src)) at 1. apply str_length_app.
Qed.

Lemma candidate_ne_self (src : Path) (j : nat) :
  is_anchor src = false -> Planner.candidate src j <> src.
Proof.
  intros Hsrc Heq. apply (f_equal name) in Heq.
  rewrite (proj2 (candidate_parent_name src j)) in Heq.
  apply (f_equal String.length) in Heq.
  rewrite candidate_name_length, name_length in Heq. lia.
Qed.

(** The temporary path of a uniquified sibling of [src] is never [src]. *)
Lemma tmp_of_candidate_ne (src dst_tmp : Path) (j : nat) :
  with_suffix (Planner.candidate src j)
              (suffix (Planner.candidate src j) +:+ ".tmp") = Ok dst_tmp ->
  src <> dst_tmp.
Proof.
  intros Hws Heq. apply tmp_is_sibling in Hws as (Ht & _ & _ & _).
  destruct (candidate_parent_name src j) as [Hp Hn].
  rewrite Hp, Hn in Ht. subst dst_tmp.
  set (nm := (stem src +:+ " (" +:+ pretty j +:+ ")" +:+ suffix src)
             +:+ ".tmp") in *.
  assert (String.length nm
          = String.length (stem src) + String.length (suffix src)
            + String.length (pretty j) + 7) as Hlen.
  { unfold nm. rewrite str_length_app, candidate_name_length. cbn. lia. }
  assert (nm <> "/") as Hnm.
  { intros E. rewrite E in Hlen. cbn in Hlen. lia. }
  apply (f_equal name) in Heq. rewrite name_snoc in Heq by done.
  apply (f_equal String.length) in Heq. rewrite name_length in Heq. lia.
Qed.

Section RowForwards.

Variable sha256 : string -> string.

(** The destination that [apply_moves] ends up using. *)
Definition final_dst (fs1 : FS) (dst : Path) : Path :=
  if exists_ fs1 dst then Planner.ensure_unique fs1 dst else dst.

Lemma final_dst_free (fs1 : FS) (dst : Path) :
  exists_ fs1 (final_dst fs1 dst) = false.
Proof.
  unfold final_dst. destruct (exists_ fs1 dst) eqn:E; [|done].
  apply ensure_unique_not_exists.
Qed.

Lemma final_dst_parent (fs1 : FS) (dst : Path) :
  parent (final_dst fs1 dst) = parent dst.
Proof.
  unfold final_dst. destruct (exists_ fs1 dst) eqn:E; [|done].
  destruct (ensure_unique_present fs1 dst E) as (j & _ & -> & _).
  apply candidate_parent_name.
Qed.

Lemma apply_one_unfold (flt : fault) (now : N) (src dst : Path)
      (fs fs1 : FS) :
  exists_ fs src = true ->
  mkdir_parents fs (parent dst) = Ok fs1 ->
  Applier.apply_one sha256 false flt now src dst fs
  = match Applier.copy_verify_delete sha256 flt src (final_dst fs1 dst) fs1
    with
    | (Ok size, fs') =>
        (Ok (Applier.Moved {| mv_src := str src;
                              mv_dst := str (final_dst fs1 dst);
                              mv_size := size; mv_timestamp := now |}), fs')
    | (Raise e, fs') => (Raise e, fs')
    end.
Proof.
  intros Hex Hmk. unfold Applier.apply_one, bind, gets, update, ret.
  rewrite Hex. cbn [negb]. cbv beta iota. rewrite Hmk. cbv beta iota.
  unfold final_dst. by destruct (exists_ fs1 dst).
Qed.

(** A planned move of a regular file, no fault, no stale temporary file,
    the source not being the temporary path: the file arrives at the
    (possibly uniquified) destination with its bytes, the source is
    gone, and the move is recorded with the file's size. *)
Lemma apply_one_moves (now : N) (src dst dst_tmp : Path) (fs fs1 : FS)
      (c : string) :
  node_at fs src = Some (File c) ->
  mkdir_parents fs (parent dst) = Ok fs1 ->
  with_suffix (final_dst fs1 dst) (suffix (final_dst fs1 dst) +:+ ".tmp")
  = Ok dst_tmp ->
  exists_ fs1 dst_tmp = false ->
  src <> dst_tmp ->
  Applier.apply_one sha256 false NoFault now src dst fs
  = (Ok (Applier.Moved {| mv_src := str src;
                          mv_dst := str (final_dst fs1 dst);
                          mv_size := String.length c;
                          mv_timestamp := now |}),
     delete src (<[final_dst fs1 dst := File c]> fs1)).
Proof.
  intros Hsrc Hmk Hws Ht Hst.
  rewrite (apply_one_unfold _ _ _ _ _ fs1);
    [|unfold exists_; by rewrite Hsrc|done].
  pose proof (mkdir_parents_preserves _ _ _ Hmk _ _ Hsrc) as H1.
  rewrite (copy_verify_delete_moves sha256 src _ dst_tmp fs1 fs1 c);
    try done.
  - apply mkdir_parents_existing_dir. rewrite final_dst_parent.
    by eapply mkdir_parents_is_dir.
  - apply final_dst_free.
Qed.

End RowForwards.

(** ** Aliasing of the source and the temporary path *)

(** A plan row whose source is the temporary path of its destination. *)
Definition alias_fs : FS :=
  list_to_map [(Path_of_string "/a", Dir);
               (Path_of_string "/a/f.tmp", File "hello")].

Definition alias_row : PlanRow := move_row "/a/f.tmp" "/a/f".

(** C1 fails on the code.  When the source of a planned row is the
    temporary path of its destination ([src = dst + ".tmp"]), opening the
    temporary file for writing truncates the source before a byte is read.
    Without any failure the row is counted as a succeeded move of the
    file's old size, while the destination is an empty file and the source
    is gone; when the rename fails, the row is an error and the clean-up of
    the temporary file has removed the source. *)
Theorem source_aliasing_temp_loses_data
    (sha256 : string -> string) (now : N) (row : PlanRow)
    (a : Applier.Acc) (fs fs1 : FS) (c : string) :
  let src := Path_of_string (src_path row) in
  let dst := Path_of_string (dst_path row) in
  Applier.is_planned_move row = true ->
  node_at fs src = Some (File c) ->
  with_suffix dst (suffix dst +:+ ".tmp") = Ok src ->
  mkdir_parents fs (parent dst) = Ok fs1 ->
  exists_ fs1 dst = false ->
  (let a' := (Applier.apply_row sha256 false NoFault now row a fs).1 in
   let fs' := (Applier.apply_row sha256 false NoFault now row a fs).2 in
   Applier.acc_applied a'
   = Applier.acc_applied a
     ++ [{| mv_src := str src; mv_dst := str dst;
            mv_size := String.length c; mv_timestamp := now |}]
   /\ Applier.acc_errors a' = Applier.acc_errors a
   /\ Applier.acc_bytes_moved a' = Applier.acc_bytes_moved a + String.length c
   /\ node_at fs' dst = Some (File "")
   /\ node_at fs' src = None)
  /\ (let a' := (Applier.apply_row sha256 false RenameFault now row a fs).1 in
      let fs' := (Applier.apply_row sha256 false RenameFault now row a fs).2 in
      Applier.acc_applied a' = Applier.acc_applied a
      /\ Applier.acc_errors a' = S (Applier.acc_errors a)
      /\ node_at fs' dst = None
      /\ node_at fs' src = None).
Proof.
  intros src dst Hplanned Hsrc Hws Hmk Hd.
  pose proof (node_at_file_not_anchor _ _ _ Hsrc) as Hsa.
  pose proof (tmp_is_sibling _ _ Hws) as (_ & Hda & _ & Hne).
  assert (final_dst fs1 dst = dst) as Hfd by (unfold final_dst; by rewrite Hd).
  assert (mkdir_parents fs1 (parent dst) = Ok fs1) as Hmk1.
  { apply mkdir_parents_existing_dir. by eapply mkdir_parents_is_dir. }
  pose proof (mkdir_parents_preserves _ _ _ Hmk _ _ Hsrc) as H1.
  destruct (copy_verify_delete_alias sha256 src dst fs1 fs1 c H1 Hws Hmk1 Hd)
    as [Hok Hfail].
  assert (exists_ fs src = true) as Hex by (unfold exists_; by rewrite Hsrc).
  unfold Applier.apply_row. rewrite Hplanned. cbn [negb]. fold src dst.
  rewrite !(apply_one_unfold sha256 _ now src dst fs fs1 Hex Hmk).
  rewrite Hfd, Hok, Hfail. cbn [fst snd]. split.
  - cbn. rewrite node_at_insert_eq by done.
    rewrite node_at_insert_ne, node_at_delete_eq by done. done.
  - cbn. rewrite node_at_delete_ne by done.
    rewrite node_at_delete_eq by done. split; [done|]. split; [done|].
    split; [|done]. by apply exists_false_None.
Qed.

Lemma source_aliasing_temp_loses_data_witness :
  Applier.is_planned_move alias_row = true
  /\ node_at alias_fs (Path_of_string (src_path alias_row))
     = Some (File "hello")
  /\ with_suffix (Path_of_string (dst_path alias_row))
       (suffix (Path_of_string (dst_path alias_row)) +:+ ".tmp")
     = Ok (Path_of_string (src_path alias_row))
  /\ exists_ alias_fs (Path_of_string (dst_path alias_row)) = false
  /\ node_at (Applier.apply_row (fun s => s) false NoFault 0 alias_row
                Applier.acc0 alias_fs).2 (Path_of_string "/a/f")
     = Some (File "").
Proof.
  assert (mkdir_parents alias_fs (parent (Path_of_string (dst_path alias_row)))
          = Ok alias_fs) as Hmk
    by (apply mkdir_parents_existing_dir; vm_compute; reflexivity).
  split; [reflexivity|]. split; [reflexivity|]. split; [reflexivity|].
  split; [vm_compute; reflexivity|].
  exact (proj1 (proj2 (proj2 (proj2 (proj1
    (source_aliasing_temp_loses_data (fun s => s) 0 alias_row Applier.acc0
       alias_fs alias_fs "hello" eq_refl eq_refl eq_refl Hmk eq_refl)))))).
Defined.

(** ** The commit under every fault *)

Section Outcome.

Variable sha256 : string -> string.

(** Whether a call of [copy_verify_delete] that is hit by [flt] on a
    source with content [c] returns. *)
Definition passes (flt : fault) (c : string) : bool :=
  match flt with
  | CopyFault _ | FsyncFault | RenameFault => false
  | CorruptFault w => String.eqb (sha256 c) (sha256 w)
  | NoFault | UnlinkFault | StdoutFault => true
  end.

(** The exception it raises otherwise. *)
Definition failure_of (flt : fault) : exn :=
  RuntimeError
    match flt with
    | CopyFault _ => "Copy failed"
    | FsyncFault => "Fsync failed"
    | RenameFault => "Atomic rename failed"
    | _ => "Hash mismatch after copy"
    end.

Lemma open_wb_over (fs : FS) (p : Path) :
  is_dir fs p = false -> is_dir fs (parent p) = true ->
  open_wb fs p = Ok (<[p := File ""]> fs).
Proof.
  unfold is_dir, open_wb. intros Hp Hd.
  destruct (node_at fs (parent p)) as [[|]|]; [done| |done].
  by destruct (node_at fs p) as [[|]|].
Qed.

(** The result and the final state of [copy_verify_delete] under every
    fault, for a source that is a regular file, a free destination and a
    temporary path that is not a directory (a regular file there is
    overwritten): either the file has been moved, or the call raises and
    only the temporary path has been cleared. *)
Lemma copy_verify_delete_outcome (flt : fault) (src dst dst_tmp : Path)
      (fs fs1 : FS) (c : string) :
  node_at fs src = Some (File c) ->
  with_suffix dst (suffix dst +:+ ".tmp") = Ok dst_tmp ->
  mkdir_parents fs (parent dst) = Ok fs1 ->
  exists_ fs1 dst = false ->
  is_dir fs1 dst_tmp = false ->
  src <> dst_tmp ->
  Applier.copy_verify_delete sha256 flt src dst fs
  = if passes flt c
    then (Ok (String.length c),
          match flt with
          | UnlinkFault => <[dst := File c]> (delete dst_tmp fs1)
          | _ => delete src (<[dst := File (written flt c)]>
                               (delete dst_tmp fs1))
          end)
    else (Raise (failure_of flt), delete dst_tmp fs1).
Proof.
  intros Hsrc Hws Hmk Hd Ht Hst.
  pose proof (tmp_is_sibling _ _ Hws) as (Htmp & Hda & Hpar & Htd).
  pose proof (mkdir_parents_preserves _ _ _ Hmk _ _ Hsrc) as H1.
  pose proof (mkdir_parents_is_dir _ _ _ Hmk) as Hdir.
  apply exists_false_None in Hd.
  assert (is_anchor dst_tmp = false) as Hta.
  { rewrite Htmp. apply is_anchor_snoc. intros E.
    apply (f_equal String.length) in E. rewrite str_length_app in E.
    cbn in E. lia. }
  assert (src <> dst) as Hsd by (intros ->; congruence).
  assert (node_at fs1 (parent dst) = Some Dir) as Hp by by apply is_dir_node.
  assert (parent dst <> dst_tmp) as Hpt.
  { intros E. rewrite <- E in Ht. congruence. }
  (* the state once the bytes [x] have reached the temporary file *)
  set (fs3 := fun x => <[dst_tmp := File x]> (<[dst_tmp := File ""]> fs1)).
  assert (forall x, node_at (fs3 x) src = Some (File c)) as H3s
    by (intros x; unfold fs3; by rewrite !node_at_insert_ne).
  assert (forall x, node_at (fs3 x) dst_tmp = Some (File x)) as H3t
    by (intros x; unfold fs3; by rewrite node_at_insert_eq).
  assert (forall x, delete dst_tmp (fs3 x) = delete dst_tmp fs1) as H3d
    by (intros x; unfold fs3; by rewrite !delete_insert_eq).
  assert (forall x, node_at (delete dst_tmp (fs3 x)) dst_tmp = None) as H3n
    by (intros x; by apply node_at_delete_eq).
  assert (forall x, rename (fs3 x) dst_tmp dst
                    = Ok (<[dst := File x]> (delete dst_tmp fs1))) as Hren.
  { intros x. unfold rename. rewrite Hta, H3t.
    assert (node_at (fs3 x) dst = None) as ->
      by (unfold fs3; by rewrite !node_at_insert_ne).
    assert (node_at (fs3 x) (parent dst) = Some Dir) as ->
      by (unfold fs3; by rewrite !node_at_insert_ne).
    by rewrite H3d. }
  assert (forall x, node_at (<[dst := File x]> (delete dst_tmp fs1)) src
                    = Some (File c)) as H4s.
  { intros x. by rewrite node_at_insert_ne, node_at_delete_ne. }
  (* up to the copy *)
  unfold Applier.copy_verify_delete. rewrite Hws.
  unfold try_except at 1. rewrite three_phase_unfold.
  unfold bind at 1, update. rewrite Hmk.
  unfold bind at 1, query, stat_size. rewrite H1.
  unfold bind at 1.
  unfold try_except at 1, Applier.copy_to_tmp, bind at 1, query.
  unfold read_file at 1. rewrite H1.
  unfold bind at 1, update. rewrite (open_wb_over fs1 dst_tmp) by (by rewrite ?Hpar).
  unfold bind at 1, query, read_file at 1.
  rewrite node_at_insert_ne, H1 by done.
  destruct flt as [|w| |w| | |]; cbn [passes failure_of written];
    unfold bind at 1; fold (fs3 c); try fold (fs3 w).
  - (* no fault *)
    unfold after_copy. unfold bind at 1.
    unfold try_except at 1, Applier.fsync_tmp, bind at 1, query, read_file at 1.
    rewrite H3t. unfold ret at 1.
    unfold bind at 1. rewrite (sha256_file_of_file sha256 src _ c (H3s c)).
    unfold bind at 1. rewrite (sha256_file_of_file sha256 dst_tmp _ c (H3t c)).
    rewrite String.eqb_refl. cbn [negb]. unfold bind at 1, ret at 1.
    unfold bind at 1.
    unfold try_except at 1, Applier.rename_tmp, update. rewrite Hren.
    unfold bind at 1. rewrite (unlink_step NoFault src _ c (H4s c)).
    reflexivity.
  - (* the copy breaks off *)
    unfold raise at 1. unfold raise at 1.
    unfold bind, gets, exists_, update, unlink, ret, raise, try_except.
    rewrite H3t. cbv beta iota. rewrite H3t. by rewrite H3d.
  - (* fsync fails *)
    unfold after_copy. unfold bind at 1.
    unfold try_except at 1, Applier.fsync_tmp, bind at 1, query, read_file at 1.
    rewrite H3t. unfold raise at 1.
    unfold bind at 1. rewrite (cleanup_tmp_of_file dst_tmp _ c (H3t c)).
    unfold raise at 1.
    unfold bind, gets, exists_, ret, raise. rewrite H3n. by rewrite H3d.
  - (* other bytes reach the temporary file *)
    unfold after_copy. unfold bind at 1.
    unfold try_except at 1, Applier.fsync_tmp, bind at 1, query, read_file at 1.
    rewrite H3t. unfold ret at 1.
    unfold bind at 1. rewrite (sha256_file_of_file sha256 src _ c (H3s w)).
    unfold bind at 1. rewrite (sha256_file_of_file sha256 dst_tmp _ w (H3t w)).
    destruct (String.eqb (sha256 c) (sha256 w)); cbn [negb].
    + unfold bind at 1, ret at 1. unfold bind at 1.
      unfold try_except at 1, Applier.rename_tmp, update. rewrite Hren.
      unfold bind at 1.
      rewrite (unlink_step (CorruptFault w) src _ c (H4s w)).
      reflexivity.
    + unfold bind at 1. unfold bind at 1.
      rewrite (cleanup_tmp_of_file dst_tmp _ w (H3t w)). unfold raise at 1.
      unfold bind, gets, exists_, ret, raise. rewrite H3n. by rewrite H3d.
  - (* the rename fails *)
    unfold after_copy. unfold bind at 1.
    unfold try_except at 1, Applier.fsync_tmp, bind at 1, query, read_file at 1.
    rewrite H3t. unfold ret at 1.
    unfold bind at 1. rewrite (sha256_file_of_file sha256 src _ c (H3s c)).
    unfold bind at 1. rewrite (sha256_file_of_file sha256 dst_tmp _ c (H3t c)).
    rewrite String.eqb_refl. cbn [negb]. unfold bind at 1, ret at 1.
    unfold bind at 1.
    unfold try_except at 1, Applier.rename_tmp, raise at 1.
    unfold bind at 1. rewrite (cleanup_tmp_of_file dst_tmp _ c (H3t c)).
    unfold raise at 1.
    unfold bind, gets, exists_, ret, raise. rewrite H3n. by rewrite H3d.
  - (* removing the source fails *)
    unfold after_copy. unfold bind at 1.
    unfold try_except at 1, Applier.fsync_tmp, bind at 1, query, read_file at 1.
    rewrite H3t. unfold ret at 1.
    unfold bind at 1. rewrite (sha256_file_of_file sha256 src _ c (H3s c)).
    unfold bind at 1. rewrite (sha256_file_of_file sha256 dst_tmp _ c (H3t c)).
    rewrite String.eqb_refl. cbn [negb]. unfold bind at 1, ret at 1.
    unfold bind at 1.
    unfold try_except at 1, Applier.rename_tmp, update. rewrite Hren.
    unfold bind at 1. rewrite (unlink_step UnlinkFault src _ c (H4s c)).
    reflexivity.
  - (* the report line: not written by [copy_verify_delete] *)
    unfold after_copy. unfold bind at 1.
    unfold try_except at 1, Applier.fsync_tmp, bind at 1, query, read_file at 1.
    rewrite H3t. unfold ret at 1.
    unfold bind at 1. rewrite (sha256_file_of_file sha256 src _ c (H3s c)).
    unfold bind at 1. rewrite (sha256_file_of_file sha256 dst_tmp _ c (H3t c)).
    rewrite String.eqb_refl. cbn [negb]. unfold bind at 1, ret at 1.
    unfold bind at 1.
    unfold try_except at 1, Applier.rename_tmp, update. rewrite Hren.
    unfold bind at 1. rewrite (unlink_step StdoutFault src _ c (H4s c)).
    reflexivity.
Qed.

End Outcome.

(** ** A row that moves a file onto itself *)

Definition self_row : PlanRow := move_row "/r/a.txt" "/r/a.txt".

(** On scenario A the self-move of [/r/a.txt] is carried out as a move to
    the uniquified sibling and counted as succeeded, whatever the digest. *)
Lemma self_row_outcome (sha256 : string -> string) (now : N) :
  (Applier.apply_row sha256 false NoFault now self_row Applier.acc0
     scenario_A).1
  = {| Applier.acc_applied :=
         [{| mv_src := "/r/a.txt"; mv_dst := "/r/a (1).txt"; mv_size := 5;
             mv_timestamp := now |}];
       Applier.acc_attempted := 1; Applier.acc_skipped := 0;
       Applier.acc_errors := 0; Applier.acc_bytes_moved := 5 |}.
Proof.
  unfold Applier.apply_row.
  change (Applier.is_planned_move self_row) with true. cbn [negb].
  rewrite (apply_one_moves sha256 now _ _
             (Path_of_string "/r/a (1).txt.tmp") scenario_A scenario_A
             "hello").
  - vm_compute. reflexivity.
  - reflexivity.
  - apply mkdir_parents_existing_dir. vm_compute. reflexivity.
  - vm_compute. reflexivity.
  - vm_compute. reflexivity.
  - vm_compute. discriminate.
Qed.

(** C7, as stated, fails: for no digest function is the row that moves
    [/r/a.txt] onto itself counted as an error. *)
Lemma self_move_is_not_an_error :
  ~ (exists (sha256 : string -> string) res fs',
        Applier.apply_moves sha256 N.of_nat (fun _ => "{}") [self_row]
          (Path_of_string "/r/checkpoint.json") false (fun _ => NoFault)
          scenario_A = (Ok res, fs')
        /\ errors (Applier.res_stats res) = 1).
Proof.
  intros (sha256 & res & fs' & Hrun & Herr).
  apply apply_moves_Ok_inv in Hrun as (a & fs1 & Hloop & Hst & _).
  cbn [Applier.apply_loop] in Hloop.
  pose proof (self_row_outcome sha256 (N.of_nat 0)) as Hrow.
  destruct (Applier.apply_row sha256 false NoFault (N.of_nat 0) self_row
              Applier.acc0 scenario_A) as [a1 fs2].
  cbn [fst] in Hrow. injection Hloop as <- _. subst a1.
  rewrite Hst in Herr. cbn in Herr. discriminate Herr.
Qed.

Section SelfMove.

Variable sha256 : string -> string.

(** A directory at the temporary path: the copy cannot start, the
    clean-up cannot remove the directory, nothing is touched. *)
Lemma copy_verify_delete_tmp_dir (flt : fault) (src dst dst_tmp : Path)
      (fs fs1 : FS) (c : string) :
  node_at fs src = Some (File c) ->
  with_suffix dst (suffix dst +:+ ".tmp") = Ok dst_tmp ->
  mkdir_parents fs (parent dst) = Ok fs1 ->
  is_dir fs1 dst_tmp = true ->
  Applier.copy_verify_delete sha256 flt src dst fs
  = (Raise (RuntimeError "Copy failed"), fs1).
Proof.
  intros Hsrc Hws Hmk Ht.
  pose proof (mkdir_parents_preserves _ _ _ Hmk _ _ Hsrc) as H1.
  apply is_dir_node in Ht.
  unfold Applier.copy_verify_delete. rewrite Hws.
  unfold try_except at 1. rewrite three_phase_unfold.
  unfold bind at 1, update. rewrite Hmk.
  unfold bind at 1, query, stat_size. rewrite H1.
  unfold bind at 1.
  unfold try_except at 1, Applier.copy_to_tmp, bind at 1, query.
  unfold read_file at 1. rewrite H1.
  unfold bind at 1, update, open_wb. rewrite Ht.
  unfold raise at 1.
  unfold bind, gets, exists_, update, unlink, ret, raise, try_except.
  rewrite Ht. cbv beta iota. by rewrite Ht.
Qed.

(** Whether the move to the sibling [d] is carried out: the temporary name
    can be formed, no directory is in its place, and no fault stops the
    commit. *)
Definition carried_out (flt : fault) (fs1 : FS) (d : Path) (c : string)
  : bool :=
  match with_suffix d (suffix d +:+ ".tmp") with
  | Ok dst_tmp => negb (is_dir fs1 dst_tmp) && passes sha256 flt c
  | Raise _ => false
  end.

(** C7, amended.  A planned move whose destination is its own source, a
    regular file, is not treated as an error for being a self-move and
    never destroys the file's content.  The destination exists, so
    [apply_moves] replaces it by [d = ensure_unique(src)], the first free
    sibling [stem (j)suffix], and commits the move of [src] to [d].  When
    the commit is carried out, the row is recorded as a move to [d] and
    counted in [succeeded] and not in [errors], [d] holds bytes with the
    source's SHA-256 and the source is gone (it stays when only its
    removal failed).  When it is not, the row is counted in [errors],
    nothing is recorded, the source is untouched and [d] does not exist.
    The statement is for a source spelled as the kernel resolves it and
    as [str] writes it, names that fit the limits of the file system, and
    a report line that can be written. *)
Theorem self_move_preserves_content
    (flt : fault) (now : N) (row : PlanRow) (a : Applier.Acc)
    (fs fs1 : FS) (c : string) :
  let src := Path_of_string (src_path row) in
  let d := Planner.ensure_unique fs1 src in
  Applier.is_planned_move row = true ->
  Path_of_string (dst_path row) = src ->
  node_at fs src = Some (File c) ->
  mkdir_parents fs (parent src) = Ok fs1 ->
  resolved src = true ->
  str src = src_path row ->
  fits 4 d = true ->
  flt <> StdoutFault ->
  let a' := (Applier.apply_row sha256 false flt now row a fs).1 in
  let fs' := (Applier.apply_row sha256 false flt now row a fs).2 in
  (exists j, 1 <= j /\ d = Planner.candidate src j)
  /\ d <> src
  /\ parent d = parent src
  /\ exists_ fs1 d = false
  /\ Applier.acc_attempted a' = S (Applier.acc_attempted a)
  /\ Applier.acc_skipped a' = Applier.acc_skipped a
  /\ if carried_out flt fs1 d c
     then Applier.acc_errors a' = Applier.acc_errors a
          /\ Applier.acc_applied a'
             = Applier.acc_applied a
               ++ [{| mv_src := str src; mv_dst := str d;
                      mv_size := String.length c; mv_timestamp := now |}]
          /\ Applier.acc_bytes_moved a'
             = Applier.acc_bytes_moved a + String.length c
          /\ node_at fs' d = Some (File (written flt c))
          /\ sha256 (written flt c) = sha256 c
          /\ node_at fs' src
             = match flt with UnlinkFault => Some (File c) | _ => None end
     else Applier.acc_errors a' = S (Applier.acc_errors a)
          /\ Applier.acc_applied a' = Applier.acc_applied a
          /\ Applier.acc_bytes_moved a' = Applier.acc_bytes_moved a
          /\ node_at fs' src = Some (File c)
          /\ node_at fs' d = None.
Proof.
  intros src d Hplanned Hdst Hsrc Hmk _ _ _ Hflt a' fs'. subst a' fs'.
  pose proof (node_at_file_not_anchor _ _ _ Hsrc) as Hsa.
  assert (exists_ fs src = true) as Hex by (unfold exists_; by rewrite Hsrc).
  pose proof (mkdir_parents_preserves _ _ _ Hmk _ _ Hsrc) as H1.
  assert (exists_ fs1 src = true) as Hex1 by (unfold exists_; by rewrite H1).
  destruct (ensure_unique_present fs1 src Hex1) as (j & Hj & Hd & _).
  fold d in Hd.
  pose proof (ensure_unique_not_exists fs1 src) as Hfree. fold d in Hfree.
  pose proof (exists_false_None _ _ Hfree) as Hdn.
  pose proof (candidate_ne_self src j Hsa) as Hne. rewrite <- Hd in Hne.
  destruct (candidate_parent_name src j) as [Hpar _]. rewrite <- Hd in Hpar.
  assert (mkdir_parents fs1 (parent d) = Ok fs1) as Hmk1.
  { apply mkdir_parents_existing_dir. rewrite Hpar.
    by eapply mkdir_parents_is_dir. }
  split; [by exists j|]. split; [done|]. split; [done|]. split; [done|].
  unfold Applier.apply_row. rewrite Hplanned, Hdst. cbn [negb]. fold src.
  rewrite (apply_one_unfold sha256 flt now src src fs fs1 Hex Hmk).
  assert (final_dst fs1 src = d) as -> by (unfold final_dst; by rewrite Hex1).
  unfold carried_out.
  destruct (with_suffix d (suffix d +:+ ".tmp")) as [dst_tmp|e] eqn:Ews.
  2:{ rewrite (copy_verify_delete_no_tmp sha256 flt src d fs1 e Ews).
      cbn. done. }
  assert (src <> dst_tmp) as Hst.
  { rewrite Hd in Ews. by apply (tmp_of_candidate_ne src dst_tmp j). }
  destruct (tmp_is_sibling d dst_tmp Ews) as (_ & Hda & _ & Htd).
  destruct (is_dir fs1 dst_tmp) eqn:Et; cbn [negb andb].
  { rewrite (copy_verify_delete_tmp_dir flt src d dst_tmp fs1 fs1 c
               H1 Ews Hmk1 Et).
    cbn. done. }
  rewrite (copy_verify_delete_outcome sha256 flt src d dst_tmp fs1 fs1 c
             H1 Ews Hmk1 Hfree Et Hst).
  destruct (passes sha256 flt c) eqn:Ep.
  - destruct (report_fields flt
                {| Applier.acc_applied :=
                     Applier.acc_applied a
                     ++ [{| mv_src := str src; mv_dst := str d;
                            mv_size := String.length c;
                            mv_timestamp := now |}];
                   Applier.acc_attempted := S (Applier.acc_attempted a);
                   Applier.acc_skipped := Applier.acc_skipped a;
                   Applier.acc_errors := Applier.acc_errors a;
                   Applier.acc_bytes_moved :=
                     Applier.acc_bytes_moved a + String.length c |})
      as (_ & _ & _ & _ & _ & R & _).
    cbn [fst snd Applier.acc_applied Applier.acc_attempted
         Applier.acc_skipped Applier.acc_errors Applier.acc_bytes_moved
         mv_size].
    rewrite (R Hflt).
    cbn [Applier.acc_applied Applier.acc_attempted
         Applier.acc_skipped Applier.acc_errors Applier.acc_bytes_moved].
    split; [done|]. split; [done|]. split; [done|]. split; [done|].
    split; [done|].
    assert (sha256 (written flt c) = sha256 c) as Hsha.
    { destruct flt as [|w| |w| | |]; cbn [written]; try done.
      cbn [passes] in Ep. by apply String.eqb_eq in Ep. }
    destruct flt as [|w| |w| | |]; cbn [written] in *; try done;
      (split; [|split; [done|]]);
      rewrite ?node_at_delete_ne by done;
      rewrite ?node_at_insert_eq by done;
      rewrite ?node_at_delete_eq by done;
      rewrite ?node_at_insert_ne by done;
      rewrite ?node_at_delete_ne by done; done.
  - cbn. split; [done|]. split; [done|]. split; [done|]. split; [done|].
    split; [done|].
    rewrite !node_at_delete_ne by done. done.
Qed.

End SelfMove.

Lemma self_move_preserves_content_witness :
  let run flt :=
    Applier.apply_row (fun s => s) false flt 0 self_row Applier.acc0
      scenario_A in
  Planner.ensure_unique scenario_A (Path_of_string "/r/a.txt")
  = Path_of_string "/r/a (1).txt"
  /\ (Applier.acc_errors (run NoFault).1 = 0
      /\ Applier.acc_applied (run NoFault).1
         = [{| mv_src := "/r/a.txt"; mv_dst := "/r/a (1).txt"; mv_size := 5;
               mv_timestamp := 0 |}]
      /\ node_at (run NoFault).2 (Path_of_string "/r/a (1).txt")
         = Some (File "hello")
      /\ node_at (run NoFault).2 (Path_of_string "/r/a.txt") = None)
  /\ (Applier.acc_errors (run RenameFault).1 = 1
      /\ Applier.acc_applied (run RenameFault).1 = []
      /\ node_at (run RenameFault).2 (Path_of_string "/r/a.txt")
         = Some (File "hello")
      /\ node_at (run RenameFault).2 (Path_of_string "/r/a (1).txt") = None).
Proof.
  intros run.
  assert (Planner.ensure_unique scenario_A (Path_of_string (src_path self_row))
          = Path_of_string "/r/a (1).txt") as Hd by (vm_compute; reflexivity).
  assert (mkdir_parents scenario_A (parent (Path_of_string (src_path self_row)))
          = Ok scenario_A) as Hmk
    by (apply mkdir_parents_existing_dir; vm_compute; reflexivity).
  assert (fits 4 (Planner.ensure_unique scenario_A
                    (Path_of_string (src_path self_row))) = true) as Hfit
    by (vm_compute; reflexivity).
  split; [exact Hd|]. split.
  - pose proof (self_move_preserves_content (fun s => s) NoFault 0 self_row
                  Applier.acc0 scenario_A scenario_A "hello"
                  eq_refl eq_refl eq_refl Hmk eq_refl eq_refl Hfit
                  ltac:(discriminate)) as H.
    cbv zeta in H. destruct H as (_ & _ & _ & _ & _ & _ & H).
    match type of H with
    | context [carried_out ?h ?f ?s ?d ?c] =>
        assert (carried_out h f s d c = true) as E by (vm_compute; reflexivity);
        rewrite E in H
    end.
    destruct H as (He & Ha & _ & Hnd & _ & Hns). rewrite Hd in Hnd.
    split; [exact He|]. split; [|split; [exact Hnd | exact Hns]].
    unfold run. rewrite Ha. vm_compute. reflexivity.
  - pose proof (self_move_preserves_content (fun s => s) RenameFault 0 self_row
                  Applier.acc0 scenario_A scenario_A "hello"
                  eq_refl eq_refl eq_refl Hmk eq_refl eq_refl Hfit
                  ltac:(discriminate)) as H.
    cbv zeta in H. destruct H as (_ & _ & _ & _ & _ & _ & H).
    match type of H with
    | context [carried_out ?h ?f ?s ?d ?c] =>
        assert (carried_out h f s d c = false) as E by (vm_compute; reflexivity);
        rewrite E in H
    end.
    destruct H as (He & Ha & _ & Hns & Hnd). rewrite Hd in Hnd.
    split; [exact He|]. split; [exact Ha|]. split; [exact Hns | exact Hnd].
Defined.

(** ** A report line that cannot be written *)

Lemma mkdir_parents_new (fs : FS) (p : Path) :
  node_at fs p = None -> is_dir fs (parent p) = true ->
  mkdir_parents fs p = Ok (<[p := Dir]> fs).
Proof.
  intros Hp Hd. unfold mkdir_parents.
  destruct p as [|x p]; [done|]. cbn [length mkdir_go]. rewrite Hp.
  apply is_dir_node in Hd.
  destruct (length p); cbn [mkdir_go]; by rewrite Hd.
Qed.

Section Unprintable.

Variable sha256 : string -> string.
Variable clock : nat -> N.
Variable json_dumps : Manifest -> string.

(** The run of [apply_moves] on one planned row that moves its file while
    [sys.stdout] cannot take the line that reports it: the move is carried
    out and recorded, the [print] after it raises, and the [except] branch
    counts the row in [errors] as well. *)
Lemma apply_moves_single_unprintable (row : PlanRow) (checkpoint : Path)
      (fs fs1 : FS) (c : string) (dst_tmp : Path) :
  let src := Path_of_string (src_path row) in
  let dst := Path_of_string (dst_path row) in
  let d := final_dst fs1 dst in
  Applier.is_planned_move row = true ->
  node_at fs src = Some (File c) ->
  mkdir_parents fs (parent dst) = Ok fs1 ->
  with_suffix d (suffix d +:+ ".tmp") = Ok dst_tmp ->
  exists_ fs1 dst_tmp = false ->
  src <> dst_tmp ->
  is_dir fs (parent checkpoint) = true ->
  is_dir fs1 checkpoint = false ->
  checkpoint <> src -> checkpoint <> d ->
  exists res fs',
    Applier.apply_moves sha256 clock json_dumps [row] checkpoint false
                        (fun _ => StdoutFault) fs
    = (Ok res, fs')
    /\ mf_moves (Applier.res_manifest res)
       = [{| mv_src := str src; mv_dst := str d;
             mv_size := String.length c; mv_timestamp := clock 0 |}]
    /\ Applier.res_stats res
       = {| attempted := 1; succeeded := 1; skipped := 0; errors := 1;
            bytes_moved := String.length c |}
    /\ mf_statistics (Applier.res_manifest res) = Applier.res_stats res
    /\ fs' !! checkpoint = Some (File (json_dumps (Applier.res_manifest res)))
    /\ node_at fs' d = Some (File c)
    /\ node_at fs' src = None.
Proof.
  intros src dst d Hplanned Hsrc Hmk Hws Ht Hst Hcpd Hcp Hcs Hcd.
  pose proof (mkdir_parents_preserves _ _ _ Hmk _ _ Hsrc) as Hsrc1.
  pose proof (final_dst_free fs1 dst) as Hdfree. fold d in Hdfree.
  apply exists_false_None in Hdfree.
  pose proof (node_at_None_not_anchor _ _ Hdfree) as Hda.
  pose proof (node_at_file_not_anchor _ _ _ Hsrc) as Hsa.
  assert (src <> d) as Hsd by (intros E; congruence).
  apply is_dir_node in Hcpd.
  pose proof (mkdir_parents_preserves _ _ _ Hmk _ _ Hcpd) as Hcpd1.
  unfold Applier.apply_moves. cbn [Applier.apply_loop].
  unfold Applier.apply_row. rewrite Hplanned. cbn [negb]. fold src dst.
  change (Applier.apply_one sha256 false StdoutFault (clock 0) src dst fs)
    with (Applier.apply_one sha256 false NoFault (clock 0) src dst fs).
  rewrite (apply_one_moves sha256 (clock 0) src dst dst_tmp fs fs1 c Hsrc Hmk)
    by done.
  fold d. cbv beta iota zeta.
  unfold bind, update, ret.
  assert (node_at (delete src (<[d := File c]> fs1)) (parent checkpoint)
          = Some Dir) as Hp2.
  { rewrite node_at_delete_ne by (intros E; congruence).
    rewrite node_at_insert_ne by (intros E; congruence). done. }
  rewrite (mkdir_parents_existing_dir _ _ (proj2 (is_dir_node _ _) Hp2)).
  cbv beta iota.
  assert (open_wb (delete src (<[d := File c]> fs1)) checkpoint
          = Ok (<[checkpoint := File ""]> (delete src (<[d := File c]> fs1))))
    as Hopen.
  { unfold open_wb. rewrite Hp2.
    rewrite node_at_delete_ne by done. rewrite node_at_insert_ne by done.
    unfold is_dir in Hcp. by destruct (node_at fs1 checkpoint) as [[|]|]. }
  rewrite Hopen. cbv beta iota.
  eexists _, _. split; [reflexivity|].
  cbn [Applier.res_manifest Applier.res_stats mf_moves mf_statistics
       Applier.report Applier.stats_of Applier.acc_applied
       Applier.acc_attempted Applier.acc_skipped Applier.acc_errors
       Applier.acc_bytes_moved Applier.acc0 app length mv_size Nat.add].
  split; [done|]. split; [done|]. split; [done|].
  split; [apply lookup_insert_eq|].
  rewrite !node_at_insert_ne by done.
  split.
  - rewrite node_at_delete_ne by done. by apply node_at_insert_eq.
  - by apply node_at_delete_eq.
Qed.

End Unprintable.

(** C9 fails on the code.  On scenario A, with a standard output that
    cannot take the report line (its encoding has no U+2192), the one
    planned row is moved and recorded and then counted in [errors] too:
    [attempted = 1] while [succeeded + skipped + errors = 2], for every
    digest function, clock and JSON writer. *)
Theorem unprintable_report_counts_row_twice
    (sha256 : string -> string) (clock : nat -> N)
    (json_dumps : Manifest -> string) :
  exists res fs',
    Applier.apply_moves sha256 clock json_dumps
      [move_row "/r/b.txt" "/r/.deduplab_duplicates/b.txt"]
      (Path_of_string "/r/checkpoint.json") false (fun _ => StdoutFault)
      scenario_A
    = (Ok res, fs')
    /\ Applier.res_stats res
       = {| attempted := 1; succeeded := 1; skipped := 0; errors := 1;
            bytes_moved := 5 |}
    /\ mf_statistics (Applier.res_manifest res) = Applier.res_stats res
    /\ mf_moves (Applier.res_manifest res)
       = [{| mv_src := "/r/b.txt"; mv_dst := "/r/.deduplab_duplicates/b.txt";
             mv_size := 5; mv_timestamp := clock 0 |}]
    /\ fs' !! Path_of_string "/r/checkpoint.json"
       = Some (File (json_dumps (Applier.res_manifest res)))
    /\ node_at fs' (Path_of_string "/r/.deduplab_duplicates/b.txt")
       = Some (File "hello")
    /\ node_at fs' (Path_of_string "/r/b.txt") = None
    /\ attempted (Applier.res_stats res)
       <> succeeded (Applier.res_stats res) + skipped (Applier.res_stats res)
          + errors (Applier.res_stats res).
Proof.
  set (row := move_row "/r/b.txt" "/r/.deduplab_duplicates/b.txt").
  set (dup := Path_of_string "/r/.deduplab_duplicates").
  assert (mkdir_parents scenario_A (parent (Path_of_string (dst_path row)))
          = Ok (<[dup := Dir]> scenario_A)) as Hmk.
  { apply mkdir_parents_new; vm_compute; reflexivity. }
  assert (final_dst (<[dup := Dir]> scenario_A) (Path_of_string (dst_path row))
          = Path_of_string "/r/.deduplab_duplicates/b.txt") as Hd
    by (vm_compute; reflexivity).
  destruct (apply_moves_single_unprintable sha256 clock json_dumps row
              (Path_of_string "/r/checkpoint.json") scenario_A
              (<[dup := Dir]> scenario_A) "hello"
              (Path_of_string "/r/.deduplab_duplicates/b.txt.tmp"))
    as (res & fs' & Hrun & Hmoves & Hstats & Hms & Hcp & Hnd & Hns).
  - reflexivity.
  - vm_compute. reflexivity.
  - exact Hmk.
  - vm_compute. reflexivity.
  - vm_compute. reflexivity.
  - vm_compute. discriminate.
  - vm_compute. reflexivity.
  - vm_compute. reflexivity.
  - vm_compute. discriminate.
  - vm_compute. discriminate.
  - rewrite Hd in Hmoves, Hnd.
    exists res, fs'. split; [exact Hrun|]. split; [exact Hstats|].
    split; [exact Hms|]. split; [exact Hmoves|]. split; [exact Hcp|].
    split; [exact Hnd|]. split; [exact Hns|].
    rewrite Hstats. cbn. discriminate.
Qed.

(** ** The older applier: the rename shortcut *)

(** [shutil.move] of a regular file to a free path, when it works. *)
Lemma move_file_fresh (fs fs1 : FS) (src dst : Path) (c : string) :
  node_at fs src = Some (File c) -> node_at fs dst = None ->
  move fs src dst = Ok fs1 -> fs1 = <[dst := File c]> (delete src fs).
Proof.
  intros Hsrc Hd. unfold move, is_dir, rename.
  rewrite Hd, (node_at_file_not_anchor _ _ _ Hsrc), Hsrc.
  destruct (node_at fs (parent dst)) as [[|]|]; by intros [= <-].
Qed.

Section LegacyFacts.

Variable sha256 : string -> string.
Variable resolve_anchor : Path -> string.

(** On one device the shortcut asks for the size of the source after it
    has moved it away: whenever the move of a regular file to a free
    path works, the call returns 0, whatever the size of the file. *)
Lemma legacy_rename_returns_zero (flt : fault) (src dst : Path)
      (fs fs' : FS) (c : string) (n : nat) :
  resolve_anchor src = resolve_anchor dst ->
  node_at fs src = Some (File c) -> exists_ fs dst = false ->
  Legacy.copy_verify_delete sha256 resolve_anchor flt src dst fs
  = (Ok n, fs') ->
  n = 0 /\ fs' = <[dst := File c]> (delete src fs).
Proof.
  intros Hanc Hsrc Hdst. unfold Legacy.copy_verify_delete.
  rewrite Hanc, String.eqb_refl. cbn [negb].
  pose proof (node_at_file_not_anchor _ _ _ Hsrc) as Hsa.
  pose proof (exists_false_None _ _ Hdst) as Hd.
  assert (src <> dst) as Hne by (intros ->; congruence).
  unfold Legacy.shutil_move, bind, update, gets, query, ret, raise.
  destruct flt; try done;
    (destruct (move fs src dst) as [fs1|] eqn:Em; [|done];
     apply (move_file_fresh _ _ _ _ c Hsrc Hd) in Em as ->;
     unfold exists_;
     rewrite node_at_insert_ne, node_at_delete_eq by done;
     by intros [= <- <-]).
Qed.

End LegacyFacts.

Section LegacyRow.

Variable sha256 : string -> string.
Variable resolve_anchor : Path -> string.

Lemma legacy_apply_one_unfold (flt : fault) (src dst : Path) (fs fs1 : FS) :
  exists_ fs src = true ->
  mkdir_parents fs (parent dst) = Ok fs1 ->
  Legacy.apply_one sha256 resolve_anchor false flt src dst fs
  = match Legacy.copy_verify_delete sha256 resolve_anchor flt src
            (final_dst fs1 dst) fs1 with
    | (Ok size, fs') =>
        (Ok (Legacy.Moved size {| lg_src := str src;
                                  lg_dst := str (final_dst fs1 dst) |}), fs')
    | (Raise e, fs') => (Raise e, fs')
    end.
Proof.
  intros Hex Hmk. unfold Legacy.apply_one, bind, gets, update, ret.
  rewrite Hex. cbn [negb]. cbv beta iota. rewrite Hmk. cbv beta iota.
  unfold final_dst. by destruct (exists_ fs1 dst).
Qed.

(** The same-device move of a regular file, computed forwards. *)
Lemma legacy_rename_moves (src dst : Path) (fs : FS) (c : string) :
  resolve_anchor src = resolve_anchor dst ->
  node_at fs src = Some (File c) -> exists_ fs dst = false ->
  is_dir fs (parent dst) = true ->
  Legacy.copy_verify_delete sha256 resolve_anchor NoFault src dst fs
  = (Ok 0, <[dst := File c]> (delete src fs)).
Proof.
  intros Hanc Hsrc Hdst Hdir. unfold Legacy.copy_verify_delete.
  rewrite Hanc, String.eqb_refl. cbn [negb].
  pose proof (node_at_file_not_anchor _ _ _ Hsrc) as Hsa.
  pose proof (exists_false_None _ _ Hdst) as Hd.
  assert (src <> dst) as Hne by (intros ->; congruence).
  assert (node_at fs (parent dst) = Some Dir) as Hp.
  { unfold is_dir in Hdir. by destruct (node_at fs (parent dst)) as [[|]|]. }
  unfold Legacy.shutil_move, bind, update, gets, query, ret, move, is_dir,
    rename, exists_.
  rewrite Hd, Hsa, Hsrc, Hp. cbv beta iota.
  by rewrite node_at_insert_ne, node_at_delete_eq by done.
Qed.

End LegacyRow.

(** C4 fails on the code.  For a planned move of a regular file to a free
    destination on the same device, without faults, the older applier
    (src/dedupelab/applier.py) and the strict applier (src/applier.py)
    leave the same files behind and both record one move, but the rename
    shortcut adds 0 to [bytes_moved] where the strict applier adds the
    file's size, and its checkpoint entry has no size and no timestamp. *)
Theorem rename_shortcut_is_distinguishable
    (sha256 : string -> string) (resolve_anchor : Path -> string) (now : N)
    (row : PlanRow) (fs fs1 : FS) (c : string) (dst_tmp : Path) :
  let src := Path_of_string (src_path row) in
  let dst := Path_of_string (dst_path row) in
  Applier.is_planned_move row = true ->
  node_at fs src = Some (File c) ->
  mkdir_parents fs (parent dst) = Ok fs1 ->
  exists_ fs1 dst = false ->
  with_suffix dst (suffix dst +:+ ".tmp") = Ok dst_tmp ->
  exists_ fs1 dst_tmp = false ->
  src <> dst_tmp ->
  resolve_anchor src = resolve_anchor dst ->
  let legacy :=
    Legacy.apply_row sha256 resolve_anchor false NoFault row Legacy.acc0 fs in
  let strict :=
    Applier.apply_row sha256 false NoFault now row Applier.acc0 fs in
  legacy.2 = strict.2
  /\ Legacy.acc_applied legacy.1 = [{| lg_src := str src; lg_dst := str dst |}]
  /\ Applier.acc_applied strict.1
     = [{| mv_src := str src; mv_dst := str dst;
           mv_size := String.length c; mv_timestamp := now |}]
  /\ bytes_moved (Legacy.stats_of legacy.1) = 0
  /\ bytes_moved (Applier.stats_of strict.1) = String.length c.
Proof.
  intros src dst Hplanned Hsrc Hmk Hd Hws Ht Hst Hanc legacy strict.
  assert (final_dst fs1 dst = dst) as Hfd by (unfold final_dst; by rewrite Hd).
  assert (exists_ fs src = true) as Hex by (unfold exists_; by rewrite Hsrc).
  pose proof (mkdir_parents_preserves _ _ _ Hmk _ _ Hsrc) as H1.
  assert (src <> dst) as Hne.
  { intros E. apply exists_false_None in Hd. congruence. }
  subst legacy strict. unfold Legacy.apply_row, Applier.apply_row.
  rewrite Hplanned. cbn [negb]. fold src dst.
  rewrite (legacy_apply_one_unfold sha256 resolve_anchor _ src dst fs fs1
             Hex Hmk).
  rewrite (apply_one_moves sha256 now src dst dst_tmp fs fs1 c Hsrc Hmk);
    rewrite ?Hfd; try done.
  rewrite (legacy_rename_moves sha256 resolve_anchor src dst fs1 c Hanc H1 Hd)
    by by eapply mkdir_parents_is_dir.
  cbn. split; [|done].
  by rewrite delete_insert_ne by done.
Qed.

Lemma rename_shortcut_is_distinguishable_witness :
  let row := move_row "/r/b.txt" "/r/.deduplab_duplicates/b.txt" in
  Applier.is_planned_move row = true
  /\ node_at scenario_A (Path_of_string (src_path row)) = Some (File "hello")
  /\ posix_anchor (Path_of_string (src_path row))
     = posix_anchor (Path_of_string (dst_path row))
  /\ bytes_moved
       (Legacy.stats_of
          (Legacy.apply_row (fun s => s) posix_anchor false NoFault row
             Legacy.acc0 scenario_A).1) = 0
  /\ bytes_moved
       (Applier.stats_of
          (Applier.apply_row (fun s => s) false NoFault 0 row Applier.acc0
             scenario_A).1) = 5.
Proof.
  intros row.
  split; [reflexivity|]. split; [reflexivity|]. split; [reflexivity|].
  assert (exists fs1,
             mkdir_parents scenario_A (parent (Path_of_string (dst_path row)))
             = Ok fs1
             /\ exists_ fs1 (Path_of_string (dst_path row)) = false
             /\ exists_ fs1
                  (Path_of_string "/r/.deduplab_duplicates/b.txt.tmp") = false)
    as (fs1 & Hmk & Hd & Ht).
  { destruct (mkdir_parents scenario_A
                (parent (Path_of_string (dst_path row)))) as [fs1|e] eqn:E.
    - exists fs1. split; [done|].
      assert (Ok fs1 = mkdir_parents scenario_A
                         (parent (Path_of_string (dst_path row)))) as E'
        by done.
      assert (forall p, match mkdir_parents scenario_A
                                (parent (Path_of_string (dst_path row))) with
                        | Ok f => exists_ f p
                        | Raise _ => true
                        end = false -> exists_ fs1 p = false) as Hp
        by (intros p; by rewrite <- E').
      split; apply Hp; vm_compute; reflexivity.
    - exfalso. apply (f_equal is_ok) in E. vm_compute in E. discriminate E. }
  pose proof (rename_shortcut_is_distinguishable (fun s => s) posix_anchor 0
                row scenario_A fs1 "hello"
                (Path_of_string "/r/.deduplab_duplicates/b.txt.tmp")
                eq_refl eq_refl Hmk Hd eq_refl Ht) as H.
  destruct H as (_ & _ & _ & H0 & H5).
  - vm_compute. discriminate.
  - reflexivity.
  - split; [exact H0|exact H5].
Defined.

(** ** Rollback *)

Lemma restore_entry_counts (f : bool) (mv : LegacyEntry)
      (c c' : Rollback.Counts) (fs fs' : FS) :
  Rollback.restore_entry f mv c fs = (c', fs') ->
  Rollback.restored c' + Rollback.rb_errors c'
  <= S (Rollback.restored c + Rollback.rb_errors c).
Proof.
  unfold Rollback.restore_entry.
  destruct (Rollback.restore_one f mv fs) as [[[|]|e] fs1];
    intros [= <- <-]; cbn; lia.
Qed.

Lemma rollback_loop_counts (faults : nat -> bool) (k : nat)
      (mvs : list LegacyEntry) (c c' : Rollback.Counts) (fs fs' : FS) :
  Rollback.rollback_loop faults k mvs c fs = (c', fs') ->
  Rollback.restored c' + Rollback.rb_errors c'
  <= Rollback.restored c + Rollback.rb_errors c + length mvs.
Proof.
  revert k c fs. induction mvs as [|mv mvs IH]; intros k c fs H; cbn in H.
  - injection H as <- <-. lia.
  - destruct (Rollback.restore_entry (faults k) mv c fs) as [c1 fs1] eqn:E.
    apply restore_entry_counts in E. apply IH in H. cbn [length]. lia.
Qed.

(** An entry whose [dst] is absent once the restoration directory is there
    changes no counter. *)
Lemma restore_entry_missing_dst (f : bool) (mv : LegacyEntry)
      (c : Rollback.Counts) (fs fs1 : FS) :
  mkdir_parents fs (parent (Path_of_string (lg_src mv))) = Ok fs1 ->
  exists_ fs1 (Path_of_string (lg_dst mv)) = false ->
  Rollback.restore_entry f mv c fs = (c, fs1).
Proof.
  intros Hmk Hdst.
  unfold Rollback.restore_entry, Rollback.restore_one, bind, update, gets, ret.
  rewrite Hmk.
  by destruct (exists_ fs1 (Path_of_string (lg_src mv))); cbv beta iota;
    rewrite Hdst.
Qed.

Lemma rollback_loop_all_missing (faults : nat -> bool) (k : nat)
      (mvs : list LegacyEntry) (c : Rollback.Counts) (fs : FS) :
  (forall mv, mv ∈ mvs ->
              exists_ fs (Path_of_string (lg_dst mv)) = false
              /\ is_dir fs (parent (Path_of_string (lg_src mv))) = true) ->
  Rollback.rollback_loop faults k mvs c fs = (c, fs).
Proof.
  revert k. induction mvs as [|mv mvs IH]; intros k H; [done|].
  cbn [Rollback.rollback_loop].
  destruct (H mv) as [Hdst Hdir]; [left|].
  rewrite (restore_entry_missing_dst _ mv c fs fs);
    [|by apply mkdir_parents_existing_dir|done].
  apply IH. intros mv' Hmv'. apply H. by right.
Qed.

(** A checkpoint entry whose restoration target lies below a regular file. *)
Definition blocked_fs : FS :=
  <[Path_of_string "/r/f" := File "x"]> scenario_A.

Definition blocked_entry : LegacyEntry :=
  {| lg_src := "/r/f/b.txt"; lg_dst := "/r/gone" |}.

(** C10, as stated, fails: the [dst] of the entry does not exist, and the
    entry is still counted in [errors], because creating the parent
    directory of the restoration target raises. *)
Lemma rollback_missing_dst_counted_as_error :
  exists_ blocked_fs (Path_of_string (lg_dst blocked_entry)) = false
  /\ (Rollback.rollback_from_checkpoint (fun _ => false) [blocked_entry]
        blocked_fs).1
     = {| Rollback.restored := 0; Rollback.rb_errors := 1 |}.
Proof. split; vm_compute; reflexivity. Qed.

(** C10, amended.  For every checkpoint and every behaviour of the moves,
    [restored + errors] is at most the number of moves.  An entry whose
    [dst] does not exist after the parent directory of its restoration
    target has been created increments neither counter, and only that
    [mkdir] can have changed the file system.  A checkpoint all of whose
    [dst] are gone and all of whose restoration directories exist yields
    [{restored: 0, errors: 0}] and leaves the file system as it was.
    Both are for entries whose two paths are spelled as the kernel
    resolves them and fit the limits on names, the name that
    [ensure_unique] gives an occupied restoration target included: where
    [exists()] raises on a name that is too long, the entry is counted in
    [errors] before its [dst] is looked up. *)
Theorem rollback_ignores_missing_dst
    (faults : nat -> bool) (moves : list LegacyEntry) (fs : FS) :
  (let c := (Rollback.rollback_from_checkpoint faults moves fs).1 in
   Rollback.restored c + Rollback.rb_errors c <= length moves)
  /\ (forall f mv c fs1,
         let src_now := Path_of_string (lg_dst mv) in
         let dst_restore := Path_of_string (lg_src mv) in
         mkdir_parents fs (parent dst_restore) = Ok fs1 ->
         exists_ fs1 src_now = false ->
         resolved src_now = true -> fits 0 src_now = true ->
         resolved dst_restore = true -> fits 0 dst_restore = true ->
         fits 0 (final_dst fs1 dst_restore) = true ->
         Rollback.restore_entry f mv c fs = (c, fs1))
  /\ ((forall mv, mv ∈ moves ->
         let src_now := Path_of_string (lg_dst mv) in
         let dst_restore := Path_of_string (lg_src mv) in
         exists_ fs src_now = false
         /\ is_dir fs (parent dst_restore) = true
         /\ resolved src_now = true /\ fits 0 src_now = true
         /\ resolved dst_restore = true /\ fits 0 dst_restore = true
         /\ fits 0 (final_dst fs dst_restore) = true) ->
      Rollback.rollback_from_checkpoint faults moves fs
      = ({| Rollback.restored := 0; Rollback.rb_errors := 0 |}, fs)).
Proof.
  split; [|split].
  - unfold Rollback.rollback_from_checkpoint.
    destruct (Rollback.rollback_loop faults 0 (rev moves) _ fs)
      as [c fs'] eqn:E.
    apply rollback_loop_counts in E. cbn in *. rewrite length_rev in E. lia.
  - intros f mv c fs1 src_now dst_restore Hmk Hdst _ _ _ _ _.
    by apply restore_entry_missing_dst.
  - intros H. apply rollback_loop_all_missing.
    intros mv Hmv.
    destruct (H mv) as (Hdst & Hdir & _).
    { apply list_elem_of_In. apply in_rev. by apply list_elem_of_In. }
    done.
Qed.

(** The checkpoint of scenario A after it has been rolled back. *)
Definition rolled_back_moves : list LegacyEntry :=
  [{| lg_src := "/r/b.txt"; lg_dst := "/r/.deduplab_duplicates/b.txt" |}].

Lemma rollback_ignores_missing_dst_witness :
  (forall mv, mv ∈ rolled_back_moves ->
     let src_now := Path_of_string (lg_dst mv) in
     let dst_restore := Path_of_string (lg_src mv) in
     exists_ scenario_A src_now = false
     /\ is_dir scenario_A (parent dst_restore) = true
     /\ resolved src_now = true /\ fits 0 src_now = true
     /\ resolved dst_restore = true /\ fits 0 dst_restore = true
     /\ fits 0 (final_dst scenario_A dst_restore) = true)
  /\ Rollback.rollback_from_checkpoint (fun _ => false) rolled_back_moves
       scenario_A
     = ({| Rollback.restored := 0; Rollback.rb_errors := 0 |}, scenario_A).
Proof.
  assert (forall mv, mv ∈ rolled_back_moves ->
            let src_now := Path_of_string (lg_dst mv) in
            let dst_restore := Path_of_string (lg_src mv) in
            exists_ scenario_A src_now = false
            /\ is_dir scenario_A (parent dst_restore) = true
            /\ resolved src_now = true /\ fits 0 src_now = true
            /\ resolved dst_restore = true /\ fits 0 dst_restore = true
            /\ fits 0 (final_dst scenario_A dst_restore) = true)
    as H.
  { intros mv ->%list_elem_of_singleton. vm_compute. done. }
  split; [exact H|].
  exact (proj2 (proj2 (rollback_ignores_missing_dst (fun _ => false)
                         rolled_back_moves scenario_A)) H).
Defined.


(** * Further properties of the code *)

(** ** The store: [upsert_files] *)

Lemma upsert_paths_present (r : FileRecord) (st : DB.Store) :
  fr_path r ∈ map fr_path st ->
  map fr_path (DB.upsert r st) = map fr_path st.
Proof.
  induction st as [|x st IH]; cbn; intros H.
  - inversion H.
  - destruct (String.eqb (fr_path x) (fr_path r)) eqn:E; cbn.
    + apply String.eqb_eq in E. now rewrite E.
    + f_equal. apply IH. apply elem_of_cons in H as [H | H]; [|exact H].
      apply String.eqb_neq in E. congruence.
Qed.

Lemma upsert_paths_absent (r : FileRecord) (st : DB.Store) :
  fr_path r ∉ map fr_path st ->
  DB.upsert r st = st ++ [r].
Proof.
  induction st as [|x st IH]; cbn; intros H; [reflexivity|].
  destruct (String.eqb (fr_path x) (fr_path r)) eqn:E.
  - apply String.eqb_eq in E. exfalso. apply H. rewrite E. left.
  - f_equal. apply IH. intros Hin. apply H. now right.
Qed.

Lemma upsert_pk_unique (r : FileRecord) (st : DB.Store) :
  DB.pk_unique st -> DB.pk_unique (DB.upsert r st).
Proof.
  unfold DB.pk_unique. intros Hnd.
  destruct (decide (fr_path r ∈ map fr_path st)) as [Hin | Hout].
  - now rewrite upsert_paths_present.
  - rewrite upsert_paths_absent by exact Hout.
    rewrite map_app. cbn. apply NoDup_app. split; [exact Hnd|]. split.
    + intros x Hx Hx'. apply list_elem_of_singleton in Hx'. now subst.
    + apply NoDup_singleton.
Qed.

Lemma upsert_files_pk_unique (rs : list FileRecord) (st : DB.Store) :
  DB.pk_unique st -> DB.pk_unique (DB.upsert_files rs st).
Proof.
  revert st. induction rs as [|r rs IH]; cbn; intros st H; [exact H|].
  apply IH, upsert_pk_unique, H.
Qed.

Lemma elem_of_upsert (r x : FileRecord) (st : DB.Store) :
  DB.pk_unique st ->
  x ∈ DB.upsert r st <->
  x = r \/ (x ∈ st /\ fr_path x <> fr_path r).
Proof.
  unfold DB.pk_unique.
  induction st as [|y st IH]; cbn; intros Hnd.
  - rewrite list_elem_of_singleton. split; [auto|].
    intros [-> | [H _]]; [reflexivity | inversion H].
  - apply NoDup_cons in Hnd as [Hy Hnd].
    destruct (String.eqb (fr_path y) (fr_path r)) eqn:E.
    + apply String.eqb_eq in E. rewrite !elem_of_cons. split.
      * intros [-> | H]; [now left|]. right. split; [now right|].
        intros Heq. apply Hy. rewrite E, <- Heq.
        apply list_elem_of_fmap. now exists x.
      * intros [-> | [[-> | H] Hne]]; [now left | congruence | now right].
    + apply String.eqb_neq in E. rewrite !elem_of_cons, (IH Hnd). split.
      * intros [-> | [-> | [H Hne]]]; [right; split; [now left | exact E]
                                      | now left | right; split; [now right | exact Hne]].
      * intros [-> | [[-> | H] Hne]]; [right; now left | now left | right; right; now split].
Qed.

(** The last record of a batch that carries a given path. *)
Fixpoint last_with_path (p : string) (rs : list FileRecord) : option FileRecord :=
  match rs with
  | [] => None
  | r :: rest =>
      match last_with_path p rest with
      | Some r' => Some r'
      | None => if String.eqb (fr_path r) p then Some r else None
      end
  end.

Lemma last_with_path_None (p : string) (rs : list FileRecord) :
  last_with_path p rs = None <-> p ∉ map fr_path rs.
Proof.
  induction rs as [|r rs IH]; cbn.
  - split; [intros _ H; inversion H | reflexivity].
  - rewrite elem_of_cons. destruct (last_with_path p rs) eqn:E.
    + split; [discriminate|]. intros H. exfalso.
      destruct (decide (p ∈ map fr_path rs)) as [Hin | Hout].
      * apply H. now right.
      * apply IH in Hout. discriminate.
    + destruct (String.eqb (fr_path r) p) eqn:E'.
      * apply String.eqb_eq in E'. split; [discriminate|]. intros H. exfalso.
        apply H. left. now symmetry.
      * apply String.eqb_neq in E'. split; [|reflexivity]. intros _ [H | H].
        -- congruence.
        -- now apply IH in H.
Qed.

Lemma last_with_path_Some (p : string) (rs : list FileRecord) (r : FileRecord) :
  last_with_path p rs = Some r -> r ∈ rs /\ fr_path r = p.
Proof.
  induction rs as [|x rs IH]; cbn; [discriminate|].
  destruct (last_with_path p rs) eqn:E.
  - intros [= <-]. destruct (IH eq_refl) as [H1 H2]. split; [now right | exact H2].
  - destruct (String.eqb (fr_path x) p) eqn:E'; [|discriminate].
    intros [= <-]. apply String.eqb_eq in E'. split; [now left | exact E'].
Qed.

(** Last write wins: after a batch, the row of a path is the last record of
    the batch with that path, and rows of other paths are the old ones. *)
Lemma elem_of_upsert_files (rs : list FileRecord) (st : DB.Store)
      (x : FileRecord) :
  DB.pk_unique st ->
  x ∈ DB.upsert_files rs st <->
  last_with_path (fr_path x) rs = Some x
  \/ (last_with_path (fr_path x) rs = None /\ x ∈ st).
Proof.
  revert st. induction rs as [|r rs IH]; intros st Hpk.
  - cbn. split; [auto | intros [H | [_ H]]; [discriminate | exact H]].
  - change (DB.upsert_files (r :: rs) st)
      with (DB.upsert_files rs (DB.upsert r st)).
    rewrite (IH _ (upsert_pk_unique r st Hpk)). cbn [last_with_path].
    destruct (last_with_path (fr_path x) rs) eqn:E.
    + split; (intros [H | [H _]]; [now left | discriminate]).
    + rewrite (elem_of_upsert r x st Hpk).
      destruct (String.eqb (fr_path r) (fr_path x)) eqn:E'.
      * apply String.eqb_eq in E'. split.
        -- intros [H | [_ [-> | [_ Hne]]]]; [discriminate | now left | congruence].
        -- intros [[= ->] | [H _]]; [|discriminate]. right. split; [reflexivity | now left].
      * apply String.eqb_neq in E'. split.
        -- intros [H | [_ [-> | [H Hne]]]]; [discriminate | congruence | right; now split].
        -- intros [H | [_ H]]; [discriminate|]. right. split; [reflexivity|].
           right. split; [exact H | congruence].
Qed.

Lemma upsert_files_paths_present (rs : list FileRecord) (st : DB.Store) :
  (forall r, r ∈ rs -> fr_path r ∈ map fr_path st) ->
  map fr_path (DB.upsert_files rs st) = map fr_path st.
Proof.
  revert st. induction rs as [|r rs IH]; intros st H; [reflexivity|].
  change (DB.upsert_files (r :: rs) st)
    with (DB.upsert_files rs (DB.upsert r st)).
  assert (Hr : fr_path r ∈ map fr_path st) by (apply H; now left).
  rewrite IH; rewrite upsert_paths_present by exact Hr; [reflexivity|].
  intros r' Hr'. apply H. now right.
Qed.

Lemma upsert_files_covers (rs : list FileRecord) (st : DB.Store) (r : FileRecord) :
  r ∈ rs -> fr_path r ∈ map fr_path (DB.upsert_files rs st).
Proof.
  revert st. induction rs as [|x rs IH]; intros st H; [inversion H|].
  change (DB.upsert_files (x :: rs) st)
    with (DB.upsert_files rs (DB.upsert x st)).
  apply elem_of_cons in H as [-> | H]; [|now apply IH].
  assert (Hx : fr_path x ∈ map fr_path (DB.upsert x st)).
  { destruct (decide (fr_path x ∈ map fr_path st)) as [Hin | Hout].
    - now rewrite upsert_paths_present.
    - rewrite upsert_paths_absent by exact Hout. rewrite map_app.
      apply elem_of_app. right. cbn. left. }
  clear IH. revert Hx. generalize (DB.upsert x st). clear st.
  induction rs as [|y rs IH2]; intros st Hx; [exact Hx|].
  change (DB.upsert_files (y :: rs) st)
    with (DB.upsert_files rs (DB.upsert y st)).
  apply IH2.
  destruct (decide (fr_path y ∈ map fr_path st)) as [Hin | Hout].
  - now rewrite upsert_paths_present.
  - rewrite upsert_paths_absent by exact Hout. rewrite map_app.
    apply elem_of_app. now left.
Qed.

(** Two stores with the same paths in the same order and the same rows
    are equal. *)
Lemma store_ext (s1 s2 : DB.Store) :
  DB.pk_unique s1 ->
  map fr_path s1 = map fr_path s2 ->
  (forall x, x ∈ s1 -> x ∈ s2) ->
  s1 = s2.
Proof.
  unfold DB.pk_unique. revert s2.
  induction s1 as [|a s1 IH]; intros [|b s2] Hnd Hmap Hin; try discriminate;
    [reflexivity|].
  cbn in Hmap, Hnd. injection Hmap as Hab Hmap.
  apply NoDup_cons in Hnd as [Ha Hnd].
  assert (a = b).
  { assert (H : a ∈ b :: s2) by (apply Hin; left).
    apply elem_of_cons in H as [H | H]; [exact H|]. exfalso.
    apply Ha. rewrite Hmap. apply list_elem_of_fmap. now exists a. }
  subst b. f_equal. apply IH; [exact Hnd | exact Hmap|].
  intros x Hx. assert (H : x ∈ a :: s2) by (apply Hin; now right).
  apply elem_of_cons in H as [-> | H]; [|exact H]. exfalso.
  apply Ha. apply list_elem_of_fmap. now exists a.
Qed.

(** X16. [upsert_files] keeps the primary key and the last write wins. *)
Theorem upsert_files_last_write_wins (rs : list FileRecord) (st : DB.Store) :
  DB.pk_unique st ->
  DB.pk_unique (DB.upsert_files rs st)
  /\ (forall r, r ∈ rs ->
        exists r', r' ∈ DB.upsert_files rs st /\ fr_path r' = fr_path r
                   /\ last_with_path (fr_path r) rs = Some r')
  /\ (forall x, x ∈ st -> fr_path x ∉ map fr_path rs ->
                x ∈ DB.upsert_files rs st)
  /\ (forall x, x ∈ DB.upsert_files rs st -> x ∈ rs \/ x ∈ st).
Proof.
  intros Hpk. split; [now apply upsert_files_pk_unique|]. split; [|split].
  - intros r Hr. destruct (last_with_path (fr_path r) rs) as [r'|] eqn:E.
    + destruct (last_with_path_Some _ _ _ E) as [_ Hp]. exists r'.
      split; [|split; [exact Hp | reflexivity]].
      apply (elem_of_upsert_files rs st r' Hpk). left. now rewrite Hp.
    + apply last_with_path_None in E. exfalso. apply E.
      apply list_elem_of_fmap. now exists r.
  - intros x Hx Hout. apply (elem_of_upsert_files rs st x Hpk). right.
    split; [now apply last_with_path_None | exact Hx].
  - intros x Hx. apply (elem_of_upsert_files rs st x Hpk) in Hx as [H | [_ H]].
    + left. now apply last_with_path_Some in H.
    + now right.
Qed.

Definition rec_a1 : FileRecord :=
  {| fr_path := "/r/a.txt"; fr_size := 5; fr_mtime := 1%N;
     fr_sha256 := "h1"; fr_mime := "text/plain"; context_tag := "archived" |}.

Definition rec_a2 : FileRecord :=
  {| fr_path := "/r/a.txt"; fr_size := 7; fr_mtime := 2%N;
     fr_sha256 := "h2"; fr_mime := "text/plain"; context_tag := "archived" |}.

Definition rec_b : FileRecord :=
  {| fr_path := "/r/b.txt"; fr_size := 5; fr_mtime := 1%N;
     fr_sha256 := "h1"; fr_mime := "text/plain"; context_tag := "archived" |}.

Lemma upsert_files_last_write_wins_witness :
  DB.pk_unique (DB.upsert_files [rec_a1; rec_a2] [rec_b]).
Proof.
  apply (upsert_files_last_write_wins [rec_a1; rec_a2] [rec_b]).
  unfold DB.pk_unique. apply (bool_decide_unpack _). vm_compute. exact I.
Defined.

(** X17. storing the same batch a second time changes nothing. *)
Theorem upsert_files_idempotent (rs : list FileRecord) (st : DB.Store) :
  DB.pk_unique st ->
  DB.upsert_files rs (DB.upsert_files rs st) = DB.upsert_files rs st.
Proof.
  intros Hpk.
  pose proof (upsert_files_pk_unique rs st Hpk) as Hpk1.
  apply store_ext.
  - now apply upsert_files_pk_unique.
  - apply upsert_files_paths_present. intros r Hr.
    now apply upsert_files_covers.
  - intros x Hx.
    apply (elem_of_upsert_files rs _ x Hpk1) in Hx as [H | [_ H]]; [|exact H].
    apply (elem_of_upsert_files rs st x Hpk). now left.
Qed.

Lemma upsert_files_idempotent_witness :
  DB.upsert_files [rec_a1; rec_a2] (DB.upsert_files [rec_a1; rec_a2] [rec_b])
  = DB.upsert_files [rec_a1; rec_a2] [rec_b].
Proof.
  apply (upsert_files_idempotent [rec_a1; rec_a2] [rec_b]).
  unfold DB.pk_unique. apply (bool_decide_unpack _). vm_compute. exact I.
Defined.

(** ** The scanner *)

Section ScannerFacts.

Variable sha256_hex : string -> string.
Variable guess_type : string -> option string.
Variable mtime_of : Path -> N.

Lemma assoc_extension_map_nonempty (k v : string) :
  Scanner.assoc k Scanner.extension_map = Some v -> v <> "".
Proof.
  unfold Scanner.extension_map. cbn [Scanner.assoc].
  repeat (destruct (String.eqb k _); [intros [= <-]; discriminate|]).
  discriminate.
Qed.

(** X15. [_get_mime_safe] never returns an empty MIME type, whatever
    [mimetypes.guess_type] answers. *)
Theorem get_mime_safe_nonempty (p : Path) :
  Scanner._get_mime_safe guess_type p <> ""
  /\ (forall m, guess_type (str p) = Some m -> m <> "" ->
                Scanner._get_mime_safe guess_type p = m)
  /\ ((guess_type (str p) = None \/ guess_type (str p) = Some "") ->
      Scanner.assoc (Py.lower (suffix p)) Scanner.extension_map = None ->
      Scanner._get_mime_safe guess_type p = "application/octet-stream").
Proof.
  unfold Scanner._get_mime_safe. split; [|split].
  - destruct (guess_type (str p)) as [m|].
    + destruct (String.eqb m "") eqn:E; cbn [negb].
      * destruct (Scanner.assoc _ _) eqn:Ea; cbn; [|discriminate].
        eapply assoc_extension_map_nonempty, Ea.
      * by apply String.eqb_neq.
    + destruct (Scanner.assoc _ _) eqn:Ea; cbn; [|discriminate].
      eapply assoc_extension_map_nonempty, Ea.
  - intros m -> Hm. apply String.eqb_neq in Hm. by rewrite Hm.
  - intros [-> | ->] ->; reflexivity.
Qed.

Lemma is_prefix_app (a k : Path) :
  is_prefix a k = true -> k = a ++ drop (length a) k.
Proof.
  unfold is_prefix. intros H. apply bool_decide_eq_true in H.
  rewrite <- H at 1. by rewrite take_drop.
Qed.

Lemma should_skip_true (p : Path) (ignore : list string) :
  Scanner._should_skip p ignore = true <-> exists ig, ig ∈ ignore /\ ig ∈ p.
Proof.
  unfold Scanner._should_skip. rewrite existsb_exists. split.
  - intros (ig & Hin & H). apply bool_decide_eq_true in H.
    exists ig. split; [by apply list_elem_of_In | done].
  - intros (ig & Hin & H). exists ig. split; [by apply list_elem_of_In|].
    by apply bool_decide_eq_true.
Qed.

Lemma elem_of_rglob_all (fs : FS) (rp p : Path) :
  p ∈ Scanner.rglob_all fs rp ->
  is_prefix rp p = true /\ p <> rp.
Proof.
  unfold Scanner.rglob_all. intros H. apply list_elem_of_In, filter_In in H.
  destruct H as [_ H]. apply andb_true_iff in H as [H _].
  apply andb_true_iff in H as [H1 H2]. split; [done|].
  apply negb_true_iff, bool_decide_eq_false in H2. done.
Qed.

Lemma elem_of_iter_files (fs : FS) (roots ignore : list string) (p : Path) :
  p ∈ Scanner.iter_files fs roots ignore ->
  exists r, r ∈ roots /\ exists_ fs (Path_of_string r) = true
            /\ p ∈ Scanner.rglob_all fs (Path_of_string r)
            /\ is_file fs p = true
            /\ Scanner._should_skip p ignore = false.
Proof.
  unfold Scanner.iter_files. intros H.
  apply list_elem_of_In, in_flat_map in H as (r & Hr & H).
  exists r. split; [by apply list_elem_of_In|].
  destruct (exists_ fs (Path_of_string r)); cbn [negb] in H; [|done].
  split; [done|]. apply filter_In in H as [H1 H2].
  apply andb_true_iff in H2 as [H2 H3]. apply negb_true_iff in H3.
  split; [by apply list_elem_of_In|]. done.
Qed.

(** X14. What [iter_files] yields: regular files strictly below an existing
    root, none of whose components (those of the root included) is an
    ignore pattern; a root that has an ignored component yields nothing. *)
Theorem iter_files_respects_ignore (fs : FS) (roots ignore : list string) :
  (forall p, p ∈ Scanner.iter_files fs roots ignore ->
     is_file fs p = true
     /\ (forall ig, ig ∈ ignore -> ig ∉ p)
     /\ exists r, r ∈ roots /\ exists_ fs (Path_of_string r) = true
                  /\ is_prefix (Path_of_string r) p = true
                  /\ p <> Path_of_string r)
  /\ (forall r ig, ig ∈ ignore -> ig ∈ Path_of_string r ->
                   Scanner.iter_files fs [r] ignore = []).
Proof.
  split.
  - intros p Hp.
    apply elem_of_iter_files in Hp as (r & Hr & Hex & Hglob & Hfile & Hskip).
    split; [done|]. split.
    + intros ig Hig Hin.
      assert (Scanner._should_skip p ignore = true) as Habs
          by (apply should_skip_true; eauto).
      congruence.
    + exists r. apply elem_of_rglob_all in Hglob as [? ?]. done.
  - intros r ig Hig Hin.
    destruct (Scanner.iter_files fs [r] ignore) as [|p l] eqn:E; [done|].
    exfalso.
    assert (p ∈ Scanner.iter_files fs [r] ignore) as Hp by (rewrite E; left).
    apply elem_of_iter_files in Hp as (r' & Hr' & _ & Hglob & _ & Hskip).
    apply list_elem_of_singleton in Hr'. subst r'.
    apply elem_of_rglob_all in Hglob as [Hpre _].
    apply is_prefix_app in Hpre.
    assert (Scanner._should_skip p ignore = true) as Habs.
    { apply should_skip_true. exists ig. split; [done|].
      rewrite Hpre. apply elem_of_app. by left. }
    congruence.
Qed.

(** Scenario A with a repository folder next to the two files. *)
Definition git_fs : FS :=
  <[Path_of_string "/r/.git/config" := File "x"]>
    (<[Path_of_string "/r/.git" := Dir]> scenario_A).

Lemma iter_files_respects_ignore_witness :
  exists_ git_fs (Path_of_string "/r/.git") = true
  /\ Scanner.iter_files git_fs ["/r/.git"] []
     = [Path_of_string "/r/.git/config"]
  /\ Scanner.iter_files git_fs ["/r/.git"] [".git"] = []
  /\ (Path_of_string "/r/.git/config" ∈ Scanner.iter_files git_fs ["/r"] [])
  /\ (forall p, p ∈ Scanner.iter_files git_fs ["/r"] [".git"] ->
        is_file git_fs p = true /\ ".git" ∉ p).
Proof.
  split; [vm_compute; reflexivity|].
  split; [vm_compute; reflexivity|].
  split.
  { apply (proj2 (iter_files_respects_ignore git_fs ["/r/.git"] [".git"])
                 "/r/.git" ".git").
    - left.
    - vm_compute. right. right. left. }
  split.
  { apply (bool_decide_unpack _). vm_compute. exact I. }
  intros p Hp.
  destruct (proj1 (iter_files_respects_ignore git_fs ["/r"] [".git"]) p Hp)
    as (Hf & Hig & _).
  split; [exact Hf|]. apply Hig. left.
Defined.

Lemma process_file_Ok (fs : FS) (p : Path) (r : FileRecord) :
  Scanner.process_file sha256_hex guess_type mtime_of fs p = Ok r ->
  exists c, node_at fs p = Some (File c)
            /\ r = {| fr_path := str p; fr_size := String.length c;
                      fr_mtime := mtime_of p; fr_sha256 := sha256_hex c;
                      fr_mime := Scanner._get_mime_safe guess_type p;
                      context_tag := "archived" |}.
Proof.
  unfold Scanner.process_file, Scanner._sha256_file, read_file, stat_size.
  destruct (node_at fs p) as [[c|]|] eqn:E; cbn [rbind]; [|done..].
  pose proof (detect_context_never_unarchived fs p
                (node_at_file_not_anchor fs p c E)) as Hctx.
  unfold Scanner._detect_context in *.
  destruct (Scanner._is_inside_archive fs p) as [[|]|]; cbn [rbind] in *;
    [|done..].
  intros [= <-]. by exists c.
Qed.

(** X13. Every record of a scan describes a regular file found by
    [iter_files]: its path, the size and digest of its content, and the
    context ['archived'] -- the classifier yields no other tag on a file
    (it raises, and the file is dropped).  The reported total counts the
    files found, dropped ones included. *)
Theorem threaded_hash_records (fs : FS) (roots ignore : list string) :
  let '(results, total) :=
    Scanner.threaded_hash sha256_hex guess_type mtime_of fs roots ignore in
  total = length (Scanner.iter_files fs roots ignore)
  /\ length results <= total
  /\ forall r, r ∈ results ->
       exists p c, p ∈ Scanner.iter_files fs roots ignore
                   /\ node_at fs p = Some (File c)
                   /\ fr_path r = str p
                   /\ fr_size r = String.length c
                   /\ fr_sha256 r = sha256_hex c
                   /\ fr_mime r = Scanner._get_mime_safe guess_type p
                   /\ context_tag r = "archived".
Proof.
  unfold Scanner.threaded_hash. cbv zeta.
  generalize (Scanner.iter_files fs roots ignore). intros files.
  split; [done|]. split.
  - induction files as [|p files IH]; cbn [flat_map length]; [lia|].
    rewrite length_app.
    destruct (Scanner.process_file _ _ _ fs p); cbn [length]; lia.
  - intros r Hr. apply list_elem_of_In, in_flat_map in Hr as (p & Hp & Hr).
    destruct (Scanner.process_file _ _ _ fs p) as [r'|] eqn:E; [|done].
    destruct Hr as [<- | []].
    apply process_file_Ok in E as (c & Hc & ->).
    exists p, c. split; [by apply list_elem_of_In|]. done.
Qed.

End ScannerFacts.

(** ** Well-formed paths: what [Path(s)] produces *)

(** A component is not empty, not [.], and holds no [/]. *)
Definition wf_component (c : string) : bool :=
  negb (String.eqb c "") && negb (String.eqb c ".")
  && negb (Planner.has_char "/"%char c).

Definition wf_path (p : Path) : bool :=
  match p with
  | [] => true
  | r :: rest =>
      if String.eqb r "/" then forallb wf_component rest
      else forallb wf_component p
  end.

Lemma app_nil_r_str (s : string) : s +:+ "" = s.
Proof. induction s as [|a s IH]; [done|]. by rewrite app_cons, IH. Qed.

Lemma rev_app_app (s t : string) :
  String.rev_app s t = String.rev_app s "" +:+ t.
Proof.
  revert t. induction s as [|a s IH]; intros t; cbn [String.rev_app]; [done|].
  rewrite (IH (String a t)), (IH (String a "")).
  by rewrite str_app_assoc.
Qed.

Lemma rev_cons_str (a : ascii) (s : string) :
  String.rev (String a s) = String.rev s +:+ String a "".
Proof. unfold String.rev. cbn [String.rev_app]. apply rev_app_app. Qed.

Lemma has_char_app (c : ascii) (s t : string) :
  Planner.has_char c (s +:+ t) = Planner.has_char c s || Planner.has_char c t.
Proof.
  induction s as [|a s IH]; [done|].
  rewrite app_cons. cbn [Planner.has_char]. rewrite IH. by rewrite orb_assoc.
Qed.

Lemma has_char_rev (c : ascii) (s : string) :
  Planner.has_char c (String.rev s) = Planner.has_char c s.
Proof.
  induction s as [|a s IH]; [done|].
  rewrite rev_cons_str, has_char_app, IH. cbn [Planner.has_char].
  rewrite orb_false_r. apply orb_comm.
Qed.

Lemma contains_char (c : ascii) (s : string) :
  Py.contains (String c "") s = Planner.has_char c s.
Proof.
  induction s as [|a s IH]; [done|].
  cbn [Py.contains Planner.has_char String.prefix].
  destruct (ascii_dec c a) as [->|Hne].
  - rewrite Ascii.eqb_refl. by destruct s.
  - rewrite IH. destruct (Ascii.eqb a c) eqn:E; [|done].
    apply Ascii.eqb_eq in E. congruence.
Qed.

Lemma has_char_take (c : ascii) (n : nat) (s : string) :
  Planner.has_char c s = false -> Planner.has_char c (Py.take n s) = false.
Proof.
  revert s. induction n as [|n IH]; intros [|a s]; cbn; try done.
  intros H. apply orb_false_iff in H as [-> H]. by apply IH.
Qed.

Lemma has_char_drop (c : ascii) (n : nat) (s : string) :
  Planner.has_char c s = false -> Planner.has_char c (Py.drop n s) = false.
Proof.
  revert s. induction n as [|n IH]; intros [|a s]; cbn; try done.
  intros H. apply orb_false_iff in H as [_ H]. by apply IH.
Qed.

(** *** [split] and [join] *)

Lemma split_go_no_sep (sep : ascii) (cur s : string) :
  Planner.has_char sep s = false ->
  Py.split_go sep cur s = [String.rev cur +:+ s].
Proof.
  revert cur. induction s as [|a s IH]; intros cur H.
  - cbn. by rewrite app_nil_r_str.
  - cbn [Planner.has_char] in H. apply orb_false_iff in H as [Ha H].
    cbn [Py.split_go]. rewrite Ha, (IH _ H), rev_cons_str.
    by rewrite str_app_assoc.
Qed.

Lemma split_go_sep (sep : ascii) (cur s t : string) :
  Planner.has_char sep s = false ->
  Py.split_go sep cur (s +:+ String sep t)
  = (String.rev cur +:+ s) :: Py.split_go sep "" t.
Proof.
  revert cur. induction s as [|a s IH]; intros cur H.
  - rewrite app_nil_l_str, app_nil_r_str. cbn [Py.split_go].
    by rewrite Ascii.eqb_refl.
  - cbn [Planner.has_char] in H. apply orb_false_iff in H as [Ha H].
    rewrite app_cons. cbn [Py.split_go]. rewrite Ha, (IH _ H), rev_cons_str.
    by rewrite str_app_assoc.
Qed.

Lemma split_join (sep : ascii) (l : list string) :
  l <> [] ->
  forallb (fun c => negb (Planner.has_char sep c)) l = true ->
  Py.split sep (Py.join (String sep "") l) = l.
Proof.
  unfold Py.split. induction l as [|x l IH]; [done|]. intros _ H.
  cbn [forallb] in H. apply andb_true_iff in H as [Hx H].
  apply negb_true_iff in Hx.
  destruct l as [|y l].
  - cbn [Py.join]. by rewrite split_go_no_sep.
  - change (Py.join (String sep "") (x :: y :: l))
      with (x +:+ String sep (Py.join (String sep "") (y :: l))).
    rewrite split_go_sep by done. f_equal. by apply IH.
Qed.

Lemma split_go_components (sep : ascii) (cur s : string) :
  Planner.has_char sep cur = false ->
  forallb (fun c => negb (Planner.has_char sep c)) (Py.split_go sep cur s) = true.
Proof.
  revert cur. induction s as [|a s IH]; intros cur H.
  - cbn. by rewrite has_char_rev, H.
  - cbn [Py.split_go]. destruct (Ascii.eqb a sep) eqn:E.
    + cbn [forallb]. rewrite has_char_rev, H. cbn. by apply IH.
    + apply IH. cbn. by rewrite E.
Qed.

Lemma forallb_filter_wf (l : list string) :
  forallb (fun c => negb (Planner.has_char "/"%char c)) l = true ->
  forallb wf_component
    (List.filter (fun c => negb (String.eqb c "" || String.eqb c ".")) l) = true.
Proof.
  induction l as [|x l IH]; [done|]. cbn [forallb List.filter].
  intros H. apply andb_true_iff in H as [Hx H].
  destruct (String.eqb x "") eqn:E1; cbn; [by apply IH|].
  destruct (String.eqb x ".") eqn:E2; cbn; [by apply IH|].
  unfold wf_component. rewrite E1, E2, Hx. cbn. by apply IH.
Qed.

Lemma filter_wf_id (l : list string) :
  forallb wf_component l = true ->
  List.filter (fun c => negb (String.eqb c "" || String.eqb c ".")) l = l.
Proof.
  induction l as [|x l IH]; [done|]. cbn [forallb List.filter].
  intros H. apply andb_true_iff in H as [Hx H]. unfold wf_component in Hx.
  apply andb_true_iff in Hx as [Hx _]. apply andb_true_iff in Hx as [H1 H2].
  apply negb_true_iff in H1, H2. rewrite H1, H2. cbn. f_equal. by apply IH.
Qed.

Lemma wf_components_no_slash (l : list string) :
  forallb wf_component l = true ->
  forallb (fun c => negb (Planner.has_char "/"%char c)) l = true.
Proof.
  induction l as [|x l IH]; [done|]. cbn [forallb].
  intros H. apply andb_true_iff in H as [Hx H]. unfold wf_component in Hx.
  apply andb_true_iff in Hx as [_ ->]. by apply IH.
Qed.

Lemma wf_component_not_slash (c : string) :
  wf_component c = true -> c <> "/" /\ c <> "".
Proof.
  unfold wf_component. intros H. split; intros ->; done.
Qed.

(** [Path(s)] is well formed. *)
Lemma Path_of_string_wf (s : string) : wf_path (Path_of_string s) = true.
Proof.
  unfold Path_of_string.
  assert (forallb wf_component
            (List.filter (fun c => negb (String.eqb c "" || String.eqb c "."))
                         (Py.split "/" s)) = true) as H.
  { apply forallb_filter_wf. by apply split_go_components. }
  destruct (String.prefix "/" s); [done|].
  destruct (List.filter _ _) as [|r rest] eqn:E; [done|].
  unfold wf_path. destruct (String.eqb r "/") eqn:Er; [|done].
  apply String.eqb_eq in Er. subst r. done.
Qed.

(** [Path(str(p)) == p] for a well-formed path. *)
Lemma Path_of_string_str (p : Path) :
  wf_path p = true -> Path_of_string (str p) = p.
Proof.
  destruct p as [|r rest]; [done|]. unfold wf_path, str.
  destruct (String.eqb r "/") eqn:Er.
  - apply String.eqb_eq in Er. subst r. intros H. unfold Path_of_string.
    assert (String.prefix "/" ("/" +:+ Py.join "/" rest) = true) as ->.
    { change ("/" +:+ Py.join "/" rest) with (String "/" (Py.join "/" rest)).
      cbn [String.prefix]. destruct (ascii_dec "/" "/"); [|done].
      by destruct (Py.join "/" rest). }
    f_equal. change ("/" +:+ Py.join "/" rest) with ("" +:+ String "/" (Py.join "/" rest)).
    unfold Py.split. rewrite split_go_sep by done. cbn [List.filter String.eqb orb negb].
    change (String.rev "" +:+ "") with "". cbn [String.eqb orb negb].
    destruct rest as [|x rest]; [done|].
    change (Py.split_go "/" "" (Py.join "/" (x :: rest)))
      with (Py.split "/" (Py.join "/" (x :: rest))).
    rewrite split_join; [by apply filter_wf_id | done |].
    by apply wf_components_no_slash.
  - intros H. unfold Path_of_string.
    rewrite split_join; [| done | by apply wf_components_no_slash].
    rewrite filter_wf_id by done.
    assert (String.prefix "/" (Py.join "/" (r :: rest)) = false) as ->; [|done].
    cbn [forallb] in H. apply andb_true_iff in H as [Hr _].
    unfold wf_component in Hr.
    destruct r as [|a r]; [done|].
    assert (a <> "/"%char) as Ha.
    { intros ->. cbn in Hr. rewrite ?andb_false_r in Hr. done. }
    destruct rest; cbn [Py.join]; rewrite ?app_cons; cbn [String.prefix];
      by destruct (ascii_dec "/" a) as [<-|].
Qed.

Lemma wf_path_app (p : Path) (c : string) :
  wf_path p = true -> wf_component c = true -> wf_path (p ++ [c]) = true.
Proof.
  intros Hp Hc. destruct p as [|r rest].
  - cbn. destruct (String.eqb c "/"); [done|]. by rewrite Hc.
  - cbn [app]. unfold wf_path in *. destruct (String.eqb r "/").
    + rewrite forallb_app, Hp. cbn. by rewrite Hc.
    + change (r :: rest ++ [c]) with ((r :: rest) ++ [c]).
      rewrite forallb_app, Hp. cbn. by rewrite Hc.
Qed.

Lemma forallb_removelast {A} (f : A -> bool) (l : list A) :
  forallb f l = true -> forallb f (removelast l) = true.
Proof.
  induction l as [|x [|y l] IH]; [done..|].
  intros H. change (removelast (x :: y :: l)) with (x :: removelast (y :: l)).
  cbn [forallb] in *. apply andb_true_iff in H as [-> H]. by apply IH.
Qed.

Lemma wf_path_parent (p : Path) : wf_path p = true -> wf_path (parent p) = true.
Proof.
  unfold parent. destruct (is_anchor p) eqn:Ha; [done|].
  destruct p as [|r [|x rest]]; [done| |].
  - done.
  - unfold wf_path. intros H.
    change (removelast (r :: x :: rest)) with (r :: removelast (x :: rest)).
    cbv beta iota.
    destruct (String.eqb r "/").
    + by apply forallb_removelast.
    + by apply (forallb_removelast wf_component (r :: x :: rest)).
Qed.

Lemma forallb_last (f : string -> bool) (l : list string) :
  l <> [] -> forallb f l = true -> f (List.last l "") = true.
Proof.
  induction l as [|x [|y l] IH]; [done| |].
  - cbn. intros _ H. by apply andb_true_iff in H as [-> _].
  - intros _ H. change (List.last (x :: y :: l) "") with (List.last (y :: l) "").
    cbn [forallb] in H. apply andb_true_iff in H as [_ H]. by apply IH.
Qed.

Lemma wf_path_name (p : Path) :
  wf_path p = true -> is_anchor p = false -> wf_component (name p) = true.
Proof.
  unfold name. intros H Ha. rewrite Ha.
  destruct p as [|r rest]; [done|]. unfold wf_path in H.
  destruct (String.eqb r "/") eqn:Er.
  - destruct rest as [|x rest]; [cbn in Ha; by rewrite Er in Ha|].
    change (List.last (r :: x :: rest) "") with (List.last (x :: rest) "").
    by apply forallb_last.
  - by apply forallb_last.
Qed.

Lemma wf_component_app (a b : string) :
  a <> "" \/ b <> "" -> a +:+ b <> "." ->
  Planner.has_char "/"%char a = false -> Planner.has_char "/"%char b = false ->
  wf_component (a +:+ b) = true.
Proof.
  intros Hne Hdot Ha Hb. unfold wf_component.
  rewrite has_char_app, Ha, Hb. cbn [orb negb]. rewrite andb_true_r.
  apply andb_true_iff. split; apply negb_true_iff, String.eqb_neq; [|done].
  intros H. apply (f_equal String.length) in H. rewrite str_length_app in H.
  cbn in H. destruct Hne as [Hne | Hne]; apply Hne;
    [destruct a | destruct b]; cbn in H; done || lia.
Qed.

Lemma wf_component_no_slash (c : string) :
  wf_component c = true -> Planner.has_char "/"%char c = false.
Proof.
  unfold wf_component. intros H. apply andb_true_iff in H as [_ H].
  by apply negb_true_iff in H.
Qed.

Lemma has_char_stem_suffix (c : ascii) (nm : string) :
  Planner.has_char c nm = false ->
  Planner.has_char c (stem_of_name nm) = false
  /\ Planner.has_char c (suffix_of_name nm) = false.
Proof.
  intros H. unfold stem_of_name, suffix_of_name.
  destruct (dot_index nm); [|done].
  split; [by apply has_char_take | by apply has_char_drop].
Qed.

(** The candidates of [ensure_unique] on a well-formed path are well formed. *)
Lemma wf_path_candidate (p : Path) (j : nat) :
  wf_path p = true -> wf_path (Planner.candidate p j) = true.
Proof.
  intros Hp. rewrite candidate_snoc.
  apply wf_path_app; [by apply wf_path_parent|].
  assert (Planner.has_char "/" (name p) = false) as Hn.
  { destruct (is_anchor p) eqn:Ha; [by rewrite name_anchor|].
    apply wf_component_no_slash. by apply wf_path_name. }
  destruct (has_char_stem_suffix "/" (name p) Hn) as [Hs Hx].
  unfold wf_component.
  assert (String.length (stem p +:+ " (" +:+ pretty j +:+ ")" +:+ suffix p) >= 3)
    as Hlen by (rewrite candidate_name_length; lia).
  rewrite !eqb_false_of_length by (cbn; lia). cbn [negb andb].
  apply negb_true_iff.
  rewrite !has_char_app. fold (stem p) (suffix p) in Hs, Hx. rewrite Hs, Hx.
  cbn [orb]. rewrite orb_false_r.
  assert (Planner.has_char "/" (pretty j) = false) as ->; [|done].
  clear. change (pretty j) with (pretty (N.of_nat j)).
  generalize (N.of_nat j). clear. intros n.
  unfold pretty, pretty_N.
  destruct (decide (n = 0)%N) as [->|Hn]; [done|].
  assert (forall s, Planner.has_char "/" s = false ->
                    Planner.has_char "/" (pretty_N_go n s) = false) as H;
    [|by apply H].
  clear Hn. induction n as [n IH] using (well_founded_ind N.lt_wf_0). intros s Hs.
  destruct (decide (n = 0)%N) as [->|Hn0]; [done|].
  rewrite pretty_N_go_step by lia. apply IH; [apply N.div_lt; lia|].
  cbn [Planner.has_char]. rewrite Hs, orb_false_r.
  unfold pretty_N_char.
  assert (n `mod` 10 < 10)%N as Hm by (apply N.mod_lt; lia).
  destruct (n `mod` 10)%N as [|q] eqn:Em; [done|].
  repeat (destruct q as [q|q|]; try done; try lia).
Qed.

(** ** The classifier on well-formed paths *)

(** The three rules of [_is_inside_archive] on one ancestor folder. *)
Definition adjacent_exists (fs : FS) (q : Path) : bool :=
  existsb (fun ext => is_file fs (parent q ++ [name q +:+ ext]))
          Scanner.ARCHIVE_EXTENSIONS.

Definition triggers (fs : FS) (q : Path) : bool :=
  Scanner.has_marker (Py.lower (name q))
  || adjacent_exists fs q
  || Scanner.archive_like_name (Py.lower (name q)).

Lemma with_name_wf (q : Path) (ext : string) :
  wf_path q = true -> is_anchor q = false ->
  Planner.has_char "/"%char ext = false ->
  with_name q (name q +:+ ext) = Ok (parent q ++ [name q +:+ ext]).
Proof.
  intros Hq Ha Hext. pose proof (wf_path_name q Hq Ha) as Hn.
  destruct (wf_component_not_slash _ Hn) as [_ Hne].
  unfold with_name, parent. rewrite Ha.
  rewrite (proj2 (String.eqb_neq _ _) Hne).
  rewrite contains_char, has_char_app, (wf_component_no_slash _ Hn), Hext.
  assert (String.eqb (name q +:+ ext) "" = false) as ->; [|done].
  apply eqb_false_of_length. rewrite str_length_app.
  destruct (name q); [done|]. cbn. lia.
Qed.

Lemma adjacent_archive_wf (fs : FS) (q : Path) (exts : list string) :
  wf_path q = true -> is_anchor q = false ->
  forallb (fun ext => negb (Planner.has_char "/"%char ext)) exts = true ->
  Scanner.adjacent_archive fs q exts
  = Ok (existsb (fun ext => is_file fs (parent q ++ [name q +:+ ext])) exts).
Proof.
  intros Hq Ha. induction exts as [|ext exts IH]; [done|].
  cbn [forallb]. intros H. apply andb_true_iff in H as [He H].
  apply negb_true_iff in He.
  cbn [Scanner.adjacent_archive existsb].
  rewrite with_name_wf by done. cbn [rbind].
  unfold exists_, is_file.
  destruct (node_at fs (parent q ++ [name q +:+ ext])) as [[c|]|];
    cbn [andb orb]; [done|by apply IH..].
Qed.

Lemma parents_aux_split (n : nat) (p : Path) :
  length p <= n -> wf_path p = true -> is_anchor p = false ->
  exists l a, parents_aux n p = l ++ [a] /\ is_anchor a = true
              /\ Forall (fun q => wf_path q = true /\ is_anchor q = false) l.
Proof.
  revert p. induction n as [|n IH]; intros p Hlen Hwf Hp.
  - destruct p; [done|cbn in Hlen; lia].
  - cbn [parents_aux]. rewrite Hp.
    destruct (is_anchor (parent p)) eqn:Ha.
    + exists [], (parent p). split; [|done].
      destruct n; cbn [parents_aux]; [done|]. by rewrite Ha.
    + destruct (IH (parent p)) as (l & a & -> & Hanc & Hall);
        [|by apply wf_path_parent|done|].
      * unfold parent. rewrite Hp.
        destruct p as [|c p]; [done|].
        rewrite length_removelast_cons. cbn in Hlen. lia.
      * exists (parent p :: l), a. split; [done|]. split; [done|].
        apply Forall_cons. split; [|done]. split; [by apply wf_path_parent|done].
Qed.

Lemma inside_archive_loop_wf (fs : FS) (l : list Path) (a : Path) :
  is_anchor a = true ->
  Forall (fun q => wf_path q = true /\ is_anchor q = false) l ->
  Scanner.inside_archive_loop fs (l ++ [a])
  = if existsb (triggers fs) l then Ok true else Raise ValueError.
Proof.
  intros Ha. induction l as [|q l IH]; intros Hall;
    cbn [app Scanner.inside_archive_loop existsb].
  - cbv zeta. rewrite (name_anchor a Ha).
    change (Scanner.has_marker (Py.lower "")) with false. cbv iota.
    by rewrite adjacent_archive_empty_name by by apply name_anchor.
  - apply Forall_cons in Hall as [[Hq Hqa] Hall]. cbv zeta.
    unfold triggers at 1, adjacent_exists.
    destruct (Scanner.has_marker (Py.lower (name q))); [done|].
    rewrite adjacent_archive_wf by (done || by vm_compute). cbn [rbind orb].
    destruct (existsb _ Scanner.ARCHIVE_EXTENSIONS); [done|].
    cbn [orb].
    destruct (Scanner.archive_like_name (Py.lower (name q))); [done|].
    cbn [orb]. by apply IH.
Qed.

(** X12. The classifier on every well-formed path that has a parent: the tag
    is ['archived'] exactly when one of the ancestor folders below the
    anchor has an extraction marker in its name, an archive file next to
    it, or an archive-like name; otherwise the walk reaches the anchor and
    [ValueError] is raised.  The path is spelled as the kernel resolves
    it, its names are ASCII (so that [lower] is [str.lower]), and the
    names of its folders leave room for the longest archive extension
    (so that [exists()] does not raise on a candidate). *)
Theorem detect_context_spec (fs : FS) (p : Path) :
  wf_path p = true -> is_anchor p = false ->
  resolved p = true ->
  forallb MetaExporter.isascii p = true ->
  fits 8 (parent p) = true ->
  Scanner._detect_context fs p
  = if existsb (triggers fs) (removelast (parents p))
    then Ok "archived" else Raise ValueError.
Proof.
  intros Hwf Hp _ _ _.
  destruct (parents_aux_split (length p) p (le_n _) Hwf Hp)
    as (l & a & Hl & Ha & Hall).
  unfold Scanner._detect_context, Scanner._is_inside_archive.
  fold (parents p) in Hl. rewrite Hl, removelast_last.
  rewrite (inside_archive_loop_wf fs l a Ha Hall).
  by destruct (existsb (triggers fs) l).
Qed.

Lemma detect_context_spec_witness :
  Scanner._detect_context ∅ (Path_of_string "/data/extracted/file.txt")
  = Ok "archived"
  /\ Scanner._detect_context ∅ (Path_of_string "/data/notes/file.txt")
     = Raise ValueError.
Proof.
  split.
  - rewrite (detect_context_spec ∅ (Path_of_string "/data/extracted/file.txt"));
      vm_compute; reflexivity.
  - rewrite (detect_context_spec ∅ (Path_of_string "/data/notes/file.txt"));
      vm_compute; reflexivity.
Defined.

(** ** Dry runs *)






Section DryRun.

Variable sha256 : string -> string.
Variable clock : nat -> N.
Variable json_dumps : Manifest -> string.





End DryRun.


(** ** [copy_verify_delete] under faults, and when nothing fails *)

Section MoveFacts.

Variable sha256 : string -> string.

(** X1. Whatever single fault hits a call of [copy_verify_delete] whose
    source is a regular file different from the destination and from the
    temporary path, all spelled as the kernel resolves them and within
    the limits on names: when the call raises, the source still holds its
    content and no temporary file is left; when it returns, it returns the
    source's size and the destination holds bytes with the source's
    digest.  The source is removed only in the second case. *)
Theorem copy_verify_delete_fault_safety
    (flt : fault) (src dst dst_tmp : Path) (fs : FS) (c : string) :
  node_at fs src = Some (File c) ->
  with_suffix dst (suffix dst +:+ ".tmp") = Ok dst_tmp ->
  src <> dst_tmp -> src <> dst ->
  resolved src = true -> resolved dst = true -> fits 0 dst_tmp = true ->
  let '(r, fs') := Applier.copy_verify_delete sha256 flt src dst fs in
  (node_at fs' src = Some (File c)
   \/ exists w, node_at fs' dst = Some (File w) /\ sha256 w = sha256 c)
  /\ (node_at fs' src = None -> exists n, r = Ok n)
  /\ match r with
     | Ok n =>
         n = String.length c
         /\ exists w, node_at fs' dst = Some (File w) /\ sha256 w = sha256 c
     | Raise _ =>
         node_at fs' src = Some (File c) /\ is_file fs' dst_tmp = false
     end.
Proof.
  intros Hsrc Htmp Hne1 Hne2 _ _ _.
  pose proof (copy_verify_delete_safe sha256 flt src dst dst_tmp fs c
                Hsrc Htmp Hne1 Hne2) as H.
  destruct (Applier.copy_verify_delete sha256 flt src dst fs) as [[n|e] fs'].
  - destruct H as (Hn & Hd & Hh & _). split; [|split].
    + right. eauto.
    + intros _. eauto.
    + split; [done|]. eauto.
  - destruct H as [Hs Ht]. split; [|split].
    + by left.
    + intros Habs. congruence.
    + done.
Qed.



End MoveFacts.

Lemma copy_verify_delete_fault_safety_witness :
  let '(r, fs') :=
    Applier.copy_verify_delete (fun s => s) RenameFault
      (Path_of_string "/r/b.txt") (Path_of_string "/r/dup/b.txt") scenario_A in
  (node_at fs' (Path_of_string "/r/b.txt") = Some (File "hello")
   \/ exists w, node_at fs' (Path_of_string "/r/dup/b.txt") = Some (File w)
                /\ w = "hello")
  /\ (node_at fs' (Path_of_string "/r/b.txt") = None -> exists n, r = Ok n)
  /\ match r with
     | Ok n =>
         n = String.length "hello"
         /\ exists w, node_at fs' (Path_of_string "/r/dup/b.txt") = Some (File w)
                      /\ w = "hello"
     | Raise _ =>
         node_at fs' (Path_of_string "/r/b.txt") = Some (File "hello")
         /\ is_file fs' (Path_of_string "/r/dup/b.txt.tmp") = false
     end.
Proof.
  apply (copy_verify_delete_fault_safety (fun s => s) RenameFault
           (Path_of_string "/r/b.txt") (Path_of_string "/r/dup/b.txt")
           (Path_of_string "/r/dup/b.txt.tmp") scenario_A "hello").
  - vm_compute. reflexivity.
  - vm_compute. reflexivity.
  - vm_compute. discriminate.
  - vm_compute. discriminate.
  - vm_compute. reflexivity.
  - vm_compute. reflexivity.
  - vm_compute. reflexivity.
Defined.


(** ** [ensure_unique] picks the first free sibling *)

(** X8. On an existing path [ensure_unique] returns the candidate
    [stem (j)suffix] with the least [j >= 1] that does not exist; the
    result lies in the same folder, is different from the path itself and
    does not exist. *)
Theorem ensure_unique_first_free (fs : FS) (dst : Path) :
  exists_ fs dst = true -> is_anchor dst = false ->
  exists j,
    1 <= j
    /\ Planner.ensure_unique fs dst = Planner.candidate dst j
    /\ (forall k, 1 <= k < j -> exists_ fs (Planner.candidate dst k) = true)
    /\ exists_ fs (Planner.candidate dst j) = false
    /\ parent (Planner.ensure_unique fs dst) = parent dst
    /\ name (Planner.ensure_unique fs dst)
       = stem dst +:+ " (" +:+ pretty j +:+ ")" +:+ suffix dst
    /\ Planner.ensure_unique fs dst <> dst.
Proof.
  intros Hex Ha.
  destruct (ensure_unique_present fs dst Hex) as (j & Hj & Heq & Hall).
  exists j. split; [done|]. split; [done|]. split; [done|].
  split; [rewrite <- Heq; apply ensure_unique_not_exists|].
  rewrite Heq. destruct (candidate_parent_name dst j) as [Hp Hn].
  split; [done|]. split; [done|]. by apply candidate_ne_self.
Qed.

Lemma ensure_unique_first_free_witness :
  exists j,
    1 <= j
    /\ Planner.ensure_unique scenario_A (Path_of_string "/r/a.txt")
       = Planner.candidate (Path_of_string "/r/a.txt") j
    /\ (forall k, 1 <= k < j ->
          exists_ scenario_A (Planner.candidate (Path_of_string "/r/a.txt") k)
          = true)
    /\ exists_ scenario_A (Planner.candidate (Path_of_string "/r/a.txt") j)
       = false
    /\ parent (Planner.ensure_unique scenario_A (Path_of_string "/r/a.txt"))
       = parent (Path_of_string "/r/a.txt")
    /\ name (Planner.ensure_unique scenario_A (Path_of_string "/r/a.txt"))
       = stem (Path_of_string "/r/a.txt") +:+ " (" +:+ pretty j +:+ ")"
         +:+ suffix (Path_of_string "/r/a.txt")
    /\ Planner.ensure_unique scenario_A (Path_of_string "/r/a.txt")
       <> Path_of_string "/r/a.txt".
Proof.
  apply (ensure_unique_first_free scenario_A (Path_of_string "/r/a.txt")).
  - vm_compute. reflexivity.
  - vm_compute. reflexivity.
Defined.

(** ** Apply, then roll back *)




Section RoundTrip.

Variable sha256 : string -> string.
Variable clock : nat -> N.
Variable json_dumps : Manifest -> string.



End RoundTrip.




(** ** Runs that move nothing, and runs that cannot write the checkpoint *)

Section ApplyEdges.

Variable sha256 : string -> string.
Variable clock : nat -> N.
Variable json_dumps : Manifest -> string.




End ApplyEdges.



(** ** The older applier across devices *)

Section LegacyCrossDevice.

Variable sha256 : string -> string.
Variable resolve_anchor : Path -> string.

(** X18. The copy branch of the older [copy_verify_delete] (source and
    destination on different anchors).  It never loses the source: when
    the call raises, the source still holds its content; when it returns,
    it returns the source's size, the destination holds bytes with the
    source's digest and the source is gone.  It copies straight onto the
    destination: when the destination can be opened (its folder is there,
    it is no directory, its name fits) and the copy breaks off after the
    bytes [w], the call raises and leaves the partial file [w] at the
    destination. *)
Theorem legacy_copy_keeps_source
    (flt : fault) (src dst : Path) (fs : FS) (c : string) :
  resolve_anchor src <> resolve_anchor dst ->
  node_at fs src = Some (File c) ->
  src <> dst ->
  let '(r, fs') :=
    Legacy.copy_verify_delete sha256 resolve_anchor flt src dst fs in
  match r with
  | Ok n =>
      n = String.length c
      /\ (exists w, node_at fs' dst = Some (File w) /\ sha256 w = sha256 c)
      /\ node_at fs' src = None
  | Raise _ => node_at fs' src = Some (File c)
  end
  /\ (forall w, flt = CopyFault w ->
        is_dir fs (parent dst) = true -> is_dir fs dst = false ->
        fits 0 dst = true ->
        r = Raise InjectedOSError /\ node_at fs' dst = Some (File w)).
Proof.
  intros Hanc Hsrc Hne.
  pose proof (node_at_file_not_anchor _ _ _ Hsrc) as Hsa.
  assert (dst <> src) as Hne' by congruence.
  unfold Legacy.copy_verify_delete.
  rewrite (proj2 (String.eqb_neq _ _) Hanc). cbn [negb].
  unfold Legacy.copy_direct, Legacy.fsync_dst, Legacy._sha256_file,
    bind, query, update, gets, ret, raise, stat_size, read_file.
  rewrite Hsrc. cbv beta iota.
  destruct (open_wb fs dst) as [fs1|e] eqn:Eo; cbv beta iota.
  2:{ split; [done|]. intros w _ Hd Hf _.
      rewrite (open_wb_over fs dst Hf Hd) in Eo. done. }
  apply open_wb_Ok in Eo as [-> Hda].
  rewrite node_at_insert_ne by done. rewrite Hsrc. cbv beta iota.
  destruct flt as [|w| |w| | |]; cbv beta iota;
    rewrite ?node_at_insert_eq by done; cbv beta iota;
    rewrite ?node_at_insert_ne by done; rewrite ?Hsrc; cbv beta iota;
    rewrite ?node_at_insert_eq by done; cbv beta iota;
    rewrite ?String.eqb_refl; cbn [negb]; cbv beta iota.
  - (* no fault *)
    unfold unlink. rewrite !node_at_insert_ne by done. rewrite Hsrc.
    cbv beta iota. split; [|done]. split; [done|]. split.
    + exists c. split; [|done]. rewrite node_at_delete_ne by done.
      by rewrite ?node_at_insert_eq.
    + by apply node_at_delete_eq.
  - (* the copy breaks off *)
    split.
    + rewrite ?node_at_insert_ne by done. done.
    + intros w' [= <-] _ _ _. split; [done|].
      rewrite ?node_at_insert_eq by done. done.
  - (* fsync fails *)
    split; [|done]. rewrite ?node_at_insert_ne by done. done.
  - (* corrupted bytes *)
    destruct (String.eqb (sha256 c) (sha256 w)) eqn:Eh; cbn [negb];
      cbv beta iota.
    + apply String.eqb_eq in Eh.
      unfold unlink. rewrite !node_at_insert_ne by done. rewrite Hsrc.
      cbv beta iota. split; [|done]. split; [done|]. split.
      * exists w. split; [|done]. rewrite node_at_delete_ne by done.
        by rewrite ?node_at_insert_eq.
      * by apply node_at_delete_eq.
    + unfold unlink_missing_ok. rewrite node_at_insert_eq by done.
      cbv beta iota. split; [|done].
      rewrite node_at_delete_ne by done.
      rewrite ?node_at_insert_ne by done. done.
  - (* rename fault: no rename on this branch *)
    unfold unlink. rewrite !node_at_insert_ne by done. rewrite Hsrc.
    cbv beta iota. split; [|done]. split; [done|]. split.
    + exists c. split; [|done]. rewrite node_at_delete_ne by done.
      by rewrite ?node_at_insert_eq.
    + by apply node_at_delete_eq.
  - (* removing the source fails *)
    split; [|done]. rewrite ?node_at_insert_ne by done. done.
  - (* the report line: nothing is printed on this branch *)
    unfold unlink. rewrite !node_at_insert_ne by done. rewrite Hsrc.
    cbv beta iota. split; [|done]. split; [done|]. split.
    + exists c. split; [|done]. rewrite node_at_delete_ne by done.
      by rewrite ?node_at_insert_eq.
    + by apply node_at_delete_eq.
Qed.

End LegacyCrossDevice.

(** Two drives: the file [b.txt] in a folder of the first, and an empty
    folder on the second.  The anchor of a path is its first part. *)
Definition two_drives : FS :=
  list_to_map [(["C:"], Dir); (["C:"; "r"], Dir);
               (["C:"; "r"; "b.txt"], File "hello");
               (["D:"], Dir); (["D:"; "dup"], Dir)].

Lemma legacy_copy_keeps_source_witness :
  let '(r, fs') :=
    Legacy.copy_verify_delete (fun s => s) (fun p => default "" (head p))
      (CopyFault "he") ["C:"; "r"; "b.txt"] ["D:"; "dup"; "b.txt"]
      two_drives in
  is_dir two_drives ["D:"; "dup"] = true
  /\ r = Raise InjectedOSError
  /\ node_at fs' ["C:"; "r"; "b.txt"] = Some (File "hello")
  /\ node_at fs' ["D:"; "dup"; "b.txt"] = Some (File "he").
Proof.
  pose proof (legacy_copy_keeps_source (fun s => s)
                (fun p => default "" (head p)) (CopyFault "he")
                ["C:"; "r"; "b.txt"] ["D:"; "dup"; "b.txt"] two_drives "hello"
                ltac:(vm_compute; discriminate) ltac:(vm_compute; reflexivity)
                ltac:(discriminate)) as H.
  destruct (Legacy.copy_verify_delete _ _ _ _ _ _) as [r fs'].
  destruct H as [H1 H2].
  destruct (H2 "he" eq_refl) as [Hr Hd];
    [vm_compute; reflexivity | vm_compute; reflexivity
     | vm_compute; reflexivity |].
  split; [vm_compute; reflexivity|]. split; [exact Hr|].
  split; [|exact Hd]. rewrite Hr in H1. exact H1.
Defined.

(** ** What a plan moves, and where to *)

Lemma insert_sorted_perm (x : string) (l : list string) :
  Cli.insert_sorted x l ≡ₚ x :: l.
Proof.
  induction l as [|y l IH]; [done|]. cbn [Cli.insert_sorted].
  destruct (String.leb x y); [done|].
  rewrite IH. apply Permutation_swap.
Qed.

Lemma sorted_perm (l : list string) : Cli.sorted l ≡ₚ l.
Proof.
  induction l as [|x l IH]; [done|].
  cbn [Cli.sorted fold_right]. fold (Cli.sorted l).
  by rewrite insert_sorted_perm, IH.
Qed.

Lemma plan_sources_src_paths (fs : FS) (t sha ctx : string)
      (srcs : list string) (rbk : nat) :
  map src_path (Cli.plan_sources fs t sha ctx srcs rbk).1 = srcs.
Proof.
  revert rbk. induction srcs as [|src srcs IH]; intros rbk; [done|].
  cbn [Cli.plan_sources]. specialize (IH (S rbk)).
  destruct (Cli.plan_sources fs t sha ctx srcs (S rbk)) as [rows rbk'].
  cbn [fst map src_path] in *. by rewrite IH.
Qed.

Lemma plan_groups_src_paths (fs : FS) (t : string)
      (dups : list (string * string * string)) (rbk : nat) :
  map src_path (Cli.plan_groups fs t dups rbk)
  = flat_map (fun d => tail (Cli.sorted (Py.split "|" d.2))) dups.
Proof.
  revert rbk. induction dups as [|[[sha ctx] csv] dups IH]; intros rbk; [done|].
  cbn [Cli.plan_groups flat_map snd].
  pose proof (plan_sources_src_paths fs t sha ctx
                (tail (Cli.sorted (Py.split "|" csv))) rbk) as Hs.
  destruct (Cli.plan_sources fs t sha ctx _ rbk) as [rows rbk'].
  cbn [fst] in Hs. by rewrite map_app, Hs, IH.
Qed.

Lemma members_paths_NoDup (st : DB.Store) (k : string * string) :
  DB.pk_unique st -> NoDup (map fr_path (DB.members st k)).
Proof.
  unfold DB.pk_unique, DB.members. induction st as [|r st IH]; [done|].
  cbn [map List.filter]. intros Hnd. apply NoDup_cons in Hnd as [Hr Hnd].
  destruct (bool_decide (DB.group_key r = k)); [|by apply IH].
  cbn [map]. apply NoDup_cons. split; [|by apply IH].
  intros Hin. apply Hr. apply list_elem_of_fmap in Hin as (r' & -> & Hr').
  apply list_elem_of_In, filter_In in Hr' as [Hr' _].
  apply list_elem_of_fmap. exists r'. split; [done|]. by apply list_elem_of_In.
Qed.

Lemma group_paths_split (st : DB.Store) (g : string * string * list string) :
  (forall r, r ∈ st -> Planner.has_char "|"%char (fr_path r) = false) ->
  g ∈ DB.duplicate_groups st ->
  Py.split "|" (Py.join "|" g.2) = g.2.
Proof.
  intros Hbar Hg. destruct g as [[sha ctx] paths].
  apply elem_of_duplicate_groups in Hg as [Hlen ->]. cbn [snd].
  apply split_join.
  - destruct (DB.members st (sha, ctx)); [cbn in Hlen; lia | done].
  - apply forallb_forall. intros p Hp. apply negb_true_iff.
    apply list_elem_of_In, list_elem_of_fmap in Hp as (r & -> & Hr).
    apply elem_of_members in Hr as [Hr _]. by apply Hbar.
Qed.

Lemma group_of_path (st : DB.Store) (g g' : string * string * list string)
      (p : string) :
  DB.pk_unique st ->
  g ∈ DB.duplicate_groups st -> g' ∈ DB.duplicate_groups st ->
  p ∈ g.2 -> p ∈ g'.2 -> g = g'.
Proof.
  intros Hpk Hg Hg' Hp Hp'.
  destruct g as [[sha ctx] paths], g' as [[sha' ctx'] paths'].
  apply elem_of_duplicate_groups in Hg as [_ ->].
  apply elem_of_duplicate_groups in Hg' as [_ ->]. cbn [snd] in Hp, Hp'.
  apply list_elem_of_fmap in Hp as (r & -> & Hr).
  apply list_elem_of_fmap in Hp' as (r' & Heq & Hr').
  apply elem_of_members in Hr as [Hr Hk].
  apply elem_of_members in Hr' as [Hr' Hk'].
  rewrite (NoDup_map_eq fr_path st r r' Hpk Hr Hr' Heq) in Hk.
  rewrite Hk in Hk'. by injection Hk' as <- <-.
Qed.

(** X9. What a plan moves.  When the paths of the store hold no ['|'] (the
    separator of [GROUP_CONCAT]), the sources of the planned rows are, group
    by group, all paths of the duplicate group but the first in sorted
    order; that keeper is the least path of its group, occurs once, and is
    the source of no row of the plan. *)
Theorem plan_moves_all_but_keeper (st : DB.Store) (fs : FS) (now : string) :
  DB.pk_unique st ->
  (forall r, r ∈ st -> Planner.has_char "|"%char (fr_path r) = false) ->
  map src_path (Cli.plan_rows st fs now)
  = flat_map (fun g => tail (Cli.sorted g.2)) (DB.duplicate_groups st)
  /\ forall g, g ∈ DB.duplicate_groups st ->
       exists k rest,
         Cli.keeper (Py.join "|" g.2) = Some k
         /\ Cli.sorted g.2 = k :: rest
         /\ (k :: rest) ≡ₚ g.2
         /\ (k ∉ rest)
         /\ (forall p, p ∈ g.2 -> String.leb k p = true)
         /\ k ∉ map src_path (Cli.plan_rows st fs now).
Proof.
  intros Hpk Hbar.
  assert (map src_path (Cli.plan_rows st fs now)
          = flat_map (fun g => tail (Cli.sorted g.2)) (DB.duplicate_groups st))
    as Hsrcs.
  { unfold Cli.plan_rows, DB.get_duplicates. rewrite plan_groups_src_paths.
    pose proof (group_paths_split st) as Hsplit.
    induction (DB.duplicate_groups st) as [|g gs IH]; [done|].
    cbn [map flat_map snd]. rewrite (Hsplit g Hbar) by left.
    f_equal. apply IH. intros g' Hb Hg'. apply Hsplit; [done|by right]. }
  split; [exact Hsrcs|].
  intros g Hg.
  assert (NoDup g.2) as Hnd.
  { destruct g as [[sha ctx] paths].
    pose proof Hg as Hg0. apply elem_of_duplicate_groups in Hg0 as [_ ->].
    by apply members_paths_NoDup. }
  pose proof (sorted_perm g.2) as Hperm.
  destruct (Cli.sorted g.2) as [|k rest] eqn:Es.
  { exfalso. apply Permutation_nil_l in Hperm.
    destruct g as [[sha ctx] paths].
    apply elem_of_duplicate_groups in Hg as [Hlen Hp]. cbn [snd] in Hperm.
    rewrite Hp in Hperm. destruct (DB.members st (sha, ctx)); [cbn in Hlen; lia|done]. }
  assert (NoDup (k :: rest)) as Hnd' by by rewrite Hperm.
  apply NoDup_cons in Hnd' as [Hk _].
  exists k, rest.
  split; [unfold Cli.keeper; by rewrite (group_paths_split st g Hbar Hg), Es|].
  split; [done|]. split; [done|]. split; [done|]. split.
  - apply head_sorted_le. by rewrite Es.
  - rewrite Hsrcs. intros Hin.
    apply list_elem_of_In, in_flat_map in Hin as (g' & Hg' & Hin).
    apply list_elem_of_In in Hg', Hin.
    assert (k ∈ g'.2) as Hk'.
    { rewrite <- (sorted_perm g'.2).
      destruct (Cli.sorted g'.2); [by apply elem_of_nil in Hin|].
      by right. }
    assert (k ∈ g.2) as Hkg by (rewrite <- Hperm; left).
    rewrite <- (group_of_path st g g' k Hpk Hg Hg' Hkg Hk') in Hin.
    rewrite Es in Hin. done.
Qed.

Lemma plan_moves_all_but_keeper_witness :
  map src_path (Cli.plan_rows witness_store scenario_A "t")
  = flat_map (fun g => tail (Cli.sorted g.2)) (DB.duplicate_groups witness_store).
Proof.
  apply (proj1 (plan_moves_all_but_keeper witness_store scenario_A "t"
                  ltac:(unfold DB.pk_unique; apply (bool_decide_unpack _);
                        vm_compute; exact I)
                  ltac:(apply Forall_forall; apply (bool_decide_unpack _);
                        vm_compute; exact I))).
Defined.

(** ** Rollback keys *)

Lemma pretty_N_go_head (n : N) (s : string) :
  (0 < n)%N ->
  exists c t, pretty_N_go n s = String c t /\ c <> "0"%char.
Proof.
  revert s. induction n as [n IH] using (well_founded_ind N.lt_wf_0).
  intros s Hn. rewrite pretty_N_go_step by done.
  destruct (decide (n `div` 10 = 0)%N) as [E|E].
  - rewrite E, pretty_N_go_0. eexists _, _. split; [done|].
    assert (n < 10)%N as Hlt by (by apply N.div_small_iff in E).
    rewrite N.mod_small by done. unfold pretty_N_char.
    destruct n as [|p]; [lia|].
    repeat (destruct p as [p|p|]; try done; try lia).
  - apply IH; [apply N.div_lt; lia | by apply N.neq_0_lt_0].
Qed.

Lemma pretty_nat_head (n : nat) :
  exists c t, pretty n = String c t /\ (c = "0"%char -> n = 0).
Proof.
  change (pretty n) with (pretty_N (N.of_nat n)). unfold pretty_N.
  destruct (decide (N.of_nat n = 0%N)) as [E|E].
  - exists "0"%char, "". split; [done|]. lia.
  - destruct (pretty_N_go_head (N.of_nat n) "") as (c & t & -> & Hc); [lia|].
    exists c, t. split; [done|]. done.
Qed.

Lemma zeros_app_inv (a b : nat) (s t : string) :
  a <= b -> Py.zeros a +:+ s = Py.zeros b +:+ t -> s = Py.zeros (b - a) +:+ t.
Proof.
  revert b. induction a as [|a IH]; intros b Hle H.
  - rewrite Nat.sub_0_r. exact H.
  - destruct b as [|b]; [lia|]. cbn [Py.zeros] in H. rewrite !app_cons in H.
    injection H as H. apply IH in H; [|lia]. done.
Qed.

Lemma pad06_inj : Inj (=) (=) Py.pad06.
Proof.
  assert (forall n m,
             6 - String.length (pretty n) <= 6 - String.length (pretty m) ->
             Py.pad06 n = Py.pad06 m -> n = m) as Hle.
  { intros n m Hlen H. unfold Py.pad06 in H. cbv zeta in H.
    apply zeros_app_inv in H; [|done].
    destruct (6 - String.length (pretty m) - (6 - String.length (pretty n)))
      as [|k] eqn:Ek.
    - cbn [Py.zeros] in H. rewrite app_nil_l_str in H.
      by apply (inj pretty) in H.
    - exfalso. destruct (pretty_nat_head n) as (c & t & Hn & Hc).
      destruct (pretty_nat_head m) as (c' & t' & Hm & _).
      rewrite Hn, Hm in H. cbn [Py.zeros] in H. rewrite app_cons in H.
      injection H as -> Ht. rewrite (Hc eq_refl) in Hn.
      change (pretty 0) with "0" in Hn. injection Hn as <-.
      by destruct k. }
  intros n m H.
  destruct (Nat.le_ge_cases (6 - String.length (pretty n))
                            (6 - String.length (pretty m))) as [L|L].
  - by apply Hle.
  - symmetry. by apply Hle.
Qed.

(** X11. The rollback keys of a plan are pairwise distinct, also beyond the
    six digits of the padding. *)
Theorem plan_rollback_keys_distinct (st : DB.Store) (fs : FS) (now : string) :
  NoDup (map rollback_key (Cli.plan_rows st fs now)).
Proof.
  apply NoDup_alt. intros i j k Hi Hj.
  apply list_lookup_fmap_Some in Hi as (ri & -> & Hi).
  apply list_lookup_fmap_Some in Hj as (rj & Hk & Hj).
  apply plan_groups_rows in Hi as [_ Hi]. apply plan_groups_rows in Hj as [_ Hj].
  rewrite Hi, Hj in Hk. cbn in Hk.
  change ("rbk:" +:+ Py.pad06 i = "rbk:" +:+ Py.pad06 j) in Hk.
  apply String.app_inj in Hk. by apply pad06_inj in Hk.
Qed.

(** ** Where a plan moves to *)

(** The destination [cmd_plan] computes for a source. *)
Definition planned_dst (fs : FS) (src : string) : Path :=
  let srcp := Path_of_string src in
  Planner.ensure_unique fs
    (joinpath (joinpath (parent srcp) ".deduplab_duplicates") (name srcp)).

Lemma plan_sources_lookup (fs : FS) (t sha ctx : string) (srcs : list string)
      (rbk i : nat) (row : PlanRow) :
  (Cli.plan_sources fs t sha ctx srcs rbk).1 !! i = Some row ->
  status row = "planned" /\ op row = "move" /\ reason row = "dedup"
  /\ content_id row = "b3:sha256:" +:+ sha +:+ ":ctx:" +:+ ctx
  /\ dst_path row = str (planned_dst fs (src_path row)).
Proof.
  revert rbk i. induction srcs as [|src srcs IH]; intros rbk i.
  - by destruct i.
  - cbn [Cli.plan_sources]. specialize (IH (S rbk)).
    destruct (Cli.plan_sources fs t sha ctx srcs (S rbk)) as [rows rbk'].
    cbn [fst] in *. destruct i as [|i]; cbn.
    + by intros [= <-].
    + apply IH.
Qed.

Lemma plan_groups_lookup (fs : FS) (t : string)
      (dups : list (string * string * string)) (rbk i : nat) (row : PlanRow) :
  Cli.plan_groups fs t dups rbk !! i = Some row ->
  status row = "planned" /\ op row = "move" /\ reason row = "dedup"
  /\ dst_path row = str (planned_dst fs (src_path row)).
Proof.
  revert rbk i. induction dups as [|[[sha ctx] csv] dups IH]; intros rbk i.
  - by destruct i.
  - cbn [Cli.plan_groups].
    pose proof (plan_sources_lookup fs t sha ctx
                  (tail (Cli.sorted (Py.split "|" csv))) rbk) as Hs.
    destruct (Cli.plan_sources fs t sha ctx _ rbk) as [rows rbk'].
    cbn [fst] in Hs. intros H. apply lookup_app_Some in H as [H|[_ H]].
    + destruct (Hs _ _ H) as (? & ? & ? & _ & ?). done.
    + by eapply IH.
Qed.

Lemma wf_planned_target (srcp : Path) :
  wf_path srcp = true ->
  wf_path (joinpath (joinpath (parent srcp) ".deduplab_duplicates")
                    (name srcp)) = true.
Proof.
  intros Hwf.
  assert (wf_path (joinpath (parent srcp) ".deduplab_duplicates") = true) as H1.
  { change (joinpath (parent srcp) ".deduplab_duplicates")
      with (parent srcp ++ [".deduplab_duplicates"]).
    apply wf_path_app; [by apply wf_path_parent | done]. }
  unfold joinpath at 1. destruct (String.eqb (name srcp) "") eqn:E; [done|].
  apply wf_path_app; [done|].
  destruct (is_anchor srcp) eqn:Ha.
  - rewrite name_anchor in E by done. done.
  - by apply wf_path_name.
Qed.

Lemma wf_ensure_unique (fs : FS) (p : Path) :
  wf_path p = true -> wf_path (Planner.ensure_unique fs p) = true.
Proof.
  intros H. destruct (exists_ fs p) eqn:E.
  - destruct (ensure_unique_present fs p E) as (j & _ & -> & _).
    by apply wf_path_candidate.
  - by rewrite ensure_unique_absent.
Qed.

Lemma ensure_unique_parent (fs : FS) (p : Path) :
  parent (Planner.ensure_unique fs p) = parent p.
Proof.
  destruct (exists_ fs p) eqn:E.
  - destruct (ensure_unique_present fs p E) as (j & _ & -> & _).
    apply candidate_parent_name.
  - by rewrite ensure_unique_absent.
Qed.

(** X10. Where a plan moves to.  Every row of a plan is a planned move whose
    destination does not exist when the plan is made; when the source has
    a name, the destination lies in the folder [.deduplab_duplicates] next
    to the source, under the source's name if that is free there, and a
    scan with the default ignore patterns skips it. *)
Theorem plan_destinations
    (st : DB.Store) (fs : FS) (now : string) (i : nat) (row : PlanRow) :
  Cli.plan_rows st fs now !! i = Some row ->
  let srcp := Path_of_string (src_path row) in
  let dst := Path_of_string (dst_path row) in
  status row = "planned" /\ op row = "move"
  /\ Applier.is_planned_move row = true
  /\ exists_ fs dst = false
  /\ (is_anchor srcp = false ->
      parent dst = parent srcp ++ [".deduplab_duplicates"]
      /\ Scanner._should_skip dst Config.ignore_patterns = true
      /\ (exists_ fs (parent srcp ++ [".deduplab_duplicates"; name srcp])
          = false ->
          dst = parent srcp ++ [".deduplab_duplicates"; name srcp])).
Proof.
  intros Hrow srcp dst.
  apply plan_groups_lookup in Hrow as (Hst & Hop & _ & Hdst).
  assert (wf_path srcp = true) as Hwf by apply Path_of_string_wf.
  pose proof (wf_planned_target srcp Hwf) as Hwt.
  assert (dst = planned_dst fs (src_path row)) as Hd.
  { unfold dst. rewrite Hdst. apply Path_of_string_str.
    by apply wf_ensure_unique. }
  split; [done|]. split; [done|].
  split; [unfold Applier.is_planned_move; by rewrite Hst, Hop|].
  split; [rewrite Hd; apply ensure_unique_not_exists|].
  intros Ha.
  pose proof (wf_component_not_slash _ (wf_path_name srcp Hwf Ha)) as [Hn1 Hn2].
  assert (joinpath (joinpath (parent srcp) ".deduplab_duplicates") (name srcp)
          = parent srcp ++ [".deduplab_duplicates"; name srcp]) as Ht.
  { unfold joinpath at 1. rewrite (proj2 (String.eqb_neq _ _) Hn2).
    change (joinpath (parent srcp) ".deduplab_duplicates")
      with (parent srcp ++ [".deduplab_duplicates"]).
    by rewrite <- app_assoc. }
  assert (parent dst = parent srcp ++ [".deduplab_duplicates"]) as Hp.
  { rewrite Hd. unfold planned_dst. cbv zeta. fold srcp.
    rewrite ensure_unique_parent, Ht.
    change (parent srcp ++ [".deduplab_duplicates"; name srcp])
      with (parent srcp ++ [".deduplab_duplicates"] ++ [name srcp]).
    rewrite app_assoc. by apply parent_snoc. }
  split; [done|]. split.
  - apply should_skip_true. exists ".deduplab_duplicates". split.
    + unfold Config.ignore_patterns. do 3 right. left.
    + assert (is_anchor dst = false) as Hda.
      { apply (node_at_None_not_anchor fs), exists_false_None.
        rewrite Hd. apply ensure_unique_not_exists. }
      rewrite (path_parent_name dst Hda), Hp.
      apply elem_of_app. left. apply elem_of_app. right. left.
  - intros Hfree. rewrite Hd. unfold planned_dst. cbv zeta. fold srcp.
    rewrite Ht. by apply ensure_unique_absent.
Qed.

Lemma plan_destinations_witness :
  Path_of_string
    (dst_path (move_row "/r/b.txt" "/r/.deduplab_duplicates/b.txt"))
  = parent (Path_of_string "/r/b.txt") ++ [".deduplab_duplicates"; "b.txt"].
Proof.
  pose proof (plan_destinations witness_store scenario_A
                "2025-01-01T00:00:00Z" 0
                (move_row "/r/b.txt" "/r/.deduplab_duplicates/b.txt")) as H.
  destruct H as (_ & _ & _ & _ & H); [vm_compute; reflexivity|].
  destruct H as (_ & _ & H); [vm_compute; reflexivity|].
  apply H. vm_compute. reflexivity.
Defined.

(** ** What a run leaves alone *)

(** [frame S fs fs']: every regular file of [fs] outside [S] is still
    there in [fs'] with its content. *)
Definition frame (S : list Path) (fs fs' : FS) : Prop :=
  forall q c, q ∉ S -> node_at fs q = Some (File c) ->
              node_at fs' q = Some (File c).

(** A computation that, started in a state with [P], keeps the regular
    files outside [S], and establishes [Q] when it returns. *)
Definition triple (S : list Path) (P : FS -> Prop) {A} (m : M A)
           (Q : FS -> Prop) : Prop :=
  forall fs, P fs ->
    frame S fs (m fs).2 /\ (is_ok (m fs).1 = true -> Q (m fs).2).

Lemma frame_refl (S : list Path) (fs : FS) : frame S fs fs.
Proof. by intros q c _ H. Qed.

Lemma frame_trans (S : list Path) (fs1 fs2 fs3 : FS) :
  frame S fs1 fs2 -> frame S fs2 fs3 -> frame S fs1 fs3.
Proof. intros H1 H2 q c Hq H. by apply H2, H1. Qed.

Lemma frame_insert (S : list Path) (fs : FS) (p : Path) (n : node) :
  p ∈ S -> frame S fs (<[p := n]> fs).
Proof.
  intros Hp q c Hq H. rewrite node_at_insert_ne; [done|]. by intros ->.
Qed.

Lemma frame_delete (S : list Path) (fs : FS) (p : Path) :
  p ∈ S -> frame S fs (delete p fs).
Proof.
  intros Hp q c Hq H. rewrite node_at_delete_ne; [done|]. by intros ->.
Qed.

Section Triples.

Context {A B : Type}.
Variable S : list Path.

Lemma triple_ret (P : FS -> Prop) (a : A) : triple S P (ret a) P.
Proof. intros fs HP. split; [apply frame_refl | done]. Qed.

Lemma triple_raise (P Q : FS -> Prop) (e : exn) :
  triple S P (raise e : M A) Q.
Proof. intros fs HP. split; [apply frame_refl | done]. Qed.

Lemma triple_query (P : FS -> Prop) (f : FS -> result A) :
  triple S P (query f) P.
Proof. intros fs HP. split; [apply frame_refl | done]. Qed.

Lemma triple_gets (P : FS -> Prop) (f : FS -> A) : triple S P (gets f) P.
Proof. intros fs HP. split; [apply frame_refl | done]. Qed.

Lemma triple_bind (P Q R : FS -> Prop) (m : M A) (k : A -> M B) :
  triple S P m Q -> (forall a, triple S Q (k a) R) ->
  triple S P (bind m k) R.
Proof.
  intros Hm Hk fs HP. unfold bind. destruct (Hm fs HP) as [F1 Q1].
  destruct (m fs) as [[a|e] fs1]; cbn [fst snd] in *.
  - destruct (Hk a fs1 (Q1 eq_refl)) as [F2 Q2].
    split; [by eapply frame_trans | done].
  - split; [done | done].
Qed.

Lemma triple_try (P Q : FS -> Prop) (m : M A) (h : exn -> M A) :
  triple S P m Q -> (forall e, triple S (fun _ => True) (h e) Q) ->
  triple S P (try_except m h) Q.
Proof.
  intros Hm Hh fs HP. unfold try_except. destruct (Hm fs HP) as [F1 Q1].
  destruct (m fs) as [[a|e] fs1]; cbn [fst snd] in *.
  - split; [done | done].
  - destruct (Hh e fs1 I) as [F2 Q2].
    split; [by eapply frame_trans | done].
Qed.

Lemma triple_weaken (P P' Q Q' : FS -> Prop) (m : M A) :
  (forall fs, P' fs -> P fs) -> (forall fs, Q fs -> Q' fs) ->
  triple S P m Q -> triple S P' m Q'.
Proof.
  intros HP HQ Hm fs HP'. destruct (Hm fs (HP fs HP')) as [F1 Q1].
  split; [done|]. intros Hok. by apply HQ, Q1.
Qed.

End Triples.

Lemma triple_update (S : list Path) (P Q : FS -> Prop)
      (f : FS -> result FS) :
  (forall fs fs', P fs -> f fs = Ok fs' -> frame S fs fs' /\ Q fs') ->
  triple S P (update f) Q.
Proof.
  intros Hf fs HP. unfold update. destruct (f fs) as [fs'|e] eqn:E;
    cbn [fst snd].
  - destruct (Hf fs fs' HP E) as [F1 Q1]. done.
  - split; [apply frame_refl | done].
Qed.

Lemma frame_mkdir_parents (S : list Path) (fs fs' : FS) (p : Path) :
  mkdir_parents fs p = Ok fs' -> frame S fs fs'.
Proof. intros H q c _ Hq. by eapply mkdir_parents_preserves. Qed.

Lemma frame_open_wb (S : list Path) (fs fs' : FS) (p : Path) :
  p ∈ S -> open_wb fs p = Ok fs' -> frame S fs fs' /\ is_anchor p = false.
Proof.
  intros Hp H. apply open_wb_Ok in H as [-> Ha].
  split; [by apply frame_insert | done].
Qed.

Lemma frame_unlink (S : list Path) (fs fs' : FS) (p : Path) :
  p ∈ S -> unlink fs p = Ok fs' -> frame S fs fs'.
Proof.
  intros Hp. unfold unlink. destruct (node_at fs p) as [[|]|]; [|done..].
  intros [= <-]. by apply frame_delete.
Qed.

Lemma frame_unlink_missing_ok (S : list Path) (fs fs' : FS) (p : Path) :
  p ∈ S -> unlink_missing_ok fs p = Ok fs' -> frame S fs fs'.
Proof.
  intros Hp. unfold unlink_missing_ok.
  destruct (node_at fs p) as [[|]|]; [|done|]; intros [= <-];
    [by apply frame_delete | apply frame_refl].
Qed.

Lemma frame_rename_file (S : list Path) (fs fs' : FS) (a b : Path)
      (w : string) :
  a ∈ S -> b ∈ S -> node_at fs a = Some (File w) ->
  rename fs a b = Ok fs' -> frame S fs fs'.
Proof.
  intros Ha Hb Hw. unfold rename.
  rewrite (node_at_file_not_anchor _ _ _ Hw), Hw.
  destruct (node_at fs b) as [[|]|];
    destruct (node_at fs (parent b)) as [[|]|]; try done;
    intros [= <-];
    (eapply frame_trans; [by apply (frame_delete S fs a)
                         | by apply frame_insert]).
Qed.

Section CopyVerifyDeleteFrame.

Variable sha256 : string -> string.

Lemma triple_cleanup_raise (S : list Path) (tmp : Path) (e : exn)
      (Q : FS -> Prop) :
  tmp ∈ S ->
  triple S (fun _ => True) (Applier.cleanup_tmp tmp ;;; raise e)%fsm
         (A := unit) Q.
Proof.
  intros Ht. eapply triple_bind; [|intros _; apply triple_raise].
  apply triple_update. intros fs fs' _ H.
  split; [by eapply frame_unlink_missing_ok | exact I].
Qed.

Lemma triple_sha256_file (S : list Path) (P : FS -> Prop) (p : Path) :
  triple S P (Applier._sha256_file sha256 p) P.
Proof.
  eapply triple_bind; [apply triple_query|]. intros c. apply triple_ret.
Qed.

Lemma triple_copy_to_tmp (S : list Path) (flt : fault) (src tmp : Path) :
  tmp ∈ S ->
  triple S (fun _ => True) (Applier.copy_to_tmp flt src tmp)
         (fun fs => exists w, node_at fs tmp = Some (File w)).
Proof.
  intros Ht. unfold Applier.copy_to_tmp.
  eapply triple_bind; [apply triple_query|]. intros _.
  eapply (triple_bind S _ (fun _ => is_anchor tmp = false)).
  { apply triple_update. intros fs fs' _ H.
    by apply frame_open_wb. }
  intros _. eapply triple_bind; [apply triple_query|]. intros c.
  assert (forall w, triple S (fun _ => is_anchor tmp = false)
                      (update (fun fs => Ok (<[tmp := File w]> fs)))
                      (fun fs => exists w, node_at fs tmp = Some (File w)))
    as Hins.
  { intros w. apply triple_update. intros fs fs' Ha [= <-].
    split; [by apply frame_insert|]. exists w. by apply node_at_insert_eq. }
  destruct flt; try apply Hins.
  eapply triple_bind; [apply Hins|]. intros _. apply triple_raise.
Qed.

Lemma triple_three_phase (flt : fault) (src dst tmp : Path) :
  triple [src; dst; tmp] (fun _ => True)
         (Applier.three_phase sha256 flt src dst tmp) (fun _ => True).
Proof.
  set (S := [src; dst; tmp]).
  assert (src ∈ S) as Hs by (unfold S; left).
  assert (dst ∈ S) as Hd by (unfold S; right; left).
  assert (tmp ∈ S) as Ht by (unfold S; do 2 right; left).
  set (Q := fun fs : FS => exists w, node_at fs tmp = Some (File w)).
  unfold Applier.three_phase.
  eapply (triple_bind S _ (fun _ => True)).
  { apply triple_update. intros fs fs' _ H.
    split; [by eapply frame_mkdir_parents | exact I]. }
  intros _. eapply triple_bind; [apply triple_query|]. intros size.
  eapply (triple_bind S _ Q).
  { apply triple_try; [by apply triple_copy_to_tmp|].
    intros e. apply triple_raise. }
  intros _. eapply (triple_bind S _ Q).
  { apply triple_try.
    - unfold Applier.fsync_tmp.
      eapply triple_bind; [apply triple_query|]. intros _.
      destruct flt; apply triple_ret || apply triple_raise.
    - intros e. by apply triple_cleanup_raise. }
  intros _. eapply triple_bind; [apply triple_sha256_file|]. intros h1.
  eapply triple_bind; [apply triple_sha256_file|]. intros h2.
  eapply (triple_bind S _ Q).
  { destruct (negb (String.eqb h1 h2)); [|apply triple_ret].
    eapply triple_weaken; [| |by apply (triple_cleanup_raise S tmp _ Q)];
      done. }
  intros _. eapply (triple_bind S _ (fun _ => True)).
  { apply triple_try.
    - unfold Applier.rename_tmp. destruct flt; try apply triple_raise;
        (apply triple_update; intros fs fs' [w Hw] H;
         split; [exact (frame_rename_file S fs fs' tmp dst w Ht Hd Hw H)
                | exact I]).
    - intros e. by apply triple_cleanup_raise. }
  intros _. eapply (triple_bind S _ (fun _ => True)).
  { apply triple_try; [|intros e; apply triple_ret].
    unfold Applier.unlink_src. destruct flt; try apply triple_raise;
      (apply triple_update; intros fs fs' _ H;
       split; [exact (frame_unlink S fs fs' src Hs H) | exact I]). }
  intros _. apply triple_ret.
Qed.

(** Under every fault and in every state, [copy_verify_delete] keeps
    every regular file other than the source, the destination and the
    temporary path. *)
Lemma copy_verify_delete_frame (flt : fault) (src dst : Path) (fs : FS)
      (q : Path) (c : string) :
  node_at fs q = Some (File c) ->
  q <> src -> q <> dst ->
  (forall tmp, with_suffix dst (suffix dst +:+ ".tmp") = Ok tmp -> q <> tmp) ->
  node_at (Applier.copy_verify_delete sha256 flt src dst fs).2 q
  = Some (File c).
Proof.
  intros Hq Hqs Hqd Hqt. unfold Applier.copy_verify_delete.
  destruct (with_suffix dst (suffix dst +:+ ".tmp")) as [tmp|e] eqn:Ews;
    [|done].
  specialize (Hqt tmp eq_refl).
  assert (triple [src; dst; tmp] (fun _ => True)
            (try_except (Applier.three_phase sha256 flt src dst tmp)
               (fun e =>
                  (ex <- gets (fun fs => exists_ fs tmp) ;;
                   (if ex then
                      try_except (update (fun fs => unlink fs tmp))
                                 (fun _ => ret tt)
                    else ret tt) ;;;
                   raise e)%fsm))
            (fun _ => True)) as H.
  { apply triple_try; [apply triple_three_phase|]. intros e.
    eapply triple_bind; [apply triple_gets|]. intros ex.
    eapply (triple_bind _ _ (fun _ => True)); [|intros _; apply triple_raise].
    destruct ex; [|apply triple_ret].
    apply triple_try; [|intros e'; apply triple_ret].
    apply triple_update. intros fs0 fs' _ Hu.
    split; [|exact I]. eapply frame_unlink; [|exact Hu]. do 2 right. left. }
  destruct (H fs I) as [F _]. apply F; [|done].
  intros Hin. repeat (apply elem_of_cons in Hin as [Hin|Hin]; [done|]).
  by apply elem_of_nil in Hin.
Qed.

End CopyVerifyDeleteFrame.

Lemma rev_app_str (s t : string) :
  String.rev (s +:+ t) = String.rev t +:+ String.rev s.
Proof.
  induction s as [|a s IH].
  - rewrite app_nil_l_str. change (String.rev "") with "".
    by rewrite app_nil_r_str.
  - rewrite app_cons, !rev_cons_str, IH. by rewrite str_app_assoc.
Qed.

Lemma prefix_app_str (s t : string) : String.prefix s (s +:+ t) = true.
Proof.
  induction s as [|a s IH].
  - rewrite app_nil_l_str. by destruct t.
  - rewrite app_cons. cbn [String.prefix].
    by destruct (ascii_dec a a).
Qed.

Lemma endswith_app (s t : string) : Py.endswith (s +:+ t) t = true.
Proof. unfold Py.endswith. rewrite rev_app_str. apply prefix_app_str. Qed.

(** The temporary path of a destination has a name that ends in [.tmp]. *)
Lemma tmp_name_endswith (dst tmp : Path) :
  with_suffix dst (suffix dst +:+ ".tmp") = Ok tmp ->
  Py.endswith (name tmp) ".tmp" = true.
Proof.
  intros H. destruct (tmp_is_sibling dst tmp H) as (-> & _ & _ & _).
  rewrite name_snoc; [apply endswith_app|].
  intros E. apply (f_equal String.length) in E.
  rewrite str_length_app in E. cbn in E. lia.
Qed.

Section RunFrame.

Variable sha256 : string -> string.
Variable clock : nat -> N.
Variable json_dumps : Manifest -> string.

Lemma apply_one_frame (dry_run : bool) (flt : fault) (now : N)
      (src dst : Path) (fs : FS) (q : Path) (c : string) :
  node_at fs q = Some (File c) ->
  q <> src ->
  Py.endswith (name q) ".tmp" = false ->
  node_at (Applier.apply_one sha256 dry_run flt now src dst fs).2 q
  = Some (File c).
Proof.
  intros Hq Hqs Hqn.
  destruct (exists_ fs src) eqn:Hex.
  2:{ unfold Applier.apply_one, bind, gets, ret. by rewrite Hex. }
  destruct (mkdir_parents fs (parent dst)) as [fs1|e] eqn:Hmk.
  2:{ unfold Applier.apply_one, bind, gets, update, ret.
      rewrite Hex. cbn [negb]. cbv beta iota. by rewrite Hmk. }
  pose proof (mkdir_parents_preserves _ _ _ Hmk _ _ Hq) as Hq1.
  destruct dry_run.
  - unfold Applier.apply_one, bind, gets, update, query, ret.
    rewrite Hex. cbn [negb]. cbv beta iota. rewrite Hmk. cbv beta iota.
    destruct (exists_ fs1 dst); cbv beta iota;
      by destruct (stat_size fs1 src).
  - rewrite (apply_one_unfold sha256 flt now src dst fs fs1 Hex Hmk).
    pose proof (copy_verify_delete_frame sha256 flt src (final_dst fs1 dst)
                  fs1 q c Hq1 Hqs) as Hf.
    destruct (Applier.copy_verify_delete sha256 flt src (final_dst fs1 dst) fs1)
      as [[n|e] fs2]; cbn [snd] in *; apply Hf.
    all: try (intros E; pose proof (final_dst_free fs1 dst) as Hfree;
              rewrite <- E in Hfree; unfold exists_ in Hfree;
              by rewrite Hq1 in Hfree).
    all: intros tmp Htmp E; apply tmp_name_endswith in Htmp; congruence.
Qed.

Lemma apply_row_snd (dry_run : bool) (flt : fault) (now : N)
      (row : PlanRow) (a : Applier.Acc) (fs : FS) :
  (Applier.apply_row sha256 dry_run flt now row a fs).2
  = if Applier.is_planned_move row
    then (Applier.apply_one sha256 dry_run flt now
            (Path_of_string (src_path row)) (Path_of_string (dst_path row))
            fs).2
    else fs.
Proof.
  unfold Applier.apply_row.
  destruct (Applier.is_planned_move row); cbn [negb]; [|done].
  by destruct (Applier.apply_one sha256 dry_run flt now _ _ fs)
    as [[[| |e]|] fs'].
Qed.

Lemma apply_loop_frame (dry_run : bool) (faults : nat -> fault) (k : nat)
      (rows : list PlanRow) (a : Applier.Acc) (fs : FS) (q : Path)
      (c : string) :
  node_at fs q = Some (File c) ->
  (forall row, row ∈ rows -> Applier.is_planned_move row = true ->
               Path_of_string (src_path row) <> q) ->
  Py.endswith (name q) ".tmp" = false ->
  node_at (Applier.apply_loop sha256 clock dry_run faults k rows a fs).2 q
  = Some (File c).
Proof.
  revert k a fs. induction rows as [|row rows IH]; intros k a fs Hq Hrows Hqn;
    [done|].
  cbn [Applier.apply_loop].
  pose proof (apply_row_snd dry_run (faults k) (clock k) row a fs) as Hsnd.
  destruct (Applier.apply_row sha256 dry_run (faults k) (clock k) row a fs)
    as [a1 fs1]. cbn [snd] in Hsnd.
  apply IH; [|intros r Hr; apply Hrows; by right|done].
  rewrite Hsnd. destruct (Applier.is_planned_move row) eqn:Ep; [|done].
  apply apply_one_frame; [done| |done].
  intros E. by apply (Hrows row ltac:(left) Ep).
Qed.

(** X19. What a run leaves alone.  For every plan, under every fault and in
    a dry run as in a real one, a regular file that is not the source of a
    planned move row, whose name does not end in [.tmp] and that is not
    the checkpoint keeps its content through [apply_moves], whether the
    call returns or raises.  The file, the sources of the planned rows
    and the checkpoint are spelled as the kernel resolves them, so that
    paths that differ name different files. *)
Theorem apply_moves_leaves_other_files
    (rows : list PlanRow) (checkpoint : Path) (dry_run : bool)
    (faults : nat -> fault) (fs : FS) (q : Path) (c : string) :
  node_at fs q = Some (File c) ->
  (forall row, row ∈ rows -> Applier.is_planned_move row = true ->
               Path_of_string (src_path row) <> q
               /\ resolved (Path_of_string (src_path row)) = true) ->
  Py.endswith (name q) ".tmp" = false ->
  q <> checkpoint ->
  resolved q = true -> resolved checkpoint = true ->
  node_at (Applier.apply_moves sha256 clock json_dumps rows checkpoint
             dry_run faults fs).2 q
  = Some (File c).
Proof.
  intros Hq Hrows' Hqn Hqc _ _.
  assert (forall row, row ∈ rows -> Applier.is_planned_move row = true ->
            Path_of_string (src_path row) <> q) as Hrows
    by (intros row Hin Hp; by destruct (Hrows' row Hin Hp)).
  pose proof (apply_loop_frame dry_run faults 0 rows Applier.acc0 fs q c
                Hq Hrows Hqn) as Hloop.
  unfold Applier.apply_moves.
  destruct (Applier.apply_loop sha256 clock dry_run faults 0 rows
              Applier.acc0 fs) as [a fs1]. cbn [snd] in Hloop.
  match goal with
  | |- node_at (?m fs1).2 q = _ =>
      assert (triple [checkpoint] (fun _ => True) m (fun _ => True)) as H
  end.
  { eapply (triple_bind _ _ (fun _ => True)).
    { apply triple_update. intros f f' _ Hm.
      split; [by eapply frame_mkdir_parents | exact I]. }
    intros _. eapply (triple_bind _ _ (fun _ => True)).
    { apply triple_update. intros f f' _ Ho.
      split; [|exact I]. eapply frame_open_wb; [|exact Ho]. left. }
    intros _. eapply (triple_bind _ _ (fun _ => True)).
    { apply triple_update. intros f f' _ [= <-].
      split; [|exact I]. apply frame_insert. left. }
    intros _. apply triple_ret. }
  destruct (H fs1 I) as [F _]. apply F; [|done].
  intros Hin. apply list_elem_of_singleton in Hin. done.
Qed.

End RunFrame.

Lemma apply_moves_leaves_other_files_witness :
  node_at (Applier.apply_moves (fun s => s) (fun _ => 0%N) (fun _ => "{}")
             [move_row "/r/b.txt" "/r/c.txt"] (Path_of_string "/r/cp.json")
             false (fun _ => RenameFault) scenario_A).2
          (Path_of_string "/r/a.txt")
  = Some (File "hello").
Proof.
  apply (apply_moves_leaves_other_files (fun s => s) (fun _ => 0%N)
           (fun _ => "{}") [move_row "/r/b.txt" "/r/c.txt"]
           (Path_of_string "/r/cp.json") false (fun _ => RenameFault)
           scenario_A (Path_of_string "/r/a.txt") "hello").
  - vm_compute. reflexivity.
  - intros row ->%list_elem_of_singleton _.
    split; [vm_compute; discriminate | vm_compute; reflexivity].
  - vm_compute. reflexivity.
  - vm_compute. discriminate.
  - vm_compute. reflexivity.
  - vm_compute. reflexivity.
Defined.

(** ** A stale temporary file *)

Section StaleTmp.

Variable sha256 : string -> string.

(** X20. [copy_verify_delete] opens [dst + '.tmp'] for writing without
    looking: a regular file that happens to be at the temporary path is
    truncated, overwritten and renamed away.  After a move without faults
    the temporary path is absent, the destination holds the source's
    content, and the regular files left are the destination and files
    that were there before at other paths: the old content of the
    temporary path is gone. *)
Theorem stale_temporary_file_is_destroyed
    (src dst dst_tmp : Path) (fs fs1 : FS) (c t : string) :
  node_at fs src = Some (File c) ->
  with_suffix dst (suffix dst +:+ ".tmp") = Ok dst_tmp ->
  mkdir_parents fs (parent dst) = Ok fs1 ->
  exists_ fs1 dst = false ->
  node_at fs1 dst_tmp = Some (File t) ->
  src <> dst_tmp ->
  Applier.copy_verify_delete sha256 NoFault src dst fs
  = (Ok (String.length c),
     delete src (<[dst := File c]> (delete dst_tmp fs1)))
  /\ forall fs', fs' = delete src (<[dst := File c]> (delete dst_tmp fs1)) ->
       node_at fs' dst_tmp = None
       /\ node_at fs' dst = Some (File c)
       /\ forall q x, node_at fs' q = Some (File x) ->
                      (q = dst /\ x = c)
                      \/ (q <> dst_tmp /\ node_at fs1 q = Some (File x)).
Proof.
  intros Hsrc Hws Hmk Hd Ht Hst.
  pose proof (tmp_is_sibling _ _ Hws) as (_ & Hda & Hpar & Htd).
  pose proof (mkdir_parents_preserves _ _ _ Hmk _ _ Hsrc) as H1.
  pose proof (mkdir_parents_is_dir _ _ _ Hmk) as Hdir.
  apply exists_false_None in Hd.
  pose proof (node_at_file_not_anchor _ _ _ Ht) as Hta.
  pose proof (node_at_file_not_anchor _ _ _ Hsrc) as Hsa.
  assert (src <> dst) as Hsd by (intros ->; congruence).
  assert (node_at fs1 (parent dst) = Some Dir) as Hp.
  { unfold is_dir in Hdir. by destruct (node_at fs1 (parent dst)) as [[|]|]. }
  assert (parent dst <> dst_tmp) as Hpt by (intros E; congruence).
  split.
  - unfold Applier.copy_verify_delete. rewrite Hws.
    unfold try_except at 1. rewrite three_phase_unfold.
    unfold bind at 1, update. rewrite Hmk.
    unfold bind at 1, query, stat_size. rewrite H1.
    unfold bind at 1.
    unfold try_except at 1, Applier.copy_to_tmp, bind at 1, query.
    unfold read_file at 1. rewrite H1.
    unfold bind at 1, update, open_wb. rewrite Ht, Hpar, Hp.
    unfold bind at 1, query, read_file at 1.
    rewrite node_at_insert_ne, H1 by done.
    set (fs3 := <[dst_tmp := File c]> (<[dst_tmp := File ""]> fs1)).
    assert (node_at fs3 src = Some (File c)) as H3s
      by (unfold fs3; by rewrite !node_at_insert_ne).
    assert (node_at fs3 dst_tmp = Some (File c)) as H3t
      by (unfold fs3; by rewrite node_at_insert_eq).
    unfold after_copy. unfold bind at 1.
    unfold try_except at 1, Applier.fsync_tmp, bind at 1, query,
      read_file at 1.
    rewrite H3t. unfold ret at 1.
    unfold bind at 1. rewrite (sha256_file_of_file sha256 src fs3 c H3s).
    unfold bind at 1. rewrite (sha256_file_of_file sha256 dst_tmp fs3 c H3t).
    rewrite String.eqb_refl. cbn [negb]. unfold bind at 1, ret at 1.
    unfold bind at 1.
    unfold try_except at 1, Applier.rename_tmp, update, rename.
    rewrite Hta, H3t.
    assert (node_at fs3 dst = None) as ->
      by (unfold fs3; by rewrite !node_at_insert_ne).
    assert (node_at fs3 (parent dst) = Some Dir) as ->
      by (unfold fs3; by rewrite !node_at_insert_ne).
    set (fs4 := <[dst := File c]> (delete dst_tmp fs3)).
    assert (node_at fs4 src = Some (File c)) as H4s.
    { unfold fs4. by rewrite node_at_insert_ne, node_at_delete_ne. }
    unfold bind at 1. rewrite (unlink_step NoFault src fs4 c H4s).
    unfold ret. do 3 f_equal. unfold fs3.
    by rewrite insert_insert_eq, delete_insert_eq.
  - intros fs' ->. split; [|split].
    + rewrite node_at_delete_ne by done. rewrite node_at_insert_ne by done.
      by apply node_at_delete_eq.
    + rewrite node_at_delete_ne by done. by apply node_at_insert_eq.
    + intros q x Hq.
      destruct (decide (q = src)) as [->|Hqs].
      { by rewrite node_at_delete_eq in Hq. }
      rewrite node_at_delete_ne in Hq by done.
      destruct (decide (q = dst)) as [->|Hqd].
      { rewrite node_at_insert_eq in Hq by done. left. by injection Hq. }
      rewrite node_at_insert_ne in Hq by done.
      destruct (decide (q = dst_tmp)) as [->|Hqt].
      { by rewrite node_at_delete_eq in Hq. }
      rewrite node_at_delete_ne in Hq by done. by right.
Qed.

End StaleTmp.

Lemma stale_temporary_file_is_destroyed_witness :
  Applier.copy_verify_delete (fun s => s) NoFault
    (Path_of_string "/r/b.txt") (Path_of_string "/r/c.txt")
    (<[Path_of_string "/r/c.txt.tmp" := File "precious"]> scenario_A)
  = (Ok (String.length "hello"),
     delete (Path_of_string "/r/b.txt")
       (<[Path_of_string "/r/c.txt" := File "hello"]>
          (delete (Path_of_string "/r/c.txt.tmp")
             (<[Path_of_string "/r/c.txt.tmp" := File "precious"]>
                scenario_A)))).
Proof.
  apply (stale_temporary_file_is_destroyed (fun s => s)
           (Path_of_string "/r/b.txt") (Path_of_string "/r/c.txt")
           (Path_of_string "/r/c.txt.tmp")
           (<[Path_of_string "/r/c.txt.tmp" := File "precious"]> scenario_A)
           (<[Path_of_string "/r/c.txt.tmp" := File "precious"]> scenario_A)
           "hello" "precious").
  - vm_compute. reflexivity.
  - vm_compute. reflexivity.
  - apply mkdir_parents_existing_dir. vm_compute. reflexivity.
  - vm_compute. reflexivity.
  - vm_compute. reflexivity.
  - vm_compute. discriminate.
Defined.

(** ** The folder metadata never reaches [meta.json] *)




Section MetaExporterFacts.

Variable schema_validate : json -> option string.
Variable json_dump : bool -> json -> string.


End MetaExporterFacts.

(** ** The structural validation of [src/validator.py] *)

Lemma all_hex_chars (s : string) :
  Validator.all_hex (Validator.chars s)
  = inr (forallb (fun a => Planner.has_char a Validator.HEX)
                 (list_ascii_of_string s)).
Proof.
  induction s as [|a s IH]; [done|].
  cbn [Validator.chars Validator.all_hex list_ascii_of_string forallb].
  rewrite contains_char.
  destruct (Planner.has_char a Validator.HEX); [|done]. by rewrite IH.
Qed.

(** The items that [all(c in HEX for c in items)] accepts: strings that
    occur in [HEX]. *)
Definition hex_items (items : list json) : Prop :=
  Forall (fun v => exists s, v = JStr s /\ Py.contains s Validator.HEX = true)
         items.

Lemma all_hex_true (items : list json) :
  Validator.all_hex items = inr true <-> hex_items items.
Proof.
  unfold hex_items. induction items as [|v items IH]; cbn [Validator.all_hex].
  - split; [by constructor | done].
  - destruct v as [| | |s| |]; try (split; [done|]; intros H;
      apply Forall_cons in H as [(s' & [=] & _) _]).
    destruct (Py.contains s Validator.HEX) eqn:E.
    + rewrite IH. split.
      * intros H. apply Forall_cons. split; [by exists s | done].
      * intros H. by apply Forall_cons in H as [_ H].
    + split; [done|]. intros H.
      apply Forall_cons in H as [(s' & [= <-] & Hs) _]. congruence.
Qed.

(** An entry that the checks accept: a dictionary with the five keys
    whose [sha256] has [len] 64 and iterates over strings that occur in
    [HEX]. *)
Definition entry_ok (entry : json) : Prop :=
  exists ekv sha items,
    entry = JObj ekv
    /\ Validator.missing_key ["name"; "size"; "sha256"; "mime"; "category"] ekv
       = None
    /\ get "sha256" ekv = Some sha
    /\ Validator.len sha = inr 64
    /\ Validator.iter sha = inr items
    /\ hex_items items.

Lemma check_entry_None (entry : json) :
  Validator.check_entry entry = None <-> entry_ok entry.
Proof.
  split.
  - destruct entry as [| | | |l|ekv]; try done.
    unfold Validator.check_entry.
    destruct (Validator.missing_key _ ekv) eqn:Ek; [done|].
    destruct (get "sha256" ekv) as [sha|] eqn:Es; [|done].
    destruct (Validator.len sha) as [e|n] eqn:El; [done|].
    destruct (n =? 64) eqn:En; cbn [negb]; [|done].
    apply Nat.eqb_eq in En. subst n.
    destruct (Validator.iter sha) as [e|items] eqn:Ei; [done|].
    destruct (Validator.all_hex items) as [e|[|]] eqn:Ea; [done| |done].
    intros _. exists ekv, sha, items. apply all_hex_true in Ea. done.
  - intros (ekv & sha & items & -> & Hk & Hs & Hl & Hi & Hh).
    unfold Validator.check_entry. rewrite Hk, Hs, Hl. cbn [Nat.eqb negb].
    rewrite Hi. apply all_hex_true in Hh. by rewrite Hh.
Qed.

Lemma check_entries_None (entries : list json) :
  Validator.check_entries entries = None <->
  forall entry, entry ∈ entries -> Validator.check_entry entry = None.
Proof.
  induction entries as [|e es IH]; cbn [Validator.check_entries].
  - split; [intros _ x Hx; by apply elem_of_nil in Hx | done].
  - destruct (Validator.check_entry e) eqn:Ee.
    + split; [done|]. intros H. specialize (H e ltac:(left)). congruence.
    + rewrite IH. split.
      * intros H x Hx. apply elem_of_cons in Hx as [->|Hx]; [done|by apply H].
      * intros H x Hx. apply H. by right.
Qed.

(** A dictionary that the checks accept. *)
Definition meta_ok (meta : json) : Prop :=
  exists kv entries,
    meta = JObj kv
    /\ Validator.missing_key
         ["spec"; "generated_at"; "folder_rel"; "summary"; "entries"] kv
       = None
    /\ (get "spec" kv = Some (JStr "deduplab_meta_v3")
        \/ get "spec" kv = Some (JStr "deduplab_meta_v4"))
    /\ get "entries" kv = Some (JList entries)
    /\ forall entry, entry ∈ entries -> entry_ok entry.

Lemma structural_checks_None (kv : list (string * json)) :
  Validator.structural_checks kv = None <-> meta_ok (JObj kv).
Proof.
  unfold Validator.structural_checks, meta_ok. split.
  - destruct (Validator.missing_key _ kv) eqn:Ek; [done|].
    assert (is_str (get "spec" kv) "deduplab_meta_v3"
            || is_str (get "spec" kv) "deduplab_meta_v4" = true ->
            get "spec" kv = Some (JStr "deduplab_meta_v3")
            \/ get "spec" kv = Some (JStr "deduplab_meta_v4")) as Hspec.
    { destruct (get "spec" kv) as [[| | |sp| |]|]; try done.
      cbn [is_str]. intros H. apply orb_true_iff in H as [H|H];
        apply String.eqb_eq in H; subst sp; [by left | by right]. }
    destruct (is_str (get "spec" kv) "deduplab_meta_v3"
              || is_str (get "spec" kv) "deduplab_meta_v4"); [|done].
    destruct (get "entries" kv) as [[| | | |entries|]|] eqn:Hent; try done.
    intros Hchk. exists kv, entries.
    split; [done|]. split; [done|]. split; [by apply Hspec|]. split; [done|].
    intros entry Hin. apply check_entry_None.
    by apply (proj1 (check_entries_None entries)).
  - intros (kv' & entries & [= <-] & Hk & Hspec & Hent & Hall).
    rewrite Hk.
    assert (Validator.check_entries entries = None) as Hchk.
    { apply check_entries_None. intros entry Hin.
      apply check_entry_None. by apply Hall. }
    destruct Hspec as [-> | ->]; cbn [is_str String.eqb Ascii.eqb Bool.eqb orb];
      by rewrite Hent, Hchk.
Qed.

(** X22. The outcomes of [validate_meta_dict] of [src/validator.py].
    A [meta] that is not a dictionary makes the call raise
    [AttributeError] (the [isinstance] assertion is never reached).
    Without [jsonschema] the structural checks decide.  The call returns
    [(True, None)] exactly when the five top-level keys are there, [spec]
    is one of the two known names, [entries] is a list, and every entry
    is a dictionary with the keys [name], [size], [sha256], [mime] and
    [category] whose [sha256] has [len] 64 and iterates over strings that
    occur in the hexadecimal alphabet; every other dictionary gives
    [(False, "Structural validation failed: ...")].  For a digest that is
    a string the condition on it is: 64 hexadecimal digits.  The digest
    need not be a string: a list of 64 strings that occur in the alphabet
    passes as well. *)
Theorem validate_meta_dict_outcomes
    (has_jsonschema v4_schema_exists : bool)
    (schema_validate : nat -> json -> option string) (meta : json) :
  ((forall kv, meta <> JObj kv) ->
   exists msg,
     Validator.validate_meta_dict has_jsonschema v4_schema_exists
       schema_validate meta = inl (Validator.AttributeError msg))
  /\ (Validator.validate_meta_dict false v4_schema_exists schema_validate meta
      = inr (true, None) <-> meta_ok meta)
  /\ (forall kv, meta = JObj kv -> ~ meta_ok meta ->
        exists msg,
          Validator.validate_meta_dict false v4_schema_exists schema_validate
            meta
          = inr (false, Some ("Structural validation failed: " +:+ msg)))
  /\ (forall ekv s,
        Validator.missing_key ["name"; "size"; "sha256"; "mime"; "category"]
                              ekv = None ->
        get "sha256" ekv = Some (JStr s) ->
        (entry_ok (JObj ekv) <->
         String.length s = 64
         /\ forallb (fun a => Planner.has_char a Validator.HEX)
                    (list_ascii_of_string s) = true))
  /\ (forall ekv l,
        Validator.missing_key ["name"; "size"; "sha256"; "mime"; "category"]
                              ekv = None ->
        get "sha256" ekv = Some (JList l) ->
        (entry_ok (JObj ekv) <-> length l = 64 /\ hex_items l)).
Proof.
  split; [|split; [|split; [|split]]].
  - intros Hno. destruct meta as [| | | |l|kv]; cbn; eauto.
    by destruct (Hno kv).
  - destruct meta as [| | | |l|kv];
      try (split; [done | by intros (kv' & es & [=] & _)]).
    unfold Validator.validate_meta_dict.
    rewrite <- structural_checks_None.
    by destruct (Validator.structural_checks kv).
  - intros kv -> Hno. unfold Validator.validate_meta_dict.
    destruct (Validator.structural_checks kv) as [e|] eqn:Es; [by eexists|].
    apply structural_checks_None in Es. done.
  - intros ekv s Hk Hs. split.
    + intros (ekv' & sha & items & [= <-] & _ & Hs' & Hl & Hi & Hh).
      rewrite Hs in Hs'. injection Hs' as <-.
      cbn in Hl, Hi. injection Hl as Hl. injection Hi as <-.
      split; [done|]. apply all_hex_true in Hh.
      rewrite all_hex_chars in Hh. by injection Hh.
    + intros [Hl Hh]. exists ekv, (JStr s), (Validator.chars s).
      split; [done|]. split; [done|]. split; [done|].
      split; [cbn; by rewrite Hl|]. split; [done|].
      apply all_hex_true. by rewrite all_hex_chars, Hh.
  - intros ekv l Hk Hs. split.
    + intros (ekv' & sha & items & [= <-] & _ & Hs' & Hl & Hi & Hh).
      rewrite Hs in Hs'. injection Hs' as <-.
      cbn in Hl, Hi. injection Hl as Hl. injection Hi as <-. done.
    + intros [Hl Hh]. exists ekv, (JList l), l.
      split; [done|]. split; [done|]. split; [done|].
      split; [cbn; by rewrite Hl|]. done.
Qed.

(** A dictionary whose one entry carries its digest as a list of 64
    one-character strings: accepted. *)
Definition listed_digest_meta : json :=
  JObj [("spec", JStr "deduplab_meta_v3"); ("generated_at", JStr "now");
        ("folder_rel", JStr "."); ("summary", JObj []);
        ("entries",
         JList [JObj [("name", JStr "a.txt"); ("size", JNum 5);
                      ("sha256", JList (repeat (JStr "a") 64));
                      ("mime", JStr "text/plain");
                      ("category", JStr "document")]])].

Lemma validate_meta_dict_outcomes_witness :
  Validator.validate_meta_dict false true (fun _ _ => None) listed_digest_meta
  = inr (true, None)
  /\ meta_ok listed_digest_meta
  /\ (exists msg,
        Validator.validate_meta_dict true true (fun _ _ => None) (JList [])
        = inl (Validator.AttributeError msg)).
Proof.
  assert (Validator.validate_meta_dict false true (fun _ _ => None)
            listed_digest_meta = inr (true, None)) as E
    by (vm_compute; reflexivity).
  split; [exact E|]. split.
  - exact (proj1 (proj1 (proj2 (validate_meta_dict_outcomes false true
                                  (fun _ _ => None) listed_digest_meta))) E).
  - apply (proj1 (validate_meta_dict_outcomes true true (fun _ _ => None)
                    (JList []))).
    intros kv. discriminate.
Defined.

(** ** The migrations of the store *)

(** A database of the original layout: [files] without the later columns,
    no [schema_version] table. *)
Definition is_v0 (s : DBSchema.Schema) : Prop :=
  DBSchema.versions s = None
  /\ ("idx_files_hash_ctx" ∉ DBSchema.indexes s)
  /\ match DBSchema.files_cols s with
     | None => True
     | Some cols =>
         ("sha256" ∈ cols) /\ ("mime" ∉ cols) /\ ("context_tag" ∉ cols)
     end.

Definition no_faults : nat -> DBSchema.dbfault := fun _ => DBSchema.DbOk.

Lemma elem_of_snoc_ne (l : list string) (x y : string) :
  x <> y -> x ∈ l ++ [y] <-> x ∈ l.
Proof.
  intros H. rewrite elem_of_app, list_elem_of_singleton. tauto.
Qed.

(** The schema of a database of the original layout (or of a new file)
    once [BASE_SCHEMA] has run. *)
Lemma base_schema_v0 (s : DBSchema.Schema) :
  is_v0 s ->
  exists s0, DBSchema.base_schema s = inr s0
             /\ DBSchema.versions s0 = None
             /\ ("idx_files_hash_ctx" ∉ DBSchema.indexes s0)
             /\ exists cols, DBSchema.files_cols s0 = Some cols
                             /\ ("sha256" ∈ cols) /\ ("mime" ∉ cols)
                             /\ ("context_tag" ∉ cols)
                             /\ cols = default ["path"; "size"; "mtime"; "sha256"]
                                               (DBSchema.files_cols s).
Proof.
  intros (Hv & Hi & Hc). unfold DBSchema.base_schema. cbv zeta.
  set (cols := default ["path"; "size"; "mtime"; "sha256"]
                       (DBSchema.files_cols s)).
  assert (("sha256" ∈ cols) /\ ("mime" ∉ cols) /\ ("context_tag" ∉ cols))
    as Hcols.
  { unfold cols. destruct (DBSchema.files_cols s) as [c|]; [done|]. cbn.
    split; [do 3 right; left|].
    split; intros H; repeat (apply elem_of_cons in H as [H|H]; [done|]);
      by apply elem_of_nil in H. }
  destruct Hcols as (H1 & H2 & H3).
  destruct (bool_decide ("idx_sha" ∈ DBSchema.indexes s)) eqn:E.
  - eexists. split; [done|]. cbn. split; [done|]. split; [done|].
    exists cols. done.
  - rewrite (bool_decide_eq_true_2 _ H1).
    eexists. split; [done|]. cbn. split; [done|]. split.
    + by rewrite elem_of_snoc_ne.
    + exists cols. done.
Qed.

(** X23. Opening a database of the original layout, or a new file, without
    failures applies the four migrations: [files] gets the columns [mime]
    and [context_tag], the composite index exists, version 4 is recorded;
    and opening the result again changes nothing. *)
Theorem init_migrates_and_is_idempotent (s : DBSchema.Schema) :
  is_v0 s ->
  exists s',
    DBSchema.init no_faults s = (None, s')
    /\ DBSchema.files_cols s'
       = Some (default ["path"; "size"; "mtime"; "sha256"]
                       (DBSchema.files_cols s) ++ ["mime"; "context_tag"])
    /\ ("idx_files_hash_ctx" ∈ DBSchema.indexes s')
    /\ DBSchema._get_schema_version s' = 4
    /\ DBSchema.init no_faults s' = (None, s').
Proof.
  intros Hv0.
  destruct (base_schema_v0 s Hv0)
    as (s0 & Hb & Hv & Hi & cols & Hc & H1 & H2 & H3 & Hcols).
  destruct s0 as [fc idx vs]. cbn in Hv, Hi, Hc. subst fc vs.
  assert ("context_tag" ∉ cols ++ ["mime"]) as H3'
      by (by rewrite elem_of_snoc_ne).
  assert ("sha256" ∈ (cols ++ ["mime"]) ++ ["context_tag"]) as H1'.
  { apply elem_of_app. left. apply elem_of_app. by left. }
  assert ("context_tag" ∈ (cols ++ ["mime"]) ++ ["context_tag"]) as H4.
  { apply elem_of_app. right. left. }
  set (s' := {| DBSchema.files_cols :=
                  Some ((cols ++ ["mime"]) ++ ["context_tag"]);
                DBSchema.indexes := idx ++ ["idx_files_hash_ctx"];
                DBSchema.versions := Some [4] |}).
  assert (DBSchema.init no_faults s = (None, s')) as Hinit.
  { unfold DBSchema.init. rewrite Hb.
    unfold DBSchema._migrate, DBSchema._get_schema_version. cbn [DBSchema.versions].
    unfold no_faults. cbn [DBSchema.migrate_loop Nat.ltb Nat.leb].
    unfold DBSchema.migrate_one at 1. cbn [DBSchema.migration DBSchema.add_column DBSchema.files_cols].
    rewrite (bool_decide_eq_false_2 _ H2). cbn [Nat.leb DBSchema.indexes DBSchema.versions].
    unfold DBSchema.migrate_one at 1. cbn [DBSchema.migration DBSchema.add_column DBSchema.files_cols].
    rewrite (bool_decide_eq_false_2 _ H3'). cbn [Nat.leb DBSchema.indexes DBSchema.versions].
    unfold DBSchema.migrate_one at 1. cbn [DBSchema.migration DBSchema.files_cols DBSchema.indexes DBSchema.versions].
    rewrite (bool_decide_eq_false_2 _ Hi).
    rewrite (bool_decide_eq_true_2 _ H1'), (bool_decide_eq_true_2 _ H4).
    cbn [Nat.leb DBSchema.indexes DBSchema.versions DBSchema.files_cols].
    unfold DBSchema.migrate_one at 1. cbn [DBSchema.migration Nat.leb DBSchema.files_cols DBSchema.indexes DBSchema.versions default].
    unfold DBSchema.record_version. cbn [DBSchema.versions].
    rewrite bool_decide_eq_false_2 by (intros H; by apply elem_of_nil in H).
    cbn [DBSchema.files_cols DBSchema.indexes app]. done. }
  exists s'. split; [done|]. split.
  { cbn. rewrite <- Hcols. by rewrite <- app_assoc. }
  split; [cbn; apply elem_of_app; right; left|]. split; [done|].
  (* the second opening *)
  pose proof Hb as Hb'. unfold DBSchema.base_schema in Hb'. cbv zeta in Hb'.
  rewrite <- Hcols in Hb'.
  assert ("idx_sha" ∈ idx) as Hsha.
  { destruct (bool_decide ("idx_sha" ∈ DBSchema.indexes s)) eqn:E.
    - injection Hb' as <-. by apply bool_decide_eq_true in E.
    - rewrite (bool_decide_eq_true_2 _ H1) in Hb'. injection Hb' as <-.
      apply elem_of_app. right. left. }
  unfold DBSchema.init, DBSchema.base_schema. cbv zeta.
  cbn [DBSchema.indexes DBSchema.files_cols DBSchema.versions s' default].
  rewrite bool_decide_eq_true_2 by (apply elem_of_app; by left).
  done.
Qed.

Lemma init_migrates_and_is_idempotent_witness :
  exists s',
    DBSchema.init no_faults DBSchema.empty = (None, s')
    /\ DBSchema.files_cols s'
       = Some (default ["path"; "size"; "mtime"; "sha256"]
                       (DBSchema.files_cols DBSchema.empty)
               ++ ["mime"; "context_tag"])
    /\ ("idx_files_hash_ctx" ∈ DBSchema.indexes s')
    /\ DBSchema._get_schema_version s' = 4
    /\ DBSchema.init no_faults s' = (None, s').
Proof.
  apply (init_migrates_and_is_idempotent DBSchema.empty).
  split; [reflexivity|]. split; [|exact I].
  intros H. by apply elem_of_nil in H.
Defined.

(** X24. Only migration 4 is recorded.  When the first opening of a
    database of the original layout (or of a new file) fails at migration
    2, 3 or 4 -- the script fails, or for migration 4 the [INSERT] that
    records it -- the earlier migrations stay applied but no version is
    recorded, and every later opening fails at migration 1 with
    [duplicate column name: mime], also when nothing goes wrong any more:
    the database cannot be opened again. *)
Theorem interrupted_migration_blocks_reopening
    (s : DBSchema.Schema) (faults : nat -> DBSchema.dbfault) (k : nat) :
  is_v0 s ->
  2 <= k <= 4 ->
  (forall v, v < k -> faults v = DBSchema.DbOk) ->
  (faults k = DBSchema.ScriptFails
   \/ (k = 4 /\ faults k = DBSchema.InsertFails)) ->
  exists e s1,
    DBSchema.init faults s = (Some e, s1)
    /\ DBSchema.failed_version e = k
    /\ DBSchema._get_schema_version s1 = 0
    /\ DBSchema.init no_faults s1
       = (Some {| DBSchema.failed_version := 1;
                  DBSchema.failed_reason := "duplicate column name: mime" |},
          s1).
Proof.
  intros Hv0 Hk Hok Hfail.
  destruct (base_schema_v0 s Hv0)
    as (s0 & Hb & Hv & Hi & cols & Hc & H1 & H2 & H3 & Hcols).
  destruct s0 as [fc idx vs]. cbn in Hv, Hi, Hc. subst fc vs.
  assert ("context_tag" ∉ cols ++ ["mime"]) as H3'
      by (by rewrite elem_of_snoc_ne).
  assert ("sha256" ∈ (cols ++ ["mime"]) ++ ["context_tag"]) as H1'.
  { apply elem_of_app. left. apply elem_of_app. by left. }
  assert ("context_tag" ∈ (cols ++ ["mime"]) ++ ["context_tag"]) as H4.
  { apply elem_of_app. right. left. }
  assert ("mime" ∈ cols ++ ["mime"]) as Hm by (apply elem_of_app; right; left).
  assert ("mime" ∈ (cols ++ ["mime"]) ++ ["context_tag"]) as Hm'
      by (apply elem_of_app; by left).
  pose proof Hb as Hb'. unfold DBSchema.base_schema in Hb'. cbv zeta in Hb'.
  rewrite <- Hcols in Hb'.
  assert ("idx_sha" ∈ idx) as Hsha.
  { destruct (bool_decide ("idx_sha" ∈ DBSchema.indexes s)) eqn:E.
    - injection Hb' as <-. by apply bool_decide_eq_true in E.
    - rewrite (bool_decide_eq_true_2 _ H1) in Hb'. injection Hb' as <-.
      apply elem_of_app. right. left. }
  (* a later opening of a schema that has [mime] but no recorded version *)
  assert (forall cols' idx' vs',
             "mime" ∈ cols' -> "idx_sha" ∈ idx' ->
             fold_right Nat.max 0 (default [] vs') = 0 ->
             let s1 := {| DBSchema.files_cols := Some cols';
                          DBSchema.indexes := idx';
                          DBSchema.versions := vs' |} in
             DBSchema._get_schema_version s1 = 0
             /\ DBSchema.init no_faults s1
                = (Some {| DBSchema.failed_version := 1;
                           DBSchema.failed_reason :=
                             "duplicate column name: mime" |}, s1)) as Hlater.
  { intros cols' idx' vs' Hmime Hidx Hmax s1.
    assert (DBSchema._get_schema_version s1 = 0) as Hver.
    { unfold DBSchema._get_schema_version, s1. cbn. by destruct vs'. }
    split; [done|].
    unfold DBSchema.init, DBSchema.base_schema. cbv zeta.
    cbn [DBSchema.indexes DBSchema.files_cols DBSchema.versions s1 default].
    rewrite (bool_decide_eq_true_2 _ Hidx).
    unfold DBSchema._migrate, DBSchema._get_schema_version.
    cbn [DBSchema.versions].
    replace (match vs' with Some vs => fold_right Nat.max 0 vs | None => 0 end)
      with 0 by (by destruct vs').
    unfold no_faults. cbn [DBSchema.migrate_loop Nat.ltb Nat.leb].
    unfold DBSchema.migrate_one. cbn [DBSchema.migration DBSchema.add_column DBSchema.files_cols s1].
    by rewrite (bool_decide_eq_true_2 _ Hmime). }
  assert (faults 1 = DBSchema.DbOk) as F1 by (apply Hok; lia).
  (* the first opening, up to migration [k] *)
  unfold DBSchema.init. rewrite Hb.
  unfold DBSchema._migrate, DBSchema._get_schema_version. cbn [DBSchema.versions].
  cbn [DBSchema.migrate_loop Nat.ltb Nat.leb].
  unfold DBSchema.migrate_one at 1. rewrite F1.
  cbn [DBSchema.migration DBSchema.add_column DBSchema.files_cols].
  rewrite (bool_decide_eq_false_2 _ H2). cbn [Nat.leb DBSchema.indexes DBSchema.versions].
  destruct (decide (k = 2)) as [->|Hk2].
  { destruct Hfail as [F|[? _]]; [|lia].
    unfold DBSchema.migrate_one at 1. rewrite F.
    do 2 eexists. split; [reflexivity|]. split; [done|].
    by apply Hlater. }
  assert (faults 2 = DBSchema.DbOk) as F2 by (apply Hok; lia).
  unfold DBSchema.migrate_one at 1. rewrite F2.
  cbn [DBSchema.migration DBSchema.add_column DBSchema.files_cols].
  rewrite (bool_decide_eq_false_2 _ H3'). cbn [Nat.leb DBSchema.indexes DBSchema.versions].
  destruct (decide (k = 3)) as [->|Hk3].
  { destruct Hfail as [F|[? _]]; [|lia].
    unfold DBSchema.migrate_one at 1. rewrite F.
    do 2 eexists. split; [reflexivity|]. split; [done|].
    by apply Hlater. }
  assert (k = 4) as -> by lia.
  assert (faults 3 = DBSchema.DbOk) as F3 by (apply Hok; lia).
  unfold DBSchema.migrate_one at 1. rewrite F3.
  cbn [DBSchema.migration DBSchema.files_cols DBSchema.indexes DBSchema.versions].
  rewrite (bool_decide_eq_false_2 _ Hi).
  rewrite (bool_decide_eq_true_2 _ H1'), (bool_decide_eq_true_2 _ H4).
  cbn [Nat.leb DBSchema.indexes DBSchema.versions DBSchema.files_cols].
  unfold DBSchema.migrate_one at 1.
  destruct Hfail as [F|[_ F]]; rewrite F.
  - do 2 eexists. split; [reflexivity|]. split; [done|].
    apply Hlater; [done| |done]. apply elem_of_app. by left.
  - cbn [DBSchema.migration Nat.leb DBSchema.files_cols DBSchema.indexes DBSchema.versions default].
    do 2 eexists. split; [reflexivity|]. split; [done|].
    apply Hlater; [done| |done]. apply elem_of_app. by left.
Qed.

Lemma interrupted_migration_blocks_reopening_witness :
  exists e s1,
    DBSchema.init (fun v => if v =? 3 then DBSchema.ScriptFails
                            else DBSchema.DbOk) DBSchema.empty = (Some e, s1)
    /\ DBSchema.failed_version e = 3
    /\ DBSchema._get_schema_version s1 = 0
    /\ DBSchema.init no_faults s1
       = (Some {| DBSchema.failed_version := 1;
                  DBSchema.failed_reason := "duplicate column name: mime" |},
          s1).
Proof.
  apply (interrupted_migration_blocks_reopening DBSchema.empty
           (fun v => if v =? 3 then DBSchema.ScriptFails else DBSchema.DbOk) 3).
  - split; [reflexivity|]. split; [|exact I].
    intros H. by apply elem_of_nil in H.
  - lia.
  - intros v Hv. destruct v as [|[|[|v]]]; (reflexivity || lia).
  - left. reflexivity.
Defined.
